(** * Trait normalisation, cross-source matching and media selection

    A shallow embedding of the mammal database generation scripts
    ([build_mammals_csv.py], [FillDataFromPantheria.py],
    [AddPopulationGrpSizeFromPantheria.py], [AddSoundFromWikipedia.py])
    and the properties their specification states about them.

    Conventions of the embedding.
    - A Python [str] is a Rocq [string]; a character stands for the code
      point of the same number (U+0000 to U+00FF).
    - A Python [dict] used as a map is a [gmap]; a dict whose iteration
      order matters is an association list.
    - [None] is [None]; a function that can raise returns a sum whose left
      side is the exception. *)

From Stdlib Require Import ZArith QArith Ascii String List Bool Lia.
From Stdlib Require Import Qpower DecimalString DecimalN DecimalZ.
From Stdlib Require Import Floats.SpecFloat Sorting.Sorted.
From stdpp Require Import base option list gmap strings.

Local Open Scope Z_scope.

Set Warnings "-clear-no-such-hyp".

(** ** Exceptions *)

Inductive exn : Type :=
  | ValueError
  | OverflowError
  | AttributeError
  | RequestException.

(** What a call that can raise gives. *)
Inductive result (A : Type) : Type :=
  | Ok (a : A)
  | Raised (e : exn).

Arguments Ok {A} a.
Arguments Raised {A} e.

(** ** Python string primitives *)

Module PyStr.

Definition code (c : ascii) : N := N_of_ascii c.

(** [str.isspace] on one character: U+0009..U+000D, U+001C..U+0020,
    U+0085 and U+00A0 are the white space below U+0100. *)
Definition isspace (c : ascii) : bool :=
  let n := code c in
  ((9 <=? n) && (n <=? 13) || (28 <=? n) && (n <=? 32)
   || (n =? 133) || (n =? 160))%N.

(** [str.lower] on one character: A..Z and the capital letters
    U+00C0..U+00DE (the sign U+00D7 apart) move 32 places up. *)
Definition lower_char (c : ascii) : ascii :=
  let n := code c in
  if ((65 <=? n) && (n <=? 90)
      || (192 <=? n) && (n <=? 222) && negb (n =? 215))%N
  then ascii_of_N (n + 32) else c.

Fixpoint lower (s : string) : string :=
  match s with
  | EmptyString => EmptyString
  | String c s' => String (lower_char c) (lower s')
  end.

(** [s.lstrip()], [s.rstrip()] and [s.strip()] without argument. *)
Fixpoint lstrip (s : string) : string :=
  match s with
  | EmptyString => EmptyString
  | String c s' => if isspace c then lstrip s' else s
  end.

Fixpoint rstrip (s : string) : string :=
  match s with
  | EmptyString => EmptyString
  | String c s' =>
      match rstrip s' with
      | EmptyString => if isspace c then EmptyString else String c EmptyString
      | r => String c r
      end
  end.

Definition strip (s : string) : string := rstrip (lstrip s).

(** The maximal runs of characters that are not delimiters, in order:
    [s.split()] when the delimiters are the white space. *)
Fixpoint runs (delim : ascii -> bool) (s : string) : list string :=
  match s with
  | EmptyString => []
  | String c s' =>
      if delim c then runs delim s'
      else
        match s' with
        | EmptyString => [String c EmptyString]
        | String c' _ =>
            if delim c' then String c EmptyString :: runs delim s'
            else
              match runs delim s' with
              | w :: ws => String c w :: ws
              | [] => [String c EmptyString]
              end
        end
  end.

Definition split (s : string) : list string := runs isspace s.

(** [sep.join(parts)]. *)
Fixpoint join (sep : string) (parts : list string) : string :=
  match parts with
  | [] => EmptyString
  | [p] => p
  | p :: ps => p +:+ sep +:+ join sep ps
  end.

(** [s.startswith(p)], [s.endswith(p)] and [k in s]. *)
Fixpoint startswith (p s : string) : bool :=
  match p, s with
  | EmptyString, _ => true
  | String a p', String b s' => if Ascii.eqb a b then startswith p' s' else false
  | String _ _, EmptyString => false
  end.

Fixpoint endswith (p s : string) : bool :=
  if String.eqb s p then true
  else match s with
       | EmptyString => false
       | String _ s' => endswith p s'
       end.

Fixpoint contains (k s : string) : bool :=
  startswith k s ||
  match s with
  | EmptyString => false
  | String _ s' => contains k s'
  end.

(** [s.replace(a, b)] for single characters [a] and [b]. *)
Fixpoint replace_char (a b : ascii) (s : string) : string :=
  match s with
  | EmptyString => EmptyString
  | String c s' => String (if Ascii.eqb c a then b else c) (replace_char a b s')
  end.

(** [s[n:]]. *)
Fixpoint drop (n : nat) (s : string) : string :=
  match n, s with
  | O, _ => s
  | S n', String _ s' => drop n' s'
  | S _, EmptyString => EmptyString
  end.

(** [s.rstrip(c)] for one character [c]. *)
Fixpoint rstrip_char (a : ascii) (s : string) : string :=
  match s with
  | EmptyString => EmptyString
  | String c s' =>
      match rstrip_char a s' with
      | EmptyString => if Ascii.eqb c a then EmptyString else String c EmptyString
      | r => String c r
      end
  end.

(** [s.replace(c, "")] for one character [c]. *)
Fixpoint remove_char (a : ascii) (s : string) : string :=
  match s with
  | EmptyString => EmptyString
  | String c s' => if Ascii.eqb c a then remove_char a s' else String c (remove_char a s')
  end.

(** Decimal digits, as the numeral readers of [float] and [Decimal] take
    them: the longest run of digits a string starts with; the same with one
    underscore allowed between two digits; the number a run of digits
    writes; an optional sign; and the exponent part that ends a numeral. *)
Definition is_digit (c : ascii) : bool :=
  ((48 <=? code c) && (code c <=? 57))%N.

Definition digit_val (c : ascii) : N := (code c - 48)%N.

Fixpoint take_digits (s : string) : string * string :=
  match s with
  | EmptyString => (EmptyString, EmptyString)
  | String c s' =>
      if is_digit c
      then let (d, r) := take_digits s' in (String c d, r)
      else (EmptyString, s)
  end.

Fixpoint take_digitpart (s : string) : string * string :=
  match s with
  | EmptyString => (EmptyString, EmptyString)
  | String c s' =>
      if is_digit c then
        match s' with
        | String "_" (String c' _ as s'') =>
            if is_digit c'
            then let (d, r) := take_digitpart s'' in (String c d, r)
            else (String c EmptyString, s')
        | _ => let (d, r) := take_digitpart s' in (String c d, r)
        end
      else (EmptyString, s)
  end.

Fixpoint digits_acc (acc : N) (s : string) : N :=
  match s with
  | EmptyString => acc
  | String c s' => digits_acc (10 * acc + digit_val c)%N s'
  end.

Definition digits_to_N (s : string) : N := digits_acc 0%N s.

Definition take_sign (s : string) : bool * string :=
  match s with
  | String "+" r => (false, r)
  | String "-" r => (true, r)
  | _ => (false, s)
  end.

Definition exponent_part (take : string -> string * string) (s : string)
  : option Z :=
  match s with
  | EmptyString => Some 0
  | String c r =>
      if Ascii.eqb c "e" || Ascii.eqb c "E" then
        let (neg, r1) := take_sign r in
        let (d, r2) := take r1 in
        match d, r2 with
        | String _ _, EmptyString =>
            Some (if neg then - Z.of_N (digits_to_N d) else Z.of_N (digits_to_N d))
        | _, _ => None
        end
      else None
  end.

(** [str(n)] for an integer [n]. *)
Definition str_of_N (n : N) : string :=
  NilZero.string_of_uint (N.to_uint n).

Definition str_of_Z (z : Z) : string :=
  match z with
  | Zneg p => String "-" (str_of_N (Npos p))
  | _ => str_of_N (Z.to_N z)
  end.

(** [len(str(n))]. *)
Definition ndigits (n : N) : Z :=
  Z.of_nat (String.length (str_of_N n)).

(** [s.rsplit(c, 1)[-1]]: what follows the last [c], the whole string when
    there is none. *)
Fixpoint after_last (a : ascii) (s : string) : string :=
  match s with
  | EmptyString => EmptyString
  | String c s' =>
      if contains (String a EmptyString) s' then after_last a s'
      else if Ascii.eqb c a then s' else s
  end.

(** The first and the last character of a string. *)
Definition first_char (s : string) : option ascii :=
  match s with
  | EmptyString => None
  | String c _ => Some c
  end.

Fixpoint last_char (s : string) : option ascii :=
  match s with
  | EmptyString => None
  | String c EmptyString => Some c
  | String _ s' => last_char s'
  end.

(** [re.split(p, s)] for a pattern [p] that matches the longest runs of
    the characters [delim]: the pieces between the runs, an empty piece
    before a run that starts the string and after one that ends it. *)
Definition re_split (delim : ascii -> bool) (s : string) : list string :=
  match s with
  | EmptyString => [EmptyString]
  | _ =>
      (if from_option delim false (first_char s) then [EmptyString] else [])
      ++ runs delim s
      ++ (if from_option delim false (last_char s) then [EmptyString] else [])
  end.

(** The class [[a-z0-9]] of the regular expressions. *)
Definition is_lower_alnum (c : ascii) : bool :=
  ((48 <=? code c) && (code c <=? 57) || (97 <=? code c) && (code c <=? 122))%N.


(** Truth value of a string: the empty string is false. *)
Definition nonempty (s : string) : bool :=
  match s with EmptyString => false | _ => true end.

(** [s[:n]]. *)
Fixpoint take (n : nat) (s : string) : string :=
  match n, s with
  | S n', String c s' => String c (take n' s')
  | _, _ => EmptyString
  end.

End PyStr.

(** ** The [requests] library, as far as [_get_json] uses it *)

Module Requests.

(** A response: its status code, and what [response.json()] gives. *)
Record response (json : Type) : Type := Response {
  status_code : Z;
  body : result json
}.

Arguments Response {json} status_code body.
Arguments status_code {json} r.
Arguments body {json} r.

(** [response.raise_for_status()]: an [HTTPError], which is a
    [RequestException], for a status from 400 to 599. *)
Definition raise_for_status {json : Type} (r : response json) : result unit :=
  if (400 <=? status_code r) && (status_code r <? 600)
  then Raised RequestException else Ok tt.

(** [except requests.RequestException] catches [e]. *)
Definition is_request_exception (e : exn) : bool :=
  match e with
  | RequestException => true
  | _ => false
  end.

End Requests.

(** ** Python's [float]: IEEE 754 binary64 *)

Module Float.

Definition prec : Z := 53.
Definition emax : Z := 1024.

(** The integer nearest to [n / d], ties to the even one ([0 <= n], [0 < d]). *)
Definition div_half_even (n d : Z) : Z :=
  let q := n / d in
  match 2 * (n mod d) ?= d with
  | Lt => q
  | Gt => q + 1
  | Eq => if Z.even q then q else q + 1
  end.

(** The float nearest to [(-1)^neg * m * 10^e], ties to even: how a decimal
    numeral is read. *)
Definition of_decimal (neg : bool) (m : N) (e : Z) : spec_float :=
  match m with
  | N0 => S754_zero neg
  | Npos p =>
      if 0 <=? e
      then binary_round prec emax neg (Z.to_pos (Zpos p * 10 ^ e)) 0
      else
        let '(q, e', l) :=
          SFdiv_core_binary prec emax (Zpos p) 0 (10 ^ (- e)) 0 in
        binary_round_aux prec emax neg q e' l
  end.

(** [float(n)] for an integer [n]. *)
Definition of_Z (n : Z) : spec_float := binary_normalize prec emax n 0 false.

Definition div : spec_float -> spec_float -> spec_float := SFdiv prec emax.
Definition sub : spec_float -> spec_float -> spec_float := SFsub prec emax.
Definition abs : spec_float -> spec_float := SFabs.
Definition ltb : spec_float -> spec_float -> bool := SFltb.
Definition leb : spec_float -> spec_float -> bool := SFleb.

(** [float(raw)] for a string: [None] when it raises [ValueError]. *)
Definition of_string (raw : string) : option spec_float :=
  let s := PyStr.strip raw in
  let (neg, r) := PyStr.take_sign s in
  let lr := PyStr.lower r in
  if String.eqb lr "inf" || String.eqb lr "infinity" then Some (S754_infinity neg)
  else if String.eqb lr "nan" then Some S754_nan
  else
    let (ip, r1) := PyStr.take_digitpart r in
    let '(fp, r2, ok) :=
      match r1 with
      | String "." r' =>
          let (fp, r2) := PyStr.take_digitpart r' in
          (fp, r2, PyStr.nonempty ip || PyStr.nonempty fp)
      | _ => (EmptyString, r1, PyStr.nonempty ip)
      end in
    if ok then
      match PyStr.exponent_part PyStr.take_digitpart r2 with
      | Some e =>
          Some (of_decimal neg (PyStr.digits_to_N (ip +:+ fp))
                  (e - Z.of_nat (String.length fp)))
      | None => None
      end
    else None.

(** The exact value of a finite float times [10^d], rounded to the nearest
    integer, ties to even. *)
Definition scaled_round (m : positive) (e : Z) (d : nat) : Z :=
  if 0 <=? e then Zpos m * 2 ^ e * 10 ^ Z.of_nat d
  else div_half_even (Zpos m * 10 ^ Z.of_nat d) (2 ^ (- e)).

(** [round(x)] with one argument. *)
Definition round (x : spec_float) : result Z :=
  match x with
  | S754_zero _ => Ok 0
  | S754_finite s m e =>
      let n := scaled_round m e 0 in Ok (if s then - n else n)
  | S754_nan => Raised ValueError
  | S754_infinity _ => Raised OverflowError
  end.

(** The digits of [n] with the decimal point [d] places from the right,
    as the format [.df] writes them. *)
Fixpoint zeros (k : nat) : string :=
  match k with
  | O => EmptyString
  | S k' => String "0" (zeros k')
  end.

Definition point_digits (n : N) (d : nat) : string :=
  match d with
  | O => PyStr.str_of_N n
  | _ =>
      let ip := PyStr.str_of_N (n / 10 ^ N.of_nat d) in
      let fp := PyStr.str_of_N (n mod 10 ^ N.of_nat d) in
      ip +:+ "." +:+ zeros (d - String.length fp) +:+ fp
  end.

(** [f"{x:.{d}f}"]. *)
Definition format_fixed (x : spec_float) (d : nat) : string :=
  match x with
  | S754_nan => "nan"
  | S754_infinity s => if s then "-inf" else "inf"
  | S754_zero s => (if s then "-" else "") +:+ point_digits 0 d
  | S754_finite s m e =>
      (if s then "-" else "") +:+ point_digits (Z.to_N (scaled_round m e d)) d
  end.

End Float.

(** ** Python's [Decimal] under the default context

    A finite decimal number [(-1)^sign * coeff * 10^exp]; results are
    rounded to the context's 28 digits, ties to even. The exponents of the
    amounts read here stay far from the context's limits, which are not
    modelled, and so are the special values (infinities and NaNs), which
    are no amounts of a claim. *)

Module Dec.

Record t : Type := mk { sign : bool; coeff : N; exp : Z }.

Definition prec : Z := 28.

(** [Decimal._fix]: round to the precision. *)
Definition fix_ (d : t) : t :=
  let len := PyStr.ndigits (coeff d) in
  if len <=? prec then d
  else
    let k := len - prec in
    let q := Float.div_half_even (Z.of_N (coeff d)) (10 ^ k) in
    if PyStr.ndigits (Z.to_N q) >? prec
    then mk (sign d) (Z.to_N (q / 10)) (exp d + k + 1)
    else mk (sign d) (Z.to_N q) (exp d + k).

(** [a * b]. *)
Definition mul (a b : t) : t :=
  fix_ (mk (xorb (sign a) (sign b)) (coeff a * coeff b) (exp a + exp b)).

(** The loop of the division that brings an exact quotient to its ideal
    exponent: [fuel] is the distance left to it. *)
Fixpoint strip_zeros (fuel : nat) (c : N) (e : Z) : N * Z :=
  match fuel with
  | O => (c, e)
  | S fuel' =>
      if (c mod 10 =? 0)%N then strip_zeros fuel' (c / 10)%N (e + 1)
      else (c, e)
  end.

(** [a / b] for a divisor that is not zero (every divisor of this program
    is a constant); on a zero divisor, where Python raises, the dividend. *)
Definition div (a b : t) : t :=
  let s := xorb (sign a) (sign b) in
  match coeff b, coeff a with
  | N0, _ => a
  | _, N0 => fix_ (mk s 0 (exp a - exp b))
  | _, _ =>
      let shift := PyStr.ndigits (coeff b) - PyStr.ndigits (coeff a) + prec + 1 in
      let e := exp a - exp b - shift in
      let (n, d) :=
        if 0 <=? shift
        then (Z.of_N (coeff a) * 10 ^ shift, Z.of_N (coeff b))
        else (Z.of_N (coeff a), Z.of_N (coeff b) * 10 ^ (- shift)) in
      let q := n / d in
      let r := n mod d in
      if r =? 0 then
        let (c', e') := strip_zeros (Z.to_nat (exp a - exp b - e)) (Z.to_N q) e in
        fix_ (mk s c' e')
      else
        fix_ (mk s (Z.to_N (if q mod 5 =? 0 then q + 1 else q)) e)
  end.

(** Comparison by value, and [a > b]. *)
Definition signed (d : t) : Z :=
  if sign d then - Z.of_N (coeff d) else Z.of_N (coeff d).

Definition compare (a b : t) : comparison :=
  let m := Z.min (exp a) (exp b) in
  signed a * 10 ^ (exp a - m) ?= signed b * 10 ^ (exp b - m).

Definition gtb (a b : t) : bool :=
  match compare a b with Gt => true | _ => false end.

(** The rational number a decimal stands for. *)
Definition to_Q (d : t) : Q := (inject_Z (signed d) * (10 # 1) ^ exp d)%Q.

(** [max(a, b)] and [max(l)]: the first of the largest. *)
Definition max2 (a b : t) : t := if gtb b a then b else a.

Definition max_list (l : list t) : option t :=
  match l with
  | [] => None
  | x :: l' => Some (fold_left max2 l' x)
  end.

(** [Decimal(s)] for a string: [None] when it raises. *)
Definition of_string (s : string) : option t :=
  let s := PyStr.remove_char "_" (PyStr.strip s) in
  let (neg, r) := PyStr.take_sign s in
  let (ip, r1) := PyStr.take_digits r in
  let (fp, r2) :=
    match r1 with
    | String "." r' => PyStr.take_digits r'
    | _ => (EmptyString, r1)
    end in
  if PyStr.nonempty ip || PyStr.nonempty fp then
    match PyStr.exponent_part PyStr.take_digits r2 with
    | Some e =>
        Some (mk neg (PyStr.digits_to_N (ip +:+ fp)) (e - Z.of_nat (String.length fp)))
    | None => None
    end
  else None.

(** A literal [Decimal("...")] of the source. *)
Definition lit (s : string) : t :=
  match of_string s with
  | Some d => d
  | None => mk false 0 0
  end.

(** [float(d)]. *)
Definition to_float (d : t) : spec_float :=
  Float.of_decimal (sign d) (coeff d) (exp d).

End Dec.


(** ** Rows of [csv.DictReader] *)

(** A row: a cell is a string, or [None] for a field its line does not
    have. *)
Abbreviation row := (gmap string (option string)).

(** [r.get(k)] and [r.get(k, "")]. *)
Definition row_get (r : row) (k : string) : option string :=
  match r !! k with
  | Some v => v
  | None => None
  end.

Definition row_get_default (r : row) (k : string) : option string :=
  match r !! k with
  | Some v => v
  | None => Some EmptyString
  end.

(** [value or ""]. *)
Definition or_empty (v : option string) : string :=
  match v with
  | Some s => s
  | None => EmptyString
  end.

(** Truth value of an optional string: [None] and [""] are false. *)
Definition truthy (v : option string) : bool := PyStr.nonempty (or_empty v).

(** * [build_mammals_csv.py] *)

Module build_mammals_csv.

Definition P_MASS : string := "P2067".
Definition P_LIFESPAN : string := "P2250".
Definition P_GESTATION : string := "P3063".
Definition P_LITTER : string := "P7725".
Definition P_SPEED : string := "P2052".

Definition Q_KG : string := "Q11570".
Definition Q_G : string := "Q41803".
Definition Q_MG : string := "Q3241121".
Definition Q_TONNE : string := "Q191118".
Definition Q_LB : string := "Q100995".

Definition Q_DAY : string := "Q573".
Definition Q_WEEK : string := "Q23387".
Definition Q_MONTH : string := "Q5151".
Definition Q_YEAR : string := "Q577".

Definition Q_MPH : string := "Q211256".
Definition Q_KMH : string := "Q180154".
Definition Q_MPS : string := "Q182429".
Definition Q_KNOT : string := "Q128822".

Definition LB_TO_KG : Dec.t := Dec.lit "0.45359237".
Definition KMH_TO_MPH : Dec.t := Dec.lit "0.621371192237334".
Definition MPS_TO_MPH : Dec.t := Dec.lit "2.2369362920544".
Definition KNOT_TO_MPH : Dec.t := Dec.lit "1.15077944802354".

Definition MAP_LIKE_IMAGE_KEYWORDS : list string :=
  ["area"; "distribution"; "locator"; "location"; "map"; "range"; "territory"].

(** The [value] of a statement's [mainsnak.datavalue], as the extractors
    tell the cases apart: a dict, of which they read the keys [amount],
    [unit] and [id] (each [None] when the dict does not have it); a string;
    or neither (also when [mainsnak], [datavalue] or [value] is missing). *)
Inductive datavalue : Type :=
  | DvNone
  | DvDict (amount unit id : option string)
  | DvStr (text : string).

(** A statement: [rank] is [s.get("rank")]. *)
Record statement : Type := Statement {
  rank : option string;
  value : datavalue
}.

#[global] Instance datavalue_eq_dec : EqDecision datavalue.
Proof. solve_decision. Defined.

#[global] Instance statement_eq_dec : EqDecision statement.
Proof. solve_decision. Defined.

(** None when [Decimal] raises. *)
Definition as_decimal (amount_str : string) : option Dec.t :=
  let s := PyStr.strip amount_str in
  let s := if PyStr.startswith "+" s then PyStr.drop 1 s else s in
  Dec.of_string s.

Definition unit_qid_from_uri (unit_uri : string) : option string :=
  if negb (PyStr.nonempty unit_uri) || String.eqb unit_uri "1" then None
  else Some (PyStr.after_last "/" unit_uri).

Definition pick_best_statements (statements : list statement) : list statement :=
  let preferred := filter (fun s => rank s = Some "preferred") statements in
  match preferred with
  | _ :: _ => preferred
  | [] =>
      let normal := filter (fun s => rank s = Some "normal") statements in
      match normal with
      | _ :: _ => normal
      | [] => filter (fun s => rank s <> Some "deprecated") statements
      end
  end.

(** An entity, as far as the extractors read it: its [claims], the
    statements of each property. *)
Abbreviation entity := (gmap string (list statement)).

Definition claims_get (e : entity) (prop : string) : list statement :=
  match e !! prop with
  | Some sts => sts
  | None => []
  end.

(** The body of the loop of [extract_quantity_claims]: what one statement
    adds to [out]. *)
Definition quantity_of (st : statement) : option (Dec.t * option string) :=
  match value st with
  | DvDict (Some amount) unit _ =>
      match as_decimal amount with
      | Some val => Some (val, unit_qid_from_uri (or_empty unit))
      | None => None
      end
  | _ => None
  end.

Definition extract_quantity_claims (e : entity) (prop : string)
  : list (Dec.t * option string) :=
  omap quantity_of (pick_best_statements (claims_get e prop)).

Definition convert_mass_to_kg (value : Dec.t) (unit_qid : option string)
  : option Dec.t :=
  if decide (unit_qid = Some Q_KG) then Some value
  else if decide (unit_qid = Some Q_G) then Some (Dec.div value (Dec.lit "1000"))
  else if decide (unit_qid = Some Q_MG) then Some (Dec.div value (Dec.lit "1000000"))
  else if decide (unit_qid = Some Q_TONNE) then Some (Dec.mul value (Dec.lit "1000"))
  else if decide (unit_qid = Some Q_LB) then Some (Dec.mul value LB_TO_KG)
  else None.

Definition convert_time_to_days (value : Dec.t) (unit_qid : option string)
  : option Dec.t :=
  if decide (unit_qid = Some Q_DAY) then Some value
  else if decide (unit_qid = Some Q_WEEK) then Some (Dec.mul value (Dec.lit "7"))
  else if decide (unit_qid = Some Q_MONTH) then Some (Dec.mul value (Dec.lit "30.4375"))
  else if decide (unit_qid = Some Q_YEAR) then Some (Dec.mul value (Dec.lit "365.25"))
  else None.

Definition convert_time_to_years (value : Dec.t) (unit_qid : option string)
  : option Dec.t :=
  if decide (unit_qid = Some Q_YEAR) then Some value
  else
    match convert_time_to_days value unit_qid with
    | None => None
    | Some days => Some (Dec.div days (Dec.lit "365.25"))
    end.

Definition convert_speed_to_mph (value : Dec.t) (unit_qid : option string)
  : option Dec.t :=
  if decide (unit_qid = Some Q_MPH) then Some value
  else if decide (unit_qid = Some Q_KMH) then Some (Dec.mul value KMH_TO_MPH)
  else if decide (unit_qid = Some Q_MPS) then Some (Dec.mul value MPS_TO_MPH)
  else if decide (unit_qid = Some Q_KNOT) then Some (Dec.mul value KNOT_TO_MPH)
  else None.

(** The list [conv] that the loops of [best_mass_kg], [best_lifespan_yr],
    [best_gestation_days] and [best_speed_mph] build. *)
Definition converted (convert : Dec.t -> option string -> option Dec.t)
    (claims : list (Dec.t * option string)) : list Dec.t :=
  omap (fun vu => convert (fst vu) (snd vu)) claims.

Definition best_mass_kg (e : entity) : option spec_float :=
  Dec.to_float <$> Dec.max_list (converted convert_mass_to_kg (extract_quantity_claims e P_MASS)).

Definition best_lifespan_yr (e : entity) : option spec_float :=
  Dec.to_float <$> Dec.max_list (converted convert_time_to_years (extract_quantity_claims e P_LIFESPAN)).

Definition best_gestation_days (e : entity) : option spec_float :=
  Dec.to_float <$> Dec.max_list (converted convert_time_to_days (extract_quantity_claims e P_GESTATION)).

Definition best_speed_mph (e : entity) : option spec_float :=
  Dec.to_float <$> Dec.max_list (converted convert_speed_to_mph (extract_quantity_claims e P_SPEED)).

(** One turn of the loop of [best_litter_size]. *)
Definition litter_step (best : option Dec.t) (vu : Dec.t * option string)
  : option Dec.t :=
  match snd vu with
  | None =>
      match best with
      | None => Some (fst vu)
      | Some b => Some (Dec.max2 b (fst vu))
      end
  | Some _ => best
  end.

Definition best_litter_size (e : entity) : option spec_float :=
  Dec.to_float <$> fold_left litter_step (extract_quantity_claims e P_LITTER) None.

(** *** Items, strings and names *)

Definition P_TAXON_NAME : string := "P225".
Definition P_CONSERVATION_STATUS : string := "P141".

Definition IMAGE_FILE_EXTENSIONS : list string :=
  [".gif"; ".jpeg"; ".jpg"; ".png"; ".tif"; ".tiff"; ".webp"].

Definition qid_from_uri (uri : string) : string := PyStr.after_last "/" uri.

(** The body of the loop of [extract_item_claim_qids]: what one statement
    adds to [out]. An [id] that is no string counts as a missing one. *)
Definition item_qid_of (st : statement) : option string :=
  match value st with
  | DvDict _ _ (Some qid) => if PyStr.nonempty qid then Some qid else None
  | _ => None
  end.

Definition extract_item_claim_qids (e : entity) (prop : string) : list string :=
  omap item_qid_of (pick_best_statements (claims_get e prop)).

(** The body of the loop of [extract_string_claims]. *)
Definition string_claim_of (st : statement) : option string :=
  match value st with
  | DvStr text =>
      let clean := PyStr.strip text in
      if PyStr.nonempty clean then Some clean else None
  | _ => None
  end.

Definition extract_string_claims (e : entity) (prop : string) : list string :=
  omap string_claim_of (pick_best_statements (claims_get e prop)).

Definition best_scientific_name (e : entity) : option string :=
  head (extract_string_claims e P_TAXON_NAME).

Definition normalize_conservation_status (label : string) : string :=
  let clean := PyStr.strip label in
  if PyStr.endswith " status" (PyStr.lower clean)
  then PyStr.strip (PyStr.take (String.length clean - 7) clean)
  else clean.

Definition has_supported_image_extension (filename : string) : bool :=
  let lower := PyStr.lower filename in
  existsb (fun ext => PyStr.endswith ext lower) IMAGE_FILE_EXTENSIONS.

(** The loop over the images of a page in
    [page_image_filenames_from_enwiki]: what one image adds to [out]. [raw]
    is [img.get("title")], [None] when that is no string. *)
Definition image_name_of (raw : option string) : option string :=
  match raw with
  | None => None
  | Some raw =>
      let name :=
        if PyStr.startswith "file:" (PyStr.lower raw) then PyStr.drop 5 raw
        else raw in
      let name := PyStr.replace_char " " "_" (PyStr.strip name) in
      if negb (PyStr.nonempty name) || negb (has_supported_image_extension name)
      then None
      else Some name
  end.

Definition page_image_names (titles : list (option string)) : list string :=
  omap image_name_of titles.

(** The [attribution] that [commons_metadata_for_filename] builds from the
    values of [Artist], [Credit] and [LicenseShortName]. *)
Definition attribution (artist credit license_short : option string)
  : option string :=
  if truthy artist && truthy license_short
  then Some (or_empty artist +:+ " / " +:+ or_empty license_short)
  else if truthy credit && truthy license_short
  then Some (or_empty credit +:+ " / " +:+ or_empty license_short)
  else if truthy license_short then license_short
  else None.

(** [parts.index(x)], [None] where it raises. *)
Fixpoint index_of (x : string) (parts : list string) : option nat :=
  match parts with
  | [] => None
  | p :: rest =>
      if String.eqb p x then Some O
      else match index_of x rest with
           | Some i => Some (S i)
           | None => None
           end
  end.

(** The [raw_name] that [filename_from_image_url] takes from the parts of
    a path, which are not empty. *)
Definition raw_name_of (parts : list string) : string :=
  match index_of "thumb" parts with
  | Some i =>
      if (i + 3 <? length parts)%nat
      then List.nth (i + 3) parts EmptyString
      else List.last parts EmptyString
  | None => List.last parts EmptyString
  end.

(** *** [_get_json]: six attempts, a throttled one is tried again

    [get k] is what the call [s.get] of attempt [k] gives; [time.sleep]
    changes no value and is left out. [r] is the response of the attempt
    before, which there is when the loop has ended. *)

Section GetJson.

Context {json : Type}.
Variable empty_dict : json.
Variable get : nat -> result (Requests.response json).

Definition throttled (r : Requests.response json) : bool :=
  (Requests.status_code r =? 429) || (Requests.status_code r =? 503).

Fixpoint get_json_from (attempt remaining : nat)
    (r : option (Requests.response json)) : result json :=
  match remaining with
  | O =>
      match r with
      | None => Ok empty_dict
      | Some r =>
          match Requests.raise_for_status r with
          | Raised e => Raised e
          | Ok _ => Ok empty_dict
          end
      end
  | S remaining' =>
      match get attempt with
      | Raised e => Raised e
      | Ok r =>
          if throttled r then get_json_from (S attempt) remaining' (Some r)
          else
            match Requests.raise_for_status r with
            | Raised e => Raised e
            | Ok _ => Requests.body r
            end
      end
  end.

Definition _get_json : result json := get_json_from 0 6 None.

End GetJson.

(** *** The image of a subject (lines 602 to 649 of [build_csv])

    [unquote] is [urllib.parse.unquote]. The three calls that go to the
    network are parameters: their answer for an argument, or the
    exception they raise. *)

Section Image.

Variable unquote : string -> string.

(** [(url, filename)]. *)
Variable lead_image_from_enwiki :
  string -> result (option string * option string).

(** [(commons_file_page, direct_image_url, license_short, attribution)]. *)
Variable commons_metadata_for_filename :
  string -> result (option string * option string * option string * option string).

Variable page_image_filenames_from_enwiki : string -> result (list string).

Definition is_map_like_image_name_or_url (value : option string) : bool :=
  match value with
  | None => false
  | Some v =>
      if PyStr.nonempty v then
        let text := PyStr.lower (unquote v) in
        let tokens := PyStr.re_split (fun c => negb (PyStr.is_lower_alnum c)) text in
        existsb
          (fun token => bool_decide (token ∈ MAP_LIKE_IMAGE_KEYWORDS))
          (List.filter PyStr.nonempty tokens)
      else false
  end.

(** The four image fields of a row. *)
Record image : Type := Image {
  image_url : option string;
  image_file_page : option string;
  image_license : option string;
  image_attribution : option string
}.

Definition no_image : image := Image None None None None.

(** The loop over [page_images]: the image it selects before its [break],
    [None] when it ends with [fallback_found] false. *)
Fixpoint scan_alternates (filename : string) (page_images : list string)
  : result (option image) :=
  match page_images with
  | [] => Ok None
  | alt_filename :: rest =>
      if String.eqb alt_filename filename then scan_alternates filename rest
      else if is_map_like_image_name_or_url (Some alt_filename)
      then scan_alternates filename rest
      else
        match commons_metadata_for_filename alt_filename with
        | Raised e => Raised e
        | Ok (alt_file_page, alt_direct_url, alt_lic, alt_attrib) =>
            if truthy alt_direct_url && truthy alt_file_page
               && negb (is_map_like_image_name_or_url alt_direct_url)
            then Ok (Some (Image alt_direct_url alt_file_page alt_lic alt_attrib))
            else scan_alternates filename rest
        end
  end.

(** The [try] block: the image fields and [skipped_map_only] after it. An
    exception leaves both as they are when it is raised. *)
Definition select_image (enwiki_title : string) (skipped_map_only : nat)
  : image * nat :=
  match lead_image_from_enwiki enwiki_title with
  | Raised _ => (no_image, skipped_map_only)
  | Ok (_, filename) =>
      if truthy filename then
        match commons_metadata_for_filename (or_empty filename) with
        | Raised _ => (no_image, skipped_map_only)
        | Ok (file_page, direct_url, lic, attrib) =>
            if truthy direct_url && truthy file_page then
              let primary := Image direct_url file_page lic attrib in
              if is_map_like_image_name_or_url filename
                 || is_map_like_image_name_or_url direct_url
              then
                match page_image_filenames_from_enwiki enwiki_title with
                | Raised _ => (primary, skipped_map_only)
                | Ok page_images =>
                    match scan_alternates (or_empty filename) page_images with
                    | Raised _ => (primary, skipped_map_only)
                    | Ok (Some alternate) => (alternate, skipped_map_only)
                    | Ok None => (no_image, S skipped_map_only)
                    end
                end
              else (primary, skipped_map_only)
            else (no_image, skipped_map_only)
        end
      else (no_image, skipped_map_only)
  end.

(** [if not image_url: skipped_no_image += 1; continue]. *)
Definition has_image (i : image) : bool := truthy (image_url i).

End Image.

(** *** The file name of an image URL

    [urlparse_path url] is [urllib.parse.urlparse(url).path], or the
    exception [urlparse] raises. *)

Section Filename.

Variable unquote : string -> string.
Variable urlparse_path : string -> result string.

Definition filename_from_image_url (url : option string) : result (option string) :=
  if negb (truthy url) then Ok None
  else
    match urlparse_path (or_empty url) with
    | Raised e => Raised e
    | Ok path =>
        if negb (PyStr.nonempty path) then Ok None
        else
          let parts := PyStr.runs (fun c => Ascii.eqb c "/") path in
          match parts with
          | [] => Ok None
          | _ =>
              let name := unquote (raw_name_of parts) in
              if negb (PyStr.nonempty name) then Ok None
              else if PyStr.startswith "file:" (PyStr.lower name)
              then Ok (Some (PyStr.drop 5 name))
              else Ok (Some name)
          end
    end.

End Filename.

(** *** The loop of [build_csv] over the candidates (lines 566 to 676)

    The requests are parameters: [wikidata_entity] gives the claims of a
    subject, [request_label] the English label of an item (what
    [wikidata_label] reads from the answer of [_get_json]),
    [pageviews_last_30d] the page views; each gives its answer or the
    exception it raises. [casefold] is [str.casefold] and [quote] is
    [urllib.parse.quote] with its [safe] argument. *)

Record Candidate : Type := mkCandidate {
  qid : string;
  label : string;
  enwiki_title : string;
  sitelinks : Z
}.

(** A row of the output, the four image fields as an [image]. *)
Record csv_row : Type := CsvRow {
  wikidata_id : string;
  common_name : string;
  scientific_name : option string;
  wikipedia_title : string;
  source_url : string;
  mass_kg : option spec_float;
  lifespan_yr : option spec_float;
  gestation_days : option spec_float;
  litter_size : option spec_float;
  max_speed_mph : option spec_float;
  conservation_status : option string;
  pageviews_30d : option Z;
  row_image : image
}.

(** What the loop carries from candidate to candidate. *)
Record build_state : Type := BuildState {
  seen : gset string;
  rows : list csv_row;
  label_cache : gmap string (option string);
  skipped_no_image : nat;
  skipped_status : nat;
  skipped_map_only : nat
}.

Section Build.

Variable unquote : string -> string.
Variable casefold : string -> string.
Variable quote : string -> string -> string.
Variable lead_image_from_enwiki :
  string -> result (option string * option string).
Variable commons_metadata_for_filename :
  string -> result (option string * option string * option string * option string).
Variable page_image_filenames_from_enwiki : string -> result (list string).
Variable wikidata_entity : string -> result entity.
Variable request_label : string -> result (option string).
Variable pageviews_last_30d : string -> result (option Z).

(** The label and the cache after the call. *)
Definition wikidata_label (qid : string) (label_cache : gmap string (option string))
  : option string * gmap string (option string) :=
  match label_cache !! qid with
  | Some cached => (cached, label_cache)
  | None =>
      match request_label qid with
      | Ok label => (label, <[qid := label]> label_cache)
      | Raised _ => (None, <[qid := None]> label_cache)
      end
  end.

Definition is_usable_conservation_status (status : option string) : bool :=
  if negb (truthy status) then false
  else negb (PyStr.startswith "data deficient"
               (casefold (PyStr.strip (or_empty status)))).

(** The loop of [best_conservation_status] over the items. *)
Fixpoint first_labelled (qids : list string)
    (label_cache : gmap string (option string))
  : option string * gmap string (option string) :=
  match qids with
  | [] => (None, label_cache)
  | qid :: rest =>
      let '(label, label_cache) := wikidata_label qid label_cache in
      if truthy label
      then (Some (normalize_conservation_status (or_empty label)), label_cache)
      else first_labelled rest label_cache
  end.

Definition best_conservation_status (e : entity)
    (label_cache : gmap string (option string))
  : option string * gmap string (option string) :=
  first_labelled (extract_item_claim_qids e P_CONSERVATION_STATUS) label_cache.

Definition wikipedia_url (title : string) : string :=
  "https://en.wikipedia.org/wiki/"
  +:+ quote (PyStr.replace_char " " "_" title) ":/()'%".

(** One turn of the loop. Once [len(rows) >= count] the loop is left, and
    the turns that would follow change nothing. *)
Definition candidate_step (count : Z) (st : build_state) (cand : Candidate)
  : build_state :=
  if count <=? Z.of_nat (length (rows st)) then st
  else if bool_decide (qid cand ∈ seen st) then st
  else
    let seen' := seen st ∪ {[qid cand]} in
    match wikidata_entity (qid cand) with
    | Raised _ =>
        BuildState seen' (rows st) (label_cache st) (skipped_no_image st)
          (skipped_status st) (skipped_map_only st)
    | Ok ent =>
        let '(status, label_cache') :=
          best_conservation_status ent (label_cache st) in
        let views_30d :=
          match pageviews_last_30d (enwiki_title cand) with
          | Ok views => views
          | Raised _ => None
          end in
        let '(img, skipped_map_only') :=
          select_image unquote lead_image_from_enwiki commons_metadata_for_filename
            page_image_filenames_from_enwiki (enwiki_title cand)
            (skipped_map_only st) in
        if negb (has_image img) then
          BuildState seen' (rows st) label_cache' (S (skipped_no_image st))
            (skipped_status st) skipped_map_only'
        else if negb (is_usable_conservation_status status) then
          BuildState seen' (rows st) label_cache' (skipped_no_image st)
            (S (skipped_status st)) skipped_map_only'
        else
          BuildState seen'
            (rows st
             ++ [CsvRow (qid cand) (label cand) (best_scientific_name ent)
                   (enwiki_title cand) (wikipedia_url (enwiki_title cand))
                   (best_mass_kg ent) (best_lifespan_yr ent)
                   (best_gestation_days ent) (best_litter_size ent)
                   (best_speed_mph ent) status views_30d img])
            label_cache' (skipped_no_image st) (skipped_status st)
            skipped_map_only'
    end.

(** The state after the loop over [pool]. *)
Definition build_rows (count : Z) (pool : list Candidate) : build_state :=
  fold_left (candidate_step count) pool (BuildState ∅ [] ∅ 0 0 0).

End Build.

End build_mammals_csv.

(** * [FillDataFromPantheria.py] *)

Module FillDataFromPantheria.

(** [-999.0]. *)
Definition MISSING_SENTINEL : spec_float := Float.of_Z (-999).

(** The items of the dict, in the order of the source. *)
Definition PANTHERIA_TO_TARGET : list (string * string) :=
  [("5-1_AdultBodyMass_g", "mass_kg");
   ("9-1_GestationLen_d", "gestation_days");
   ("15-1_LitterSize", "litter_size");
   ("17-1_MaxLongevity_m", "lifespan_yr")].

Definition normalize_name (value : option string) : string :=
  PyStr.join " " (PyStr.split (PyStr.lower (PyStr.strip (or_empty value)))).

Definition to_binomial (normalized_name : string) : string :=
  match PyStr.split normalized_name with
  | p0 :: p1 :: _ => p0 +:+ " " +:+ p1
  | _ => normalized_name
  end.

Definition parse_pantheria_number (raw : option string) : option spec_float :=
  match raw with
  | None => None
  | Some raw =>
      let raw := PyStr.strip raw in
      if negb (PyStr.nonempty raw) then None
      else
        match Float.of_string raw with
        | None => None
        | Some value => if Float.leb value MISSING_SENTINEL then None else Some value
        end
  end.

Definition format_number (value : spec_float) (decimals : nat) : string :=
  let text := Float.format_fixed value decimals in
  if PyStr.contains "." text
  then PyStr.rstrip_char "." (PyStr.rstrip_char "0" text)
  else text.

Definition convert_trait (source_column : string) (value : option spec_float)
  : result (option string) :=
  match value with
  | None => Ok None
  | Some value =>
      if String.eqb source_column "5-1_AdultBodyMass_g" then
        let mass_kg := Float.div value (Float.of_Z 1000) in
        if Float.ltb mass_kg (Float.of_Z 1)
        then Ok (Some (format_number mass_kg 3))
        else Ok (Some (format_number mass_kg 1))
      else if String.eqb source_column "9-1_GestationLen_d" then
        Ok (Some (format_number value 1))
      else if String.eqb source_column "15-1_LitterSize" then
        match Float.round value with
        | Raised e => Raised e
        | Ok r =>
            if Float.ltb (Float.abs (Float.sub value (Float.of_Z r)))
                 (Float.of_decimal false 1 (-9))
            then Ok (Some (PyStr.str_of_Z r))
            else Ok (Some (format_number value 2))
        end
      else if String.eqb source_column "17-1_MaxLongevity_m" then
        Ok (Some (format_number (Float.div value (Float.of_Z 12)) 1))
      else Ok None
  end.

(** One turn of the loop of [load_pantheria_index]. *)
Definition index_add (index : gmap string row) (r : row) : gmap string row :=
  let key := normalize_name (row_get_default r "MSW05_Binomial") in
  if PyStr.nonempty key && negb (bool_decide (is_Some (index !! key)))
  then <[key := r]> index
  else index.

(** The index of the rows that [csv.DictReader] reads from the file. *)
Definition load_pantheria_index (rows : list row) : gmap string row :=
  fold_left index_add rows ∅.

(** Lines 96 to 99 of [fill_and_filter_mammals]: the look-up of a subject. *)
Definition find_pantheria_row (index : gmap string row) (mammal_row : row)
  : option row :=
  let sci_name := normalize_name (row_get_default mammal_row "scientific_name") in
  match index !! sci_name with
  | Some pantheria_row => Some pantheria_row
  | None => index !! to_binomial sci_name
  end.

(** One turn of the loop over [PANTHERIA_TO_TARGET]: [mapped_count] and
    the row after it. *)
Definition fill_step (pantheria_row : row) (acc : result (nat * row))
    (columns : string * string) : result (nat * row) :=
  match acc with
  | Raised e => Raised e
  | Ok (mapped_count, mammal_row) =>
      let (source_col, target_col) := columns in
      let source_value := parse_pantheria_number (row_get pantheria_row source_col) in
      match convert_trait source_col source_value with
      | Raised e => Raised e
      | Ok (Some converted) =>
          Ok (S mapped_count, <[target_col := Some converted]> mammal_row)
      | Ok None =>
          Ok (mapped_count,
              <[target_col := row_get_default mammal_row target_col]> mammal_row)
      end
  end.

Definition fill_traits (pantheria_row mammal_row : row) : result (nat * row) :=
  fold_left (fill_step pantheria_row) PANTHERIA_TO_TARGET (Ok (O, mammal_row)).

Record stats : Type := Stats {
  total : nat;
  dropped_no_match : nat;
  dropped_too_sparse : nat;
  kept : nat
}.

(** One turn of the loop over the rows of the mammals file: [kept_rows]
    and [stats] after it. *)
Definition mammal_step (index : gmap string row)
    (acc : result (list row * stats)) (mammal_row : row)
  : result (list row * stats) :=
  match acc with
  | Raised e => Raised e
  | Ok (kept_rows, st) =>
      let st := Stats (S (total st)) (dropped_no_match st) (dropped_too_sparse st) (kept st) in
      match find_pantheria_row index mammal_row with
      | None =>
          Ok (kept_rows,
              Stats (total st) (S (dropped_no_match st)) (dropped_too_sparse st) (kept st))
      | Some pantheria_row =>
          match fill_traits pantheria_row mammal_row with
          | Raised e => Raised e
          | Ok (mapped_count, mammal_row) =>
              if (mapped_count <? 2)%nat then
                Ok (kept_rows,
                    Stats (total st) (dropped_no_match st) (S (dropped_too_sparse st)) (kept st))
              else Ok (kept_rows ++ [mammal_row], st)
          end
      end
  end.

(** [fieldnames] and [rows] are what [csv.DictReader] reads: the header
    ([None] without one) and the rows. *)
Definition fill_and_filter_mammals (fieldnames : list string) (rows : list row)
    (pantheria_index : gmap string row)
  : result (list string * list row * stats) :=
  match fieldnames with
  | [] => Raised ValueError
  | _ =>
      match fold_left (mammal_step pantheria_index) rows (Ok ([], Stats 0 0 0 0)) with
      | Raised e => Raised e
      | Ok (kept_rows, st) =>
          Ok (fieldnames, kept_rows,
              Stats (total st) (dropped_no_match st) (dropped_too_sparse st)
                (length kept_rows))
      end
  end.

End FillDataFromPantheria.

(** * [AddPopulationGrpSizeFromPantheria.py] *)

Module AddPopulationGrpSizeFromPantheria.

Definition normalize_name (value : option string) : string :=
  PyStr.join " " (PyStr.split (PyStr.lower (PyStr.strip (or_empty value)))).

Definition to_binomial (normalized_name : string) : string :=
  match PyStr.split normalized_name with
  | p0 :: p1 :: _ => p0 +:+ " " +:+ p1
  | _ => normalized_name
  end.

(** [-999.0]. *)
Definition MISSING_SENTINEL : spec_float := Float.of_Z (-999).


Definition parse_pantheria_number (raw : option string) : option spec_float :=
  match raw with
  | None => None
  | Some raw =>
      let raw := PyStr.strip raw in
      if negb (PyStr.nonempty raw) then None
      else
        match Float.of_string raw with
        | None => None
        | Some value => if Float.leb value MISSING_SENTINEL then None else Some value
        end
  end.

(** [round] raises on a NaN and on an infinity. *)
Definition format_number (value : spec_float) : result string :=
  match Float.round value with
  | Raised e => Raised e
  | Ok r =>
      if Float.ltb (Float.abs (Float.sub value (Float.of_Z r)))
           (Float.of_decimal false 1 (-9))
      then Ok (PyStr.str_of_Z r)
      else
        let text := Float.format_fixed value 2 in
        Ok (PyStr.rstrip_char "." (PyStr.rstrip_char "0" text))
  end.

(** One turn of the loop of [load_pantheria_index]. *)
Definition index_add (index : gmap string row) (r : row) : gmap string row :=
  let key := normalize_name (row_get_default r "MSW05_Binomial") in
  if PyStr.nonempty key && negb (bool_decide (is_Some (index !! key)))
  then <[key := r]> index
  else index.

Definition load_pantheria_index (rows : list row) : gmap string row :=
  fold_left index_add rows ∅.

Record stats : Type := Stats {
  total : nat;
  matched : nat;
  filled : nat;
  missing_trait : nat;
  no_match : nat
}.



End AddPopulationGrpSizeFromPantheria.

(** * [AddSoundFromWikipedia.py] *)

Module AddSoundFromWikipedia.

Definition AUDIO_EXTENSIONS : list string :=
  [".ogg"; ".oga"; ".opus"; ".wav"; ".flac"; ".mp3"; ".m4a"; ".aac"].

Definition PREFERRED_AUDIO_KEYWORDS : list string :=
  ["call"; "song"; "sound"; "voice"; "vocal"; "roar"; "bark"; "howl";
   "trumpet"; "echolocation"].

Definition DEPRIORITIZE_AUDIO_KEYWORDS : list string :=
  ["pronunciation"; "spoken"; "wiki"; "wikipedia"; "ll-q"].

Definition tokenize (value : string) : list string :=
  PyStr.runs (fun c => negb (PyStr.is_lower_alnum c)) (PyStr.lower value).

(** [list.sort(key=key, reverse=True)]: a stable sort, the largest key
    first; elements of equal key keep their order. *)
Fixpoint insert_desc {A : Type} (key : A -> Z) (x : A) (l : list A) : list A :=
  match l with
  | [] => [x]
  | y :: l' => if key x <? key y then y :: insert_desc key x l' else x :: l
  end.

Definition sort_desc {A : Type} (key : A -> Z) (l : list A) : list A :=
  foldr (insert_desc key) [] l.

(** *** [_get_json]: six attempts, a throttled or failed one is tried again

    [get k] is what the call [s.get] of attempt [k] gives; [time.sleep]
    changes no value and is left out. *)

Section GetJson.

Context {json : Type}.
Variable empty_dict : json.
Variable get : nat -> result (Requests.response json).

Definition throttled (r : Requests.response json) : bool :=
  (Requests.status_code r =? 429) || (Requests.status_code r =? 503).

(** The body of the [try]: [None] for [continue]. *)
Definition attempt_once (attempt : nat) : result (option json) :=
  match get attempt with
  | Raised e => Raised e
  | Ok response =>
      if throttled response then Ok None
      else
        match Requests.raise_for_status response with
        | Raised e => Raised e
        | Ok _ =>
            match Requests.body response with
            | Raised e => Raised e
            | Ok j => Ok (Some j)
            end
        end
  end.

Fixpoint get_json_from (attempt remaining : nat) (last_exc : option exn)
  : result json :=
  match remaining with
  | O =>
      match last_exc with
      | Some exc => Raised exc
      | None => Ok empty_dict
      end
  | S remaining' =>
      match attempt_once attempt with
      | Ok (Some j) => Ok j
      | Ok None => get_json_from (S attempt) remaining' last_exc
      | Raised exc =>
          if Requests.is_request_exception exc
          then get_json_from (S attempt) remaining' (Some exc)
          else Raised exc
      end
  end.

Definition _get_json : result json := get_json_from 0 6 None.

End GetJson.

Section Sound.

(** [urllib.parse.unquote], and [urllib.parse.urlparse(url).path] with the
    exception [urlparse] raises on a malformed URL. *)
Variable unquote : string -> string.
Variable urlparse_path : string -> result string.

Definition normalize_title (value : option string) : string :=
  let clean := unquote (PyStr.strip (or_empty value)) in
  if negb (PyStr.nonempty clean) then EmptyString
  else
    let clean := PyStr.replace_char "_" " " clean in
    let clean :=
      if PyStr.startswith "file:" (PyStr.lower clean) then PyStr.drop 5 clean
      else clean in
    PyStr.strip clean.

Definition normalize_file_title (file_title : string) : string :=
  let clean := normalize_title (Some file_title) in
  if negb (PyStr.nonempty clean) then EmptyString else "File:" +:+ clean.


Definition is_audio_filename (file_title : string) : bool :=
  let clean := PyStr.lower (normalize_title (Some file_title)) in
  existsb (fun ext => PyStr.endswith ext clean) AUDIO_EXTENSIONS.

Definition score_audio_candidate (file_title wiki_title scientific_name : string)
  : Z :=
  let name := PyStr.lower (normalize_title (Some file_title)) in
  let score := 0 in
  let score :=
    if existsb (fun keyword => PyStr.contains keyword name) PREFERRED_AUDIO_KEYWORDS
    then score + 5 else score in
  let score :=
    if existsb (fun keyword => PyStr.contains keyword name) DEPRIORITIZE_AUDIO_KEYWORDS
    then score - 5 else score in
  let title_tokens : gset string := list_to_set (tokenize wiki_title) in
  let scientific_tokens : gset string := list_to_set (tokenize scientific_name) in
  let name_tokens : gset string := list_to_set (tokenize name) in
  let score := score + Z.of_nat (size (title_tokens ∩ name_tokens)) in
  let score := score + Z.of_nat (size (scientific_tokens ∩ name_tokens)) in
  if PyStr.endswith ".ogg" name || PyStr.endswith ".oga" name
     || PyStr.endswith ".opus" name
  then score + 1 else score.

Definition best_audio_file_title (file_titles : list string)
    (wiki_title scientific_name : string) : string :=
  let audio_files := List.filter is_audio_filename file_titles in
  match audio_files with
  | [] => EmptyString
  | _ =>
      List.hd EmptyString
        (sort_desc
           (fun candidate => score_audio_candidate candidate wiki_title scientific_name)
           audio_files)
  end.

(** *** The look-up of a sound ([find_sound_url_for_page])

    The two requests that go to the network are parameters: the file
    titles of a page, and the pages that one API answers for a file title,
    each with its [missing] mark and its [imageinfo] list. The caches are
    passed and returned. *)

Inductive api : Type := COMMONS_API | ENWIKI_API.

Record info : Type := Info { url : option string; mime : option string }.

Record page : Type := Page { missing : bool; imageinfo : list info }.

Variable list_page_file_titles : string -> result (list string).
Variable get_imageinfo : api -> string -> result (list page).

(** The loop over the pages of one answer: the URL it returns. *)
Fixpoint audio_url_of_pages (normalized_file_title : string) (pages : list page)
  : option string :=
  match pages with
  | [] => None
  | p :: rest =>
      if missing p then audio_url_of_pages normalized_file_title rest
      else
        match imageinfo p with
        | [] => audio_url_of_pages normalized_file_title rest
        | i :: _ =>
            let u := or_empty (url i) in
            let m := PyStr.lower (or_empty (mime i)) in
            if PyStr.nonempty u
               && (PyStr.startswith "audio/" m || is_audio_filename normalized_file_title)
            then Some u
            else audio_url_of_pages normalized_file_title rest
        end
  end.

(** The loop over the two APIs. *)
Fixpoint resolve_in (apis : list api) (normalized_file_title : string)
    (file_url_cache : gmap string string) : result string * gmap string string :=
  match apis with
  | [] => (Ok EmptyString, <[normalized_file_title := EmptyString]> file_url_cache)
  | a :: rest =>
      match get_imageinfo a normalized_file_title with
      | Raised e => (Raised e, file_url_cache)
      | Ok pages =>
          match audio_url_of_pages normalized_file_title pages with
          | Some u => (Ok u, <[normalized_file_title := u]> file_url_cache)
          | None => resolve_in rest normalized_file_title file_url_cache
          end
      end
  end.

Definition resolve_audio_file_url (file_title : string)
    (file_url_cache : gmap string string) : result string * gmap string string :=
  let normalized_file_title := normalize_file_title file_title in
  if negb (PyStr.nonempty normalized_file_title) then (Ok EmptyString, file_url_cache)
  else
    match file_url_cache !! normalized_file_title with
    | Some u => (Ok u, file_url_cache)
    | None => resolve_in [COMMONS_API; ENWIKI_API] normalized_file_title file_url_cache
    end.

(** [scientific_name] is [row.get("scientific_name", "")]: with [None] the
    scoring raises, when there is a candidate to score. *)
Definition find_sound_url_for_page (wiki_title : string)
    (scientific_name : option string)
    (page_cache file_url_cache : gmap string string)
  : result string * gmap string string * gmap string string :=
  match page_cache !! wiki_title with
  | Some u => (Ok u, page_cache, file_url_cache)
  | None =>
      match list_page_file_titles wiki_title with
      | Raised e => (Raised e, page_cache, file_url_cache)
      | Ok file_titles =>
          let audio_title :=
            match scientific_name with
            | Some sci => Ok (best_audio_file_title file_titles wiki_title sci)
            | None =>
                if existsb is_audio_filename file_titles then Raised AttributeError
                else Ok EmptyString
            end in
          match audio_title with
          | Raised e => (Raised e, page_cache, file_url_cache)
          | Ok audio_title =>
              if negb (PyStr.nonempty audio_title)
              then (Ok EmptyString, <[wiki_title := EmptyString]> page_cache, file_url_cache)
              else
                match resolve_audio_file_url audio_title file_url_cache with
                | (Raised e, file_url_cache) => (Raised e, page_cache, file_url_cache)
                | (Ok sound_url, file_url_cache) =>
                    (Ok sound_url, <[wiki_title := sound_url]> page_cache, file_url_cache)
                end
          end
      end
  end.

(** *** [add_sound_column] *)

Record stats : Type := Stats {
  total : nat;
  filled : nat;
  left_blank : nat;
  missing_title : nat;
  already_had_value : nat;
  errors : nat
}.




End Sound.

End AddSoundFromWikipedia.

(** * Properties *)

(** ** Lists *)

Lemma filter_none {A} (P : A → Prop) `{!∀ x, Decision (P x)} (l : list A) :
  (∀ x, x ∈ l → ¬ P x) → filter P l = [].
Proof.
  induction l as [|x l IH]; intros Hall; [done|].
  rewrite filter_cons_False by (apply Hall; left).
  apply IH. intros y Hy. apply Hall. by right.
Qed.

(** A closed term is not in a list of closed terms that all differ from it. *)
Ltac not_in_list :=
  let Hin := fresh "Hin" in
  intros Hin;
  repeat (apply elem_of_cons in Hin as [Hin|Hin]; [cbv in Hin; discriminate Hin|]);
  by apply elem_of_nil in Hin.

(** ** Rank preference *)

Section RankPreference.

Import build_mammals_csv.

Implicit Types (statements : list statement) (s : statement).

Definition has_rank (r : string) statements : Prop :=
  ∃ s, s ∈ statements ∧ rank s = Some r.

Lemma filter_rank_nil r statements :
  filter (fun s => rank s = Some r) statements = [] ↔ ¬ has_rank r statements.
Proof.
  split.
  - intros Hnil (s & Hin & Hr).
    assert (s ∈ filter (fun s => rank s = Some r) statements) as Hs
      by (apply list_elem_of_filter; done).
    rewrite Hnil in Hs. by apply not_elem_of_nil in Hs.
  - intros Hno. apply filter_none.
    intros s Hin Hr. apply Hno. by exists s.
Qed.

Lemma filter_rank_cons r statements :
  has_rank r statements →
  ∃ s l, filter (fun s => rank s = Some r) statements = s :: l.
Proof.
  intros H. destruct (filter _ statements) as [|s l] eqn:E; [|by eauto].
  exfalso. by apply filter_rank_nil in E.
Qed.

Lemma pick_preferred statements :
  has_rank "preferred" statements →
  pick_best_statements statements
  = filter (fun s => rank s = Some "preferred") statements.
Proof.
  intros H. unfold pick_best_statements.
  destruct (filter_rank_cons _ _ H) as (s & l & ->). done.
Qed.

Lemma pick_normal statements :
  ¬ has_rank "preferred" statements →
  has_rank "normal" statements →
  pick_best_statements statements
  = filter (fun s => rank s = Some "normal") statements.
Proof.
  intros Hp Hn. unfold pick_best_statements.
  apply filter_rank_nil in Hp. rewrite Hp.
  destruct (filter_rank_cons _ _ Hn) as (s & l & ->). done.
Qed.

Lemma pick_rest statements :
  ¬ has_rank "preferred" statements →
  ¬ has_rank "normal" statements →
  pick_best_statements statements
  = filter (fun s => rank s ≠ Some "deprecated") statements.
Proof.
  intros Hp Hn. unfold pick_best_statements.
  apply filter_rank_nil in Hp, Hn. by rewrite Hp, Hn.
Qed.

(** C1. [pick_best_statements] returns exactly the statements of rank
    "preferred" when there is one; otherwise exactly those of rank "normal"
    when there is one; otherwise every statement whose rank is not
    "deprecated". A list of deprecated statements only gives the empty
    list. *)
Theorem pick_best_statements_rank_preference statements :
  (has_rank "preferred" statements →
   pick_best_statements statements
   = filter (fun s => rank s = Some "preferred") statements)
  ∧ (¬ has_rank "preferred" statements → has_rank "normal" statements →
     pick_best_statements statements
     = filter (fun s => rank s = Some "normal") statements)
  ∧ (¬ has_rank "preferred" statements → ¬ has_rank "normal" statements →
     pick_best_statements statements
     = filter (fun s => rank s ≠ Some "deprecated") statements)
  ∧ ((∀ s, s ∈ statements → rank s = Some "deprecated") →
     pick_best_statements statements = []).
Proof.
  split; [apply pick_preferred|].
  split; [apply pick_normal|].
  split; [apply pick_rest|].
  intros Hall.
  assert (∀ r, r ≠ "deprecated" → ¬ has_rank r statements) as Hno.
  { intros r Hr (s & Hin & Hs). apply Hall in Hin. congruence. }
  rewrite pick_rest by (apply Hno; discriminate).
  apply filter_none. intros s Hin Hs. by apply Hs, Hall.
Qed.

End RankPreference.

Lemma pick_best_statements_rank_preference_witness :
  build_mammals_csv.pick_best_statements
    [build_mammals_csv.Statement (Some "normal") build_mammals_csv.DvNone;
     build_mammals_csv.Statement (Some "preferred") build_mammals_csv.DvNone;
     build_mammals_csv.Statement (Some "deprecated") build_mammals_csv.DvNone]
  = [build_mammals_csv.Statement (Some "preferred") build_mammals_csv.DvNone]
  ∧ build_mammals_csv.pick_best_statements
      [build_mammals_csv.Statement (Some "normal") build_mammals_csv.DvNone;
       build_mammals_csv.Statement (Some "deprecated") build_mammals_csv.DvNone]
    = [build_mammals_csv.Statement (Some "normal") build_mammals_csv.DvNone]
  ∧ build_mammals_csv.pick_best_statements
      [build_mammals_csv.Statement (Some "deprecated") build_mammals_csv.DvNone]
    = [].
Proof.
  split; [|split].
  - rewrite (proj1 (pick_best_statements_rank_preference _)); [reflexivity|].
    eexists. split; [right; left|reflexivity].
  - rewrite (proj1 (proj2 (pick_best_statements_rank_preference _))); [reflexivity| |].
    + intros (s & Hin & Hr).
      repeat (apply elem_of_cons in Hin as [->|Hin]; [discriminate|]).
      by apply elem_of_nil in Hin.
    + eexists. split; [left|reflexivity].
  - apply (proj2 (proj2 (proj2 (pick_best_statements_rank_preference _)))).
    intros s Hin. apply list_elem_of_singleton in Hin as ->. reflexivity.
Defined.

(** ** Strings: runs, joins and strips *)

Section StringFacts.

Import PyStr.

(** Every character of a string satisfies [P]. *)
Fixpoint all_chars (P : ascii -> bool) (s : string) : bool :=
  match s with
  | EmptyString => true
  | String c s' => P c && all_chars P s'
  end.

(** A word for the delimiters [delim]: not empty, no delimiter in it. *)
Definition word (delim : ascii -> bool) (w : string) : Prop :=
  w ≠ EmptyString ∧ all_chars (fun c => negb (delim c)) w = true.

Lemma all_chars_app P s t :
  all_chars P (s +:+ t) = all_chars P s && all_chars P t.
Proof.
  induction s as [|c s IH]; simpl; [done|].
  change (String c s +:+ t) with (String c (s +:+ t)). simpl.
  by rewrite IH, andb_assoc.
Qed.

Lemma app_empty_r s : s +:+ EmptyString = s.
Proof.
  induction s as [|c s IH]; [done|].
  change (String c s +:+ EmptyString) with (String c (s +:+ EmptyString)).
  by f_equal.
Qed.

Lemma runs_delim delim c s :
  delim c = true → runs delim (String c s) = runs delim s.
Proof. intros H. simpl. by rewrite H. Qed.

Lemma runs_start delim c s :
  delim c = false →
  runs delim (String c s) =
  match s with
  | EmptyString => [String c EmptyString]
  | String c' _ =>
      if delim c' then String c EmptyString :: runs delim s
      else match runs delim s with
           | w :: ws => String c w :: ws
           | [] => [String c EmptyString]
           end
  end.
Proof. intros H. simpl. by rewrite H. Qed.

(** What [runs] gives: words; made of characters of the string; and the
    first of them starts where the string does, when that is no
    delimiter. *)
Lemma runs_spec delim s :
  Forall (word delim) (runs delim s)
  ∧ (∀ P, all_chars P s = true →
          Forall (fun w => all_chars P w = true) (runs delim s))
  ∧ (∀ c s', s = String c s' → delim c = false →
             ∃ w ws, runs delim s = String c w :: ws).
Proof.
  induction s as [|c s (IHw & IHp & IHs)].
  { split; [|split]; [constructor|constructor|discriminate]. }
  destruct (delim c) eqn:Hc.
  { rewrite runs_delim by done. split; [|split]; [done| |congruence].
    intros P HP. simpl in HP. apply andb_prop in HP as [_ HP]. auto. }
  assert (word delim (String c EmptyString)) as Hword.
  { split; [done|]. simpl. by rewrite Hc. }
  rewrite runs_start by done.
  destruct s as [|c' s'].
  { split; [|split]; [by apply Forall_singleton| |by intros ? ? [= <- <-] _; eauto].
    intros P HP. by apply Forall_singleton. }
  destruct (delim c') eqn:Hc'.
  { split; [|split]; [by apply Forall_cons| |by intros ? ? [= <- <-] _; eauto].
    intros P HP. simpl in HP. apply andb_prop in HP as [HPc HP].
    constructor; [simpl; by rewrite HPc|]. by apply IHp. }
  destruct (IHs c' s' eq_refl Hc') as (w & ws & Hr). rewrite Hr in *.
  split; [|split].
  - inversion IHw as [|? ? [_ Hw] Hws]; subst.
    constructor; [|done]. split; [done|]. simpl in *. by rewrite Hc, Hw.
  - intros P HP. simpl in HP. apply andb_prop in HP as [HPc HP].
    specialize (IHp P HP). inversion IHp as [|? ? Hw Hws]; subst.
    constructor; [|done]. simpl in *. by rewrite HPc, Hw.
  - intros ? ? [= <- <-] _. eauto.
Qed.

Lemma runs_words delim s : Forall (word delim) (runs delim s).
Proof. apply runs_spec. Qed.

Lemma runs_all_chars P delim s :
  all_chars P s = true → Forall (fun w => all_chars P w = true) (runs delim s).
Proof. apply runs_spec. Qed.

(** A word followed by nothing, or by a delimiter, is the first run. *)
Lemma runs_word_app delim w t :
  word delim w →
  from_option delim true (first_char t) = true →
  runs delim (w +:+ t) = w :: runs delim t.
Proof.
  intros [Hne Hw] Ht. induction w as [|c w IH]; [done|]. clear Hne.
  simpl in Hw. apply andb_prop in Hw as [Hc Hw]. apply negb_true_iff in Hc.
  change (String c w +:+ t) with (String c (w +:+ t)).
  rewrite runs_start by done.
  destruct w as [|b w'].
  - change (EmptyString +:+ t) with t.
    destruct t as [|c' t']; [done|]. simpl in Ht. by rewrite Ht.
  - change (String b w' +:+ t) with (String b (w' +:+ t)) in *.
    pose proof Hw as Hw'. simpl in Hw'. apply andb_prop in Hw' as [Hb _].
    apply negb_true_iff in Hb. rewrite Hb.
    rewrite IH by done. done.
Qed.

(** Splitting what was joined by a delimiter gives the words back. *)
Lemma runs_join delim sep ws :
  delim sep = true →
  Forall (word delim) ws →
  runs delim (join (String sep EmptyString) ws) = ws.
Proof.
  intros Hsep. induction 1 as [|w ws Hw Hws IH]; [done|].
  destruct ws as [|w' ws'].
  - pose proof (runs_word_app delim w EmptyString Hw eq_refl) as Happ.
    rewrite app_empty_r in Happ. done.
  - change (join (String sep EmptyString) (w :: w' :: ws'))
      with (w +:+ String sep EmptyString +:+ join (String sep EmptyString) (w' :: ws')).
    rewrite runs_word_app; [|done|by simpl].
    change (String sep EmptyString +:+ ?x) with (String sep x).
    rewrite runs_delim by done. by rewrite IH.
Qed.

Lemma first_char_app s t :
  first_char (s +:+ t) = match first_char s with
                         | Some c => Some c
                         | None => first_char t
                         end.
Proof. by destruct s. Qed.

Lemma last_char_cons a s : ∃ c, last_char (String a s) = Some c.
Proof.
  revert a. induction s as [|b s IH]; intros a; [by exists a|].
  destruct (IH b) as (c & Hc). exists c.
  by change (last_char (String a (String b s))) with (last_char (String b s)).
Qed.

Lemma last_char_app s t :
  last_char (s +:+ t) = match last_char t with
                        | Some c => Some c
                        | None => last_char s
                        end.
Proof.
  induction s as [|c s IH].
  - change (EmptyString +:+ t) with t. by destruct (last_char t).
  - change (String c s +:+ t) with (String c (s +:+ t)).
    destruct s as [|b s'].
    + change (EmptyString +:+ t) with t in *.
      destruct t as [|a t']; [done|].
      change (last_char (String c (String a t'))) with (last_char (String a t')).
      by destruct (last_char_cons a t') as (d & ->).
    + change (String b s' +:+ t) with (String b (s' +:+ t)) in *.
      change (last_char (String c (String b (s' +:+ t))))
        with (last_char (String b (s' +:+ t))).
      rewrite IH. done.
Qed.

Lemma all_chars_last P s c :
  all_chars P s = true → last_char s = Some c → P c = true.
Proof.
  induction s as [|a s IH]; [done|].
  intros [Ha Hs]%andb_prop. destruct s as [|b s']; [by intros [= <-]|].
  change (last_char (String a (String b s'))) with (last_char (String b s')).
  auto.
Qed.

Lemma word_first delim w :
  word delim w → ∃ c, first_char w = Some c ∧ delim c = false.
Proof.
  intros [Hne Hw]. destruct w as [|c w]; [done|].
  exists c. split; [done|]. simpl in Hw.
  apply andb_prop in Hw as [Hc _]. by apply negb_true_iff.
Qed.

Lemma word_last delim w :
  word delim w → ∃ c, last_char w = Some c ∧ delim c = false.
Proof.
  intros [Hne Hw]. destruct (last_char w) as [c|] eqn:Hl.
  - exists c. split; [done|].
    apply negb_true_iff.
    by apply (all_chars_last (fun c => negb (delim c)) w).
  - destruct w as [|a w]; [done|].
    destruct (last_char_cons a w) as (d & Hd). congruence.
Qed.

(** A join of words starts and ends with a character that is no
    delimiter. *)
Lemma join_first delim sep w ws :
  word delim w →
  ∃ c, first_char (join sep (w :: ws)) = Some c ∧ delim c = false.
Proof.
  intros Hw. destruct (word_first _ _ Hw) as (c & Hc & Hdc).
  exists c. split; [|done].
  destruct ws as [|w' ws']; [done|].
  change (join sep (w :: w' :: ws')) with (w +:+ sep +:+ join sep (w' :: ws')).
  by rewrite first_char_app, Hc.
Qed.

Lemma join_last delim sep w ws :
  Forall (word delim) (w :: ws) →
  ∃ c, last_char (join sep (w :: ws)) = Some c ∧ delim c = false.
Proof.
  revert w. induction ws as [|w' ws' IH]; intros w Hall.
  - apply word_last. by apply Forall_inv in Hall.
  - change (join sep (w :: w' :: ws')) with (w +:+ sep +:+ join sep (w' :: ws')).
    destruct (IH w') as (c & Hc & Hdc); [by apply Forall_inv_tail in Hall|].
    exists c. split; [|done]. by rewrite !last_char_app, Hc.
Qed.

Lemma lstrip_id s :
  from_option isspace false (first_char s) = false → lstrip s = s.
Proof. destruct s as [|c s]; [done|]. simpl. by intros ->. Qed.

Lemma rstrip_id s :
  from_option isspace false (last_char s) = false → rstrip s = s.
Proof.
  induction s as [|c s IH]; [done|].
  destruct s as [|b s'].
  - simpl. by intros ->.
  - change (last_char (String c (String b s'))) with (last_char (String b s')).
    intros H. specialize (IH H).
    change (rstrip (String c (String b s')))
      with (match rstrip (String b s') with
            | EmptyString => if isspace c then EmptyString else String c EmptyString
            | r => String c r
            end).
    by rewrite IH.
Qed.

(** Stripping a join of words changes nothing. *)
Lemma strip_join ws :
  Forall (word isspace) ws → strip (join " " ws) = join " " ws.
Proof.
  intros Hall. destruct ws as [|w ws]; [done|].
  destruct (join_first isspace " " w ws) as (c & Hc & Hdc);
    [by apply Forall_inv in Hall|].
  destruct (join_last isspace " " w ws Hall) as (c' & Hc' & Hdc').
  unfold strip. rewrite lstrip_id by (by rewrite Hc).
  apply rstrip_id. by rewrite Hc'.
Qed.

Lemma lower_char_idem c : lower_char (lower_char c) = lower_char c.
Proof. by destruct c as [[] [] [] [] [] [] [] []]. Qed.

Definition lowered (c : ascii) : bool := Ascii.eqb (lower_char c) c.

Lemma lower_lowered s : all_chars lowered (lower s) = true.
Proof.
  induction s as [|c s IH]; [done|]. simpl. rewrite IH, andb_true_r.
  unfold lowered. rewrite lower_char_idem. apply Ascii.eqb_refl.
Qed.

Lemma lower_id s : all_chars lowered s = true → lower s = s.
Proof.
  induction s as [|c s IH]; [done|].
  intros [Hc Hs]%andb_prop. simpl. rewrite IH by done.
  apply Ascii.eqb_eq in Hc. by rewrite Hc.
Qed.

Lemma all_chars_join P sep ws :
  all_chars P sep = true →
  Forall (fun w => all_chars P w = true) ws →
  all_chars P (join sep ws) = true.
Proof.
  intros Hsep. induction 1 as [|w ws Hw Hws IH]; [done|].
  destruct ws as [|w' ws']; [done|].
  change (join sep (w :: w' :: ws')) with (w +:+ sep +:+ join sep (w' :: ws')).
  by rewrite !all_chars_app, Hw, Hsep, IH.
Qed.

(** The composition that both [normalize_name] are: joining the words of
    the lowered, stripped string. Applying it twice is applying it once. *)
Lemma join_split_lower_strip_idem s :
  let n := join " " (split (lower (strip s))) in
  join " " (split (lower (strip n))) = n.
Proof.
  intros n. subst n. unfold split.
  set (ws := runs isspace (lower (strip s))).
  assert (Forall (word isspace) ws) as Hwords by apply runs_words.
  assert (Forall (fun w => all_chars lowered w = true) ws) as Hlow
    by apply runs_all_chars, lower_lowered.
  rewrite strip_join by done.
  rewrite lower_id by (by apply all_chars_join).
  by rewrite (runs_join isspace " ").
Qed.

End StringFacts.

(** ** Name normalisation *)

(** C9. Normalising a normalised name changes nothing, for the
    [normalize_name] of both scripts and every input (a missing value
    included). *)
Theorem normalize_name_idempotent (x : option string) :
  FillDataFromPantheria.normalize_name
    (Some (FillDataFromPantheria.normalize_name x))
  = FillDataFromPantheria.normalize_name x
  ∧ AddPopulationGrpSizeFromPantheria.normalize_name
      (Some (AddPopulationGrpSizeFromPantheria.normalize_name x))
    = AddPopulationGrpSizeFromPantheria.normalize_name x.
Proof.
  split; apply join_split_lower_strip_idem.
Qed.

(** ** Cross-source matching *)

Section Matching.

Import FillDataFromPantheria.

(** The key under which a row of the legacy file is indexed. *)
Definition index_key (r : row) : string :=
  normalize_name (row_get_default r "MSW05_Binomial").

(** The first row of [rows] whose key is [k]. *)
Definition first_with_key (k : string) (rows : list row) : option row :=
  head (filter (fun r => index_key r = k) rows).

Lemma nonempty_true s : PyStr.nonempty s = true ↔ s ≠ EmptyString.
Proof. destruct s; simpl; split; congruence. Qed.

Lemma index_add_lookup index r k :
  index_add index r !! k =
  match index !! k with
  | Some r' => Some r'
  | None => if decide (index_key r = k ∧ k ≠ EmptyString) then Some r else None
  end.
Proof.
  unfold index_add. cbv zeta.
  change (normalize_name (row_get_default r "MSW05_Binomial")) with (index_key r).
  destruct (PyStr.nonempty (index_key r)) eqn:Hne; simpl.
  - apply nonempty_true in Hne.
    case_bool_decide as Hin; simpl.
    + destruct (decide (index_key r = k)) as [<-|Hk].
      * destruct Hin as [r' ->]. done.
      * destruct (index !! k); [done|]. by rewrite decide_False by tauto.
    + destruct (decide (index_key r = k)) as [<-|Hk].
      * rewrite lookup_insert_eq.
        destruct (index !! index_key r) eqn:E; [by destruct Hin; eauto|].
        by rewrite decide_True.
      * rewrite lookup_insert_ne by done.
        destruct (index !! k); [done|]. by rewrite decide_False by tauto.
  - destruct (index !! k); [done|].
    rewrite decide_False; [done|]. intros [E Hk].
    rewrite E in Hne. apply nonempty_true in Hk. congruence.
Qed.

Lemma fold_index_add_lookup rows index k :
  fold_left index_add rows index !! k =
  match index !! k with
  | Some r => Some r
  | None => if decide (k = EmptyString) then None else first_with_key k rows
  end.
Proof.
  revert index. induction rows as [|r rows IH]; intros index; simpl.
  - destruct (index !! k); [done|]. by destruct (decide _).
  - rewrite IH, index_add_lookup. destruct (index !! k); [done|].
    unfold first_with_key. rewrite filter_cons.
    destruct (decide (index_key r = k)) as [Hk|Hk].
    + destruct (decide (k = EmptyString)) as [->|Hne].
      * by rewrite decide_False by tauto.
      * by rewrite decide_True.
    + by rewrite decide_False by tauto.
Qed.

(** C4. The look-up of a subject tries the normalised name and, on a miss,
    its binomial reduction, and depends on no other key of the index. The
    binomial reduction is the first two words joined by one space when the
    name has two words or more, the name itself otherwise. In the index a key
    that is not empty holds the first row of the file with that key, and the
    empty key holds none. *)
Theorem species_matching (index : gmap string row) (mammal_row : row)
    (rows : list row) (name key : string) :
  let sci_name := normalize_name (row_get_default mammal_row "scientific_name") in
  (find_pantheria_row index mammal_row =
   match index !! sci_name with
   | Some r => Some r
   | None => index !! to_binomial sci_name
   end)
  ∧ (∀ index' : gmap string row,
       index' !! sci_name = index !! sci_name →
       index' !! to_binomial sci_name = index !! to_binomial sci_name →
       find_pantheria_row index' mammal_row = find_pantheria_row index mammal_row)
  ∧ (∀ p0 p1 rest, PyStr.split name = p0 :: p1 :: rest →
       to_binomial name = p0 +:+ " " +:+ p1)
  ∧ ((length (PyStr.split name) < 2)%nat → to_binomial name = name)
  ∧ load_pantheria_index rows !! key =
    (if decide (key = EmptyString) then None else first_with_key key rows).
Proof.
  intros sci_name. split; [done|]. split; [|split; [|split]].
  - intros index' H1 H2. unfold find_pantheria_row. fold sci_name.
    by rewrite H1, H2.
  - intros p0 p1 rest H. unfold to_binomial. by rewrite H.
  - intros H. unfold to_binomial.
    destruct (PyStr.split name) as [|p0 [|p1 rest]]; [done|done|].
    simpl in H. lia.
  - unfold load_pantheria_index. rewrite fold_index_add_lookup.
    by rewrite lookup_empty.
Qed.

End Matching.

(** Three rows of a legacy file: two of the same key, and one of an empty
    key; and a subject named by a trinomial. *)
Definition lion_row_1 : row :=
  <["MSW05_Binomial" := Some "Panthera leo"]> (<["5-1_AdultBodyMass_g" := Some "158623.93"]> ∅).

Definition lion_row_2 : row :=
  <["MSW05_Binomial" := Some " panthera  LEO "]> (<["5-1_AdultBodyMass_g" := Some "1"]> ∅).

Definition blank_row : row :=
  <["MSW05_Binomial" := Some "  "]> ∅.

Definition lion_subject : row :=
  <["scientific_name" := Some "Panthera leo  persica"]> ∅.

Lemma species_matching_witness :
  FillDataFromPantheria.find_pantheria_row
    (FillDataFromPantheria.load_pantheria_index [blank_row; lion_row_1; lion_row_2])
    lion_subject = Some lion_row_1
  ∧ FillDataFromPantheria.find_pantheria_row
      (<["panthera leo" := lion_row_2]> ∅) lion_subject
    = FillDataFromPantheria.find_pantheria_row
        (<["panthera leo" := lion_row_2]> (<["leo" := lion_row_1]> ∅)) lion_subject
  ∧ FillDataFromPantheria.to_binomial "panthera leo persica" = "panthera leo"
  ∧ FillDataFromPantheria.to_binomial "panthera" = "panthera"
  ∧ FillDataFromPantheria.load_pantheria_index [blank_row; lion_row_1; lion_row_2]
    !! "panthera leo" = Some lion_row_1
  ∧ FillDataFromPantheria.load_pantheria_index [blank_row; lion_row_1; lion_row_2]
    !! "" = None.
Proof.
  pose proof (species_matching
                (FillDataFromPantheria.load_pantheria_index
                   [blank_row; lion_row_1; lion_row_2])
                lion_subject [blank_row; lion_row_1; lion_row_2]
                "panthera leo persica" "panthera leo") as (H1 & _ & H3 & _ & H5).
  pose proof (species_matching
                (<["panthera leo" := lion_row_2]> (<["leo" := lion_row_1]> ∅))
                lion_subject [blank_row; lion_row_1; lion_row_2]
                "panthera" "") as (_ & H2 & _ & H4 & H6).
  split; [|split; [|split; [|split; [|split]]]].
  - rewrite H1. vm_compute. reflexivity.
  - apply H2; vm_compute; reflexivity.
  - apply (H3 "panthera" "leo" ["persica"]). vm_compute. reflexivity.
  - apply H4. vm_compute. lia.
  - rewrite H5. vm_compute. reflexivity.
  - rewrite H6. reflexivity.
Defined.

(** ** Decimal numbers: order and exact products *)

Section DecimalFacts.

Local Open Scope Q_scope.








(** A product that fits the precision is exact. *)
Lemma mul_exact (a b : Dec.t) :
  (PyStr.ndigits (Dec.coeff a * Dec.coeff b) <= Dec.prec)%Z →
  Dec.to_Q (Dec.mul a b) == Dec.to_Q a * Dec.to_Q b.
Proof.
  intros Hfit. unfold Dec.mul, Dec.fix_. cbn [Dec.coeff].
  apply Z.leb_le in Hfit. rewrite Hfit.
  unfold Dec.to_Q. cbn [Dec.exp].
  rewrite Qpower_plus by discriminate.
  assert (inject_Z (Dec.signed (Dec.mk (xorb (Dec.sign a) (Dec.sign b))
                                  (Dec.coeff a * Dec.coeff b)
                                  (Dec.exp a + Dec.exp b)))
          == inject_Z (Dec.signed a) * inject_Z (Dec.signed b)) as ->.
  { rewrite <- inject_Z_mult. unfold Dec.signed. cbn [Dec.sign Dec.coeff].
    rewrite N2Z.inj_mul.
    destruct (Dec.sign a), (Dec.sign b); simpl; f_equiv; lia. }
  ring.
Qed.

End DecimalFacts.

(** ** Unit conversion *)

Section Conversion.

Import build_mammals_csv.

Lemma convert_mass_other value unit_qid :
  unit_qid ∉ [Some Q_KG; Some Q_G; Some Q_MG; Some Q_TONNE; Some Q_LB] →
  convert_mass_to_kg value unit_qid = None.
Proof.
  intros H. unfold convert_mass_to_kg.
  repeat (case_decide as E; [exfalso; apply H; rewrite E; set_solver|clear E]). done.
Qed.

Lemma convert_days_other value unit_qid :
  unit_qid ∉ [Some Q_DAY; Some Q_WEEK; Some Q_MONTH; Some Q_YEAR] →
  convert_time_to_days value unit_qid = None.
Proof.
  intros H. unfold convert_time_to_days.
  repeat (case_decide as E; [exfalso; apply H; rewrite E; set_solver|clear E]). done.
Qed.

Lemma convert_speed_other value unit_qid :
  unit_qid ∉ [Some Q_MPH; Some Q_KMH; Some Q_MPS; Some Q_KNOT] →
  convert_speed_to_mph value unit_qid = None.
Proof.
  intros H. unfold convert_speed_to_mph.
  repeat (case_decide as E; [exfalso; apply H; rewrite E; set_solver|clear E]). done.
Qed.

Lemma convert_years_other value unit_qid :
  unit_qid ≠ Some Q_YEAR →
  convert_time_to_years value unit_qid =
  (fun days => Dec.div days (Dec.mk false 36525 (-2)))
    <$> convert_time_to_days value unit_qid.
Proof.
  intros H. unfold convert_time_to_years. rewrite decide_False by done.
  by destruct (convert_time_to_days value unit_qid).
Qed.

(** C3. Each converter is defined on every value and unit: it gives the
    value for the canonical unit, the value divided or multiplied by the
    unit's constant for the other units it knows, and no value ([None]) for
    any other unit, a missing one included. 1000 g are 1 kg, 1 year is
    365.25 days and 1 knot is 1.15077944802354 mph, and as floats 1.0,
    365.25 and 1.15077944802354. *)
Theorem unit_conversion (value : Dec.t) (unit_qid : option string) :
  (convert_mass_to_kg value (Some Q_KG) = Some value
   ∧ convert_mass_to_kg value (Some Q_G) = Some (Dec.div value (Dec.mk false 1000 0))
   ∧ convert_mass_to_kg value (Some Q_MG) = Some (Dec.div value (Dec.mk false 1000000 0))
   ∧ convert_mass_to_kg value (Some Q_TONNE) = Some (Dec.mul value (Dec.mk false 1000 0))
   ∧ convert_mass_to_kg value (Some Q_LB) = Some (Dec.mul value (Dec.mk false 45359237 (-8)))
   ∧ (unit_qid ∉ [Some Q_KG; Some Q_G; Some Q_MG; Some Q_TONNE; Some Q_LB] →
      convert_mass_to_kg value unit_qid = None))
  ∧ (convert_time_to_days value (Some Q_DAY) = Some value
     ∧ convert_time_to_days value (Some Q_WEEK) = Some (Dec.mul value (Dec.mk false 7 0))
     ∧ convert_time_to_days value (Some Q_MONTH) = Some (Dec.mul value (Dec.mk false 304375 (-4)))
     ∧ convert_time_to_days value (Some Q_YEAR) = Some (Dec.mul value (Dec.mk false 36525 (-2)))
     ∧ (unit_qid ∉ [Some Q_DAY; Some Q_WEEK; Some Q_MONTH; Some Q_YEAR] →
        convert_time_to_days value unit_qid = None))
  ∧ (convert_time_to_years value (Some Q_YEAR) = Some value
     ∧ (unit_qid ≠ Some Q_YEAR →
        convert_time_to_years value unit_qid =
        (fun days => Dec.div days (Dec.mk false 36525 (-2)))
          <$> convert_time_to_days value unit_qid))
  ∧ (convert_speed_to_mph value (Some Q_MPH) = Some value
     ∧ convert_speed_to_mph value (Some Q_KMH)
       = Some (Dec.mul value (Dec.mk false 621371192237334 (-15)))
     ∧ convert_speed_to_mph value (Some Q_MPS)
       = Some (Dec.mul value (Dec.mk false 22369362920544 (-13)))
     ∧ convert_speed_to_mph value (Some Q_KNOT)
       = Some (Dec.mul value (Dec.mk false 115077944802354 (-14)))
     ∧ (unit_qid ∉ [Some Q_MPH; Some Q_KMH; Some Q_MPS; Some Q_KNOT] →
        convert_speed_to_mph value unit_qid = None))
  ∧ (convert_mass_to_kg (Dec.mk false 1000 0) (Some Q_G) = Some (Dec.mk false 1 0)
     ∧ Dec.to_float (Dec.mk false 1 0) = Float.of_Z 1
     ∧ convert_time_to_days (Dec.mk false 1 0) (Some Q_YEAR) = Some (Dec.mk false 36525 (-2))
     ∧ Dec.to_float (Dec.mk false 36525 (-2)) = Float.div (Float.of_Z 36525) (Float.of_Z 100)
     ∧ convert_speed_to_mph (Dec.mk false 1 0) (Some Q_KNOT)
       = Some (Dec.mk false 115077944802354 (-14))
     ∧ Dec.to_float (Dec.mk false 115077944802354 (-14))
       = Float.div (Float.of_Z 115077944802354) (Float.of_Z 100000000000000)).
Proof.
  split; [|split; [|split; [|split]]].
  - repeat (split; [reflexivity|]). apply convert_mass_other.
  - repeat (split; [reflexivity|]). apply convert_days_other.
  - split; [reflexivity|]. apply convert_years_other.
  - repeat (split; [reflexivity|]). apply convert_speed_other.
  - repeat split; vm_compute; reflexivity.
Qed.

End Conversion.

Lemma unit_conversion_witness :
  build_mammals_csv.convert_mass_to_kg (Dec.mk false 5 0) (Some "Q573") = None
  ∧ build_mammals_csv.convert_time_to_days (Dec.mk false 5 0) None = None
  ∧ build_mammals_csv.convert_time_to_years (Dec.mk false 6 0) (Some "Q5151")
    = Some (Dec.mk false 50 (-2))
  ∧ build_mammals_csv.convert_speed_to_mph (Dec.mk false 5 0) (Some "Q11570") = None.
Proof.
  pose proof (unit_conversion (Dec.mk false 5 0) (Some "Q573")) as ((_ & _ & _ & _ & _ & H1) & _).
  pose proof (unit_conversion (Dec.mk false 5 0) None) as (_ & (_ & _ & _ & _ & H2) & _).
  pose proof (unit_conversion (Dec.mk false 6 0) (Some "Q5151")) as (_ & _ & (_ & H3) & _).
  pose proof (unit_conversion (Dec.mk false 5 0) (Some "Q11570")) as (_ & _ & _ & (_ & _ & _ & _ & H4) & _).
  split; [|split; [|split]].
  - apply H1. not_in_list.
  - apply H2. not_in_list.
  - rewrite H3 by discriminate. vm_compute. reflexivity.
  - apply H4. not_in_list.
Defined.

(** ** Aggregation of a trait *)

Section Aggregation.

Import build_mammals_csv.











End Aggregation.

(** ** The stable sort, largest key first *)

Section SortDesc.

Import AddSoundFromWikipedia.

Context {A : Type} (key : A → Z).

Lemma insert_desc_perm (x : A) (l : list A) : insert_desc key x l ≡ₚ x :: l.
Proof.
  induction l as [|y l IH]; [done|]. simpl.
  destruct (key x <? key y); [|done].
  rewrite IH. apply Permutation_swap.
Qed.

Lemma sort_desc_perm (l : list A) : sort_desc key l ≡ₚ l.
Proof.
  induction l as [|x l IH]; [done|].
  change (sort_desc key (x :: l)) with (insert_desc key x (sort_desc key l)).
  by rewrite insert_desc_perm, IH.
Qed.

Lemma insert_desc_sorted (x : A) (l : list A) :
  StronglySorted (fun a b => key b <= key a) l →
  StronglySorted (fun a b => key b <= key a) (insert_desc key x l).
Proof.
  induction 1 as [|y l Hl IH Hy]; simpl.
  - repeat constructor.
  - destruct (key x <? key y) eqn:E.
    + apply Z.ltb_lt in E. constructor; [done|].
      apply Forall_forall. intros z Hz.
      rewrite insert_desc_perm in Hz.
      apply elem_of_cons in Hz as [->|Hz]; [lia|].
      rewrite Forall_forall in Hy. by apply Hy.
    + apply Z.ltb_ge in E. constructor; [by constructor|].
      constructor; [done|].
      eapply Forall_impl; [exact Hy|]. simpl. intros. lia.
Qed.

Lemma sort_desc_sorted (l : list A) :
  StronglySorted (fun a b => key b <= key a) (sort_desc key l).
Proof.
  induction l as [|x l IH]; [constructor|]. by apply insert_desc_sorted.
Qed.

(** The sort is stable: the elements of one key keep their order. *)
Lemma insert_desc_stable (k : Z) (x : A) (l : list A) :
  StronglySorted (fun a b => key b <= key a) l →
  filter (fun a => key a = k) (insert_desc key x l)
  = filter (fun a => key a = k) (x :: l).
Proof.
  induction 1 as [|y l Hl IH Hy]; [reflexivity|]. simpl.
  destruct (key x <? key y) eqn:E; [|reflexivity].
  apply Z.ltb_lt in E. rewrite !filter_cons, IH, !filter_cons.
  destruct (decide (key y = k)) as [Hy'|Hy']; [|done].
  repeat case_decide; (done || lia).
Qed.

Lemma sort_desc_stable (k : Z) (l : list A) :
  filter (fun a => key a = k) (sort_desc key l) = filter (fun a => key a = k) l.
Proof.
  induction l as [|x l IH]; [done|].
  change (sort_desc key (x :: l)) with (insert_desc key x (sort_desc key l)).
  rewrite insert_desc_stable by apply sort_desc_sorted.
  by rewrite !filter_cons, IH.
Qed.

(** The first element of the sorted list: it comes in the list after
    elements of a smaller key only, and before none of a larger key. *)
Lemma sort_desc_head (l : list A) (d : A) :
  l ≠ [] →
  ∃ before after,
    l = before ++ List.hd d (sort_desc key l) :: after
    ∧ (∀ c, c ∈ before → key c < key (List.hd d (sort_desc key l)))
    ∧ (∀ c, c ∈ after → key c <= key (List.hd d (sort_desc key l))).
Proof.
  induction l as [|x l IH]; [done|]. intros _.
  change (sort_desc key (x :: l)) with (insert_desc key x (sort_desc key l)).
  destruct l as [|y l'].
  { exists [], []. simpl. split; [done|]. split; intros c Hc; by apply elem_of_nil in Hc. }
  destruct IH as (before & after & Hl & Hb & Ha); [done|].
  destruct (sort_desc key (y :: l')) as [|m rest] eqn:Hs.
  { pose proof (sort_desc_perm (y :: l')) as Hp. rewrite Hs in Hp.
    by apply Permutation_nil_l in Hp. }
  simpl in Hl, Hb, Ha. simpl insert_desc.
  destruct (key x <? key m) eqn:E.
  - apply Z.ltb_lt in E. exists (x :: before), after. simpl.
    split; [by rewrite Hl|]. split; [|done].
    intros c [->|Hc]%elem_of_cons; auto.
  - apply Z.ltb_ge in E. exists [], (y :: l'). simpl.
    split; [done|]. split; [intros c Hc; by apply elem_of_nil in Hc|].
    intros c Hc. rewrite Hl in Hc.
    apply elem_of_app in Hc as [Hc|Hc].
    + specialize (Hb c Hc). lia.
    + apply elem_of_cons in Hc as [->|Hc]; [lia|].
      specialize (Ha c Hc). lia.
Qed.

End SortDesc.

(** ** Selection of the audio candidate *)

(** An [unquote] for plain text: it decodes the escapes [%00] to [%7F] and
    leaves everything else as it is. *)
Definition hex_val (c : ascii) : option N :=
  let n := PyStr.code c in
  if ((48 <=? n) && (n <=? 57))%N then Some (n - 48)%N
  else if ((65 <=? n) && (n <=? 70))%N then Some (n - 55)%N
  else if ((97 <=? n) && (n <=? 102))%N then Some (n - 87)%N
  else None.

Fixpoint unquote_ascii (s : string) : string :=
  match s with
  | EmptyString => EmptyString
  | String c s' =>
      if Ascii.eqb c "%" then
        match s' with
        | String a (String b rest) =>
            match hex_val a, hex_val b with
            | Some h, Some l =>
                if (h <? 8)%N then String (ascii_of_N (16 * h + l)) (unquote_ascii rest)
                else String c (unquote_ascii s')
            | _, _ => String c (unquote_ascii s')
            end
        | _ => String c (unquote_ascii s')
        end
      else String c (unquote_ascii s')
  end.

(** What [unquote] does to a string without an escape: nothing. *)
Definition plain_unquote (unquote : string → string) : Prop :=
  ∀ s, PyStr.contains "%" s = false → unquote s = s.

Lemma unquote_ascii_plain : plain_unquote unquote_ascii.
Proof.
  intros s. induction s as [|c s IH]; [done|].
  intros H.
  change (PyStr.contains "%" (String c s))
    with ((if Ascii.eqb "%" c then true else false) || PyStr.contains "%" s) in H.
  apply orb_false_iff in H as [H1 H2].
  destruct (Ascii.eqb "%" c) eqn:E; [done|].
  cbn [unquote_ascii]. rewrite Ascii.eqb_sym, E. f_equal. by apply IH.
Qed.

Section AudioSelection.

Import AddSoundFromWikipedia.

Variable unquote : string → string.

(** The name a candidate is scored by, and the set of the tokens of a text. *)
Definition audio_name (file_title : string) : string :=
  PyStr.lower (normalize_title unquote (Some file_title)).

Definition token_set (text : string) : gset string := list_to_set (tokenize text).

Definition any_keyword (keywords : list string) (name : string) : bool :=
  existsb (fun keyword => PyStr.contains keyword name) keywords.

Lemma score_parts (file_title wiki_title scientific_name : string) :
  score_audio_candidate unquote file_title wiki_title scientific_name
  = (if any_keyword PREFERRED_AUDIO_KEYWORDS (audio_name file_title) then 5 else 0)
    + (if any_keyword DEPRIORITIZE_AUDIO_KEYWORDS (audio_name file_title) then -5 else 0)
    + Z.of_nat (size (token_set wiki_title ∩ token_set (audio_name file_title)))
    + Z.of_nat (size (token_set scientific_name ∩ token_set (audio_name file_title)))
    + (if PyStr.endswith ".ogg" (audio_name file_title)
          || PyStr.endswith ".oga" (audio_name file_title)
          || PyStr.endswith ".opus" (audio_name file_title)
       then 1 else 0).
Proof.
  unfold score_audio_candidate, any_keyword, token_set, audio_name. cbv zeta.
  repeat match goal with |- context [if ?b then _ else _] => destruct b end; lia.
Qed.

Lemma is_audio_filename_spec (file_title : string) :
  is_audio_filename unquote file_title = true
  ↔ ∃ ext, ext ∈ AUDIO_EXTENSIONS
           ∧ PyStr.endswith ext (audio_name file_title) = true.
Proof.
  unfold is_audio_filename, audio_name. rewrite existsb_exists.
  split; intros (ext & H1 & H2); exists ext; (split; [|done]);
    by apply list_elem_of_In.
Qed.

Lemma best_audio_none (file_titles : list string) (wiki_title scientific_name : string) :
  List.filter (is_audio_filename unquote) file_titles = [] →
  best_audio_file_title unquote file_titles wiki_title scientific_name = EmptyString.
Proof. intros H. unfold best_audio_file_title. by rewrite H. Qed.

Lemma best_audio_max (file_titles : list string) (wiki_title scientific_name : string) :
  let score c := score_audio_candidate unquote c wiki_title scientific_name in
  let best := best_audio_file_title unquote file_titles wiki_title scientific_name in
  List.filter (is_audio_filename unquote) file_titles ≠ [] →
  ∃ before after,
    List.filter (is_audio_filename unquote) file_titles = before ++ best :: after
    ∧ (∀ c, c ∈ before → score c < score best)
    ∧ (∀ c, c ∈ after → score c <= score best).
Proof.
  intros score best Hne. subst best. unfold best_audio_file_title.
  destruct (List.filter (is_audio_filename unquote) file_titles) as [|a l] eqn:E;
    [done|].
  apply (sort_desc_head score (a :: l) EmptyString). done.
Qed.

End AudioSelection.

Section LionExample.

Import AddSoundFromWikipedia.

Variable unquote : string → string.
Hypothesis unquote_plain : plain_unquote unquote.

Lemma normalize_title_plain (s : string) :
  PyStr.contains "%" (PyStr.strip s) = false →
  normalize_title unquote (Some s) = normalize_title (fun x => x) (Some s).
Proof.
  intros H. unfold normalize_title. simpl or_empty. by rewrite unquote_plain.
Qed.

Lemma size_inter_step (X N1 N2 : gset string) (x : string) :
  N2 ⊆ N1 ∪ {[x]} → (size (X ∩ N2) ≤ size (X ∩ N1) + 1)%nat.
Proof.
  intros Hsub.
  assert (X ∩ N2 ⊆ (X ∩ N1) ∪ {[x]}) as H by set_solver.
  apply subseteq_size in H. rewrite (size_union_alt (X ∩ N1) {[x]}) in H.
  assert (size (({[x]} : gset string) ∖ (X ∩ N1)) ≤ 1)%nat as H1.
  { rewrite <- (size_singleton (C:=gset string) x).
    apply subseteq_size. set_solver. }
  lia.
Qed.

(** "Lion_roar.ogg" scores higher than "Lion_pronunciation.ogg" for the
    title "Lion", whatever the scientific name. *)
Lemma lion_roar_beats_pronunciation (scientific_name : string) :
  score_audio_candidate unquote "Lion_pronunciation.ogg" "Lion" scientific_name
  < score_audio_candidate unquote "Lion_roar.ogg" "Lion" scientific_name.
Proof.
  rewrite !score_parts. unfold audio_name.
  rewrite !normalize_title_plain by (vm_compute; reflexivity).
  replace (PyStr.lower (normalize_title (fun x => x) (Some "Lion_pronunciation.ogg")))
    with "lion pronunciation.ogg" by (vm_compute; reflexivity).
  replace (PyStr.lower (normalize_title (fun x => x) (Some "Lion_roar.ogg")))
    with "lion roar.ogg" by (vm_compute; reflexivity).
  set (X := token_set scientific_name).
  replace (any_keyword PREFERRED_AUDIO_KEYWORDS "lion pronunciation.ogg")
    with false by (vm_compute; reflexivity).
  replace (any_keyword DEPRIORITIZE_AUDIO_KEYWORDS "lion pronunciation.ogg")
    with true by (vm_compute; reflexivity).
  replace (any_keyword PREFERRED_AUDIO_KEYWORDS "lion roar.ogg")
    with true by (vm_compute; reflexivity).
  replace (any_keyword DEPRIORITIZE_AUDIO_KEYWORDS "lion roar.ogg")
    with false by (vm_compute; reflexivity).
  replace (size (token_set "Lion" ∩ token_set "lion pronunciation.ogg"))
    with 1%nat by (vm_compute; reflexivity).
  replace (size (token_set "Lion" ∩ token_set "lion roar.ogg"))
    with 1%nat by (vm_compute; reflexivity).
  replace (PyStr.endswith ".ogg" "lion pronunciation.ogg") with true
    by (vm_compute; reflexivity).
  replace (PyStr.endswith ".ogg" "lion roar.ogg") with true
    by (vm_compute; reflexivity).
  simpl orb.
  assert (size (X ∩ token_set "lion pronunciation.ogg")
          ≤ size (X ∩ token_set "lion roar.ogg") + 1)%nat as H.
  { apply (size_inter_step _ _ _ "pronunciation").
    replace (token_set "lion pronunciation.ogg")
      with (list_to_set ["lion"; "pronunciation"; "ogg"] : gset string)
      by (unfold token_set; f_equal; vm_compute; reflexivity).
    replace (token_set "lion roar.ogg")
      with (list_to_set ["lion"; "roar"; "ogg"] : gset string)
      by (unfold token_set; f_equal; vm_compute; reflexivity).
    set_solver. }
  lia.
Qed.

End LionExample.

(** C6. The selected title is empty when no file title is an audio file.
    Otherwise it is an audio candidate of the largest score, and the first
    of them: every candidate before it scores less, none after it scores
    more. A title is a candidate when its name ends with one of the audio
    extensions. The score is 5 for a preferred keyword in the name, minus 5
    for a deprioritised one, plus the number of tokens the name shares with
    the title, plus the number it shares with the scientific name, plus 1
    for an ogg, oga or opus extension. "Lion_roar.ogg" scores higher than
    "Lion_pronunciation.ogg" for the title "Lion". *)
Theorem audio_candidate_selection (unquote : string → string)
    (file_titles : list string) (wiki_title scientific_name : string) :
  let audio_files :=
    List.filter (AddSoundFromWikipedia.is_audio_filename unquote) file_titles in
  let score c :=
    AddSoundFromWikipedia.score_audio_candidate unquote c wiki_title scientific_name in
  let best :=
    AddSoundFromWikipedia.best_audio_file_title unquote file_titles wiki_title
      scientific_name in
  (audio_files = [] → best = EmptyString)
  ∧ (audio_files ≠ [] →
     ∃ before after,
       audio_files = before ++ best :: after
       ∧ (∀ c, c ∈ before → score c < score best)
       ∧ (∀ c, c ∈ after → score c <= score best))
  ∧ (∀ c, AddSoundFromWikipedia.is_audio_filename unquote c = true
          ↔ ∃ ext, ext ∈ [".ogg"; ".oga"; ".opus"; ".wav"; ".flac"; ".mp3"; ".m4a"; ".aac"]
                   ∧ PyStr.endswith ext (audio_name unquote c) = true)
  ∧ (∀ c, score c
          = (if any_keyword
                  ["call"; "song"; "sound"; "voice"; "vocal"; "roar"; "bark"; "howl";
                   "trumpet"; "echolocation"] (audio_name unquote c)
             then 5 else 0)
            + (if any_keyword
                    ["pronunciation"; "spoken"; "wiki"; "wikipedia"; "ll-q"]
                    (audio_name unquote c)
               then -5 else 0)
            + Z.of_nat (size (token_set wiki_title ∩ token_set (audio_name unquote c)))
            + Z.of_nat (size (token_set scientific_name ∩ token_set (audio_name unquote c)))
            + (if PyStr.endswith ".ogg" (audio_name unquote c)
                  || PyStr.endswith ".oga" (audio_name unquote c)
                  || PyStr.endswith ".opus" (audio_name unquote c)
               then 1 else 0))
  ∧ (plain_unquote unquote →
     AddSoundFromWikipedia.score_audio_candidate unquote "Lion_pronunciation.ogg"
       "Lion" scientific_name
     < AddSoundFromWikipedia.score_audio_candidate unquote "Lion_roar.ogg"
         "Lion" scientific_name).
Proof.
  intros audio_files score best.
  split; [apply best_audio_none|].
  split; [apply best_audio_max|].
  split; [apply is_audio_filename_spec|].
  split; [intros c; apply score_parts|].
  intros H. by apply lion_roar_beats_pronunciation.
Qed.

Lemma audio_candidate_selection_witness :
  AddSoundFromWikipedia.best_audio_file_title unquote_ascii
    ["File:Lion.jpg"] "Lion" "Panthera leo" = EmptyString
  ∧ (∃ before after,
       List.filter (AddSoundFromWikipedia.is_audio_filename unquote_ascii)
         ["File:Lion pronunciation.ogg"; "File:Lion.jpg"; "File:Lion%20roar.ogg";
          "File:Lion_roar.oga"]
       = before
         ++ AddSoundFromWikipedia.best_audio_file_title unquote_ascii
              ["File:Lion pronunciation.ogg"; "File:Lion.jpg"; "File:Lion%20roar.ogg";
               "File:Lion_roar.oga"] "Lion" "Panthera leo"
         :: after
       ∧ (∀ c, c ∈ before →
            AddSoundFromWikipedia.score_audio_candidate unquote_ascii c "Lion" "Panthera leo"
            < AddSoundFromWikipedia.score_audio_candidate unquote_ascii
                (AddSoundFromWikipedia.best_audio_file_title unquote_ascii
                   ["File:Lion pronunciation.ogg"; "File:Lion.jpg";
                    "File:Lion%20roar.ogg"; "File:Lion_roar.oga"] "Lion" "Panthera leo")
                "Lion" "Panthera leo")
       ∧ (∀ c, c ∈ after →
            AddSoundFromWikipedia.score_audio_candidate unquote_ascii c "Lion" "Panthera leo"
            <= AddSoundFromWikipedia.score_audio_candidate unquote_ascii
                 (AddSoundFromWikipedia.best_audio_file_title unquote_ascii
                    ["File:Lion pronunciation.ogg"; "File:Lion.jpg";
                     "File:Lion%20roar.ogg"; "File:Lion_roar.oga"] "Lion" "Panthera leo")
                 "Lion" "Panthera leo"))
  ∧ AddSoundFromWikipedia.best_audio_file_title unquote_ascii
      ["File:Lion pronunciation.ogg"; "File:Lion.jpg"; "File:Lion%20roar.ogg";
       "File:Lion_roar.oga"] "Lion" "Panthera leo" = "File:Lion%20roar.ogg"
  ∧ AddSoundFromWikipedia.score_audio_candidate unquote_ascii "Lion_pronunciation.ogg"
      "Lion" "Panthera leo"
    < AddSoundFromWikipedia.score_audio_candidate unquote_ascii "Lion_roar.ogg"
        "Lion" "Panthera leo".
Proof.
  split; [|split; [|split]].
  - apply (audio_candidate_selection unquote_ascii ["File:Lion.jpg"] "Lion" "Panthera leo").
    vm_compute. reflexivity.
  - apply (audio_candidate_selection unquote_ascii
             ["File:Lion pronunciation.ogg"; "File:Lion.jpg"; "File:Lion%20roar.ogg";
              "File:Lion_roar.oga"] "Lion" "Panthera leo").
    intros H. vm_compute in H. discriminate H.
  - vm_compute. reflexivity.
  - apply (audio_candidate_selection unquote_ascii [] "Lion" "Panthera leo").
    apply unquote_ascii_plain.
Defined.

(** ** The image of a subject *)

Section ImageFallback.

Import build_mammals_csv.

Lemma filter_nonempty_words delim (ws : list string) :
  Forall (word delim) ws → List.filter PyStr.nonempty ws = ws.
Proof.
  induction 1 as [|w ws [Hw _] _ IH]; [done|].
  simpl. destruct w; [done|]. simpl. by rewrite IH.
Qed.

(** The pieces of [re.split] that are not empty are the runs. *)
Lemma re_split_nonempty delim (s : string) :
  List.filter PyStr.nonempty (PyStr.re_split delim s) = PyStr.runs delim s.
Proof.
  unfold PyStr.re_split. destruct s as [|c s]; [done|].
  rewrite !List.filter_app.
  rewrite (filter_nonempty_words delim (PyStr.runs delim (String c s)))
    by apply runs_words.
  destruct (from_option delim false _), (from_option delim false _); simpl;
    by rewrite ?app_nil_r.
Qed.

Variable unquote : string → string.

(** A value is map-like when one of the words of its text, the runs of
    lower-case letters and digits, is a keyword: a keyword inside a longer
    word does not count. *)
Lemma is_map_like_spec (v : string) :
  is_map_like_image_name_or_url unquote (Some v) = true
  ↔ v ≠ EmptyString
    ∧ ∃ token,
        token ∈ PyStr.runs (fun c => negb (PyStr.is_lower_alnum c))
                  (PyStr.lower (unquote v))
        ∧ token ∈ ["area"; "distribution"; "locator"; "location"; "map"; "range";
                   "territory"].
Proof.
  unfold is_map_like_image_name_or_url.
  destruct (PyStr.nonempty v) eqn:Hv.
  - rewrite re_split_nonempty, existsb_exists.
    apply nonempty_true in Hv. split.
    + intros (token & H1 & H2). split; [done|]. exists token.
      apply list_elem_of_In in H1. by apply bool_decide_eq_true in H2.
    + intros (_ & token & H1 & H2). exists token.
      split; [by apply list_elem_of_In|by apply bool_decide_eq_true].
  - split; [done|]. intros [Hne _]. apply nonempty_true in Hne. congruence.
Qed.

Variable lead_image_from_enwiki :
  string → result (option string * option string).
Variable commons_metadata_for_filename :
  string → result (option string * option string * option string * option string).
Variable page_image_filenames_from_enwiki : string → result (list string).

(** An alternate that the scan passes over without asking for it. *)
Definition skipped (filename alt : string) : Prop :=
  alt = filename ∨ is_map_like_image_name_or_url unquote (Some alt) = true.

(** An alternate that the scan asks for, and what asking gives: the image
    it resolves to when that is reusable and not map-like. *)
Definition resolves_to (alt : string) (i : image) : Prop :=
  ∃ file_page direct_url lic attrib,
    commons_metadata_for_filename alt = Ok (file_page, direct_url, lic, attrib)
    ∧ truthy direct_url = true ∧ truthy file_page = true
    ∧ is_map_like_image_name_or_url unquote direct_url = false
    ∧ i = Image direct_url file_page lic attrib.

Definition fails_to_resolve (alt : string) : Prop :=
  ∃ file_page direct_url lic attrib,
    commons_metadata_for_filename alt = Ok (file_page, direct_url, lic, attrib)
    ∧ (truthy direct_url && truthy file_page
       && negb (is_map_like_image_name_or_url unquote direct_url)) = false.

Definition raises (alt : string) : Prop :=
  ∃ e, commons_metadata_for_filename alt = Raised e.

Lemma scan_alternates_cons (filename a : string) (l : list string) :
  scan_alternates unquote commons_metadata_for_filename filename (a :: l) =
  if String.eqb a filename
  then scan_alternates unquote commons_metadata_for_filename filename l
  else if is_map_like_image_name_or_url unquote (Some a)
  then scan_alternates unquote commons_metadata_for_filename filename l
  else
    match commons_metadata_for_filename a with
    | Raised e => Raised e
    | Ok (alt_file_page, alt_direct_url, alt_lic, alt_attrib) =>
        if truthy alt_direct_url && truthy alt_file_page
           && negb (is_map_like_image_name_or_url unquote alt_direct_url)
        then Ok (Some (Image alt_direct_url alt_file_page alt_lic alt_attrib))
        else scan_alternates unquote commons_metadata_for_filename filename l
    end.
Proof. reflexivity. Qed.

(** What the scan saw of a candidate it went past. *)
Definition passed (filename alt : string) : Prop :=
  skipped filename alt ∨ fails_to_resolve alt.

(** The scan ends at the first candidate that is not skipped and resolves
    or raises; it ends without an image when it went past them all. *)
Lemma scan_alternates_spec (filename : string) (page_images : list string) :
  match scan_alternates unquote commons_metadata_for_filename filename page_images with
  | Ok (Some i) =>
      ∃ before alt after,
        page_images = before ++ alt :: after
        ∧ Forall (passed filename) before
        ∧ ¬ skipped filename alt ∧ resolves_to alt i
  | Ok None => Forall (passed filename) page_images
  | Raised _ =>
      ∃ before alt after,
        page_images = before ++ alt :: after
        ∧ Forall (passed filename) before
        ∧ ¬ skipped filename alt ∧ raises alt
  end.
Proof.
  induction page_images as [|a l IH]; [by constructor|].
  assert (passed filename a →
          match scan_alternates unquote commons_metadata_for_filename filename l with
          | Ok (Some i) =>
              ∃ before alt after,
                a :: l = before ++ alt :: after
                ∧ Forall (passed filename) before
                ∧ ¬ skipped filename alt ∧ resolves_to alt i
          | Ok None => Forall (passed filename) (a :: l)
          | Raised _ =>
              ∃ before alt after,
                a :: l = before ++ alt :: after
                ∧ Forall (passed filename) before
                ∧ ¬ skipped filename alt ∧ raises alt
          end) as Hpass.
  { intros Ha.
    destruct (scan_alternates unquote commons_metadata_for_filename filename l)
      as [[i|]|e].
    - destruct IH as (before & alt & after & -> & Hb & Hrest).
      exists (a :: before), alt, after. split; [done|]. split; [by constructor|done].
    - by constructor.
    - destruct IH as (before & alt & after & -> & Hb & Hrest).
      exists (a :: before), alt, after. split; [done|]. split; [by constructor|done]. }
  rewrite scan_alternates_cons. clear IH.
  destruct (String.eqb a filename) eqn:Ea.
  { apply Hpass. left. left. by apply String.eqb_eq. }
  destruct (is_map_like_image_name_or_url unquote (Some a)) eqn:Em.
  { apply Hpass. left. by right. }
  assert (¬ skipped filename a) as Hns.
  { intros [->|H]; [|congruence]. by rewrite String.eqb_refl in Ea. }
  destruct (commons_metadata_for_filename a) as [[[[fp url] lic] attrib]|e] eqn:Ec.
  - destruct (truthy url && truthy fp
              && negb (is_map_like_image_name_or_url unquote url)) eqn:Eok.
    + exists [], a, l. split; [done|]. split; [constructor|]. split; [done|].
      apply andb_prop in Eok as [[H1 H2]%andb_prop H3].
      apply negb_true_iff in H3.
      exists fp, url, lic, attrib. done.
    + apply Hpass. right. exists fp, url, lic, attrib. done.
  - exists [], a, l. split; [done|]. split; [constructor|]. split; [done|].
    by exists e.
Qed.

(** The outcome for a primary image that resolves and is map-like. *)
Lemma select_image_map_like (title : string) (n : nat) (u : option string)
    (filename : string) (fp url lic attrib : option string) :
  lead_image_from_enwiki title = Ok (u, Some filename) →
  filename ≠ EmptyString →
  commons_metadata_for_filename filename = Ok (fp, url, lic, attrib) →
  truthy url = true → truthy fp = true →
  is_map_like_image_name_or_url unquote (Some filename)
  || is_map_like_image_name_or_url unquote url = true →
  select_image unquote lead_image_from_enwiki commons_metadata_for_filename
    page_image_filenames_from_enwiki title n
  = match page_image_filenames_from_enwiki title with
    | Raised _ => (Image url fp lic attrib, n)
    | Ok page_images =>
        match scan_alternates unquote commons_metadata_for_filename filename page_images with
        | Raised _ => (Image url fp lic attrib, n)
        | Ok (Some alternate) => (alternate, n)
        | Ok None => (no_image, S n)
        end
    end.
Proof.
  intros Hlead Hne Hc Hu Hf Hmap. unfold select_image. rewrite Hlead.
  apply nonempty_true in Hne. unfold truthy at 1. simpl or_empty.
  rewrite Hne, Hc, Hu, Hf. simpl andb. by rewrite Hmap.
Qed.

(** When the primary image resolves and is map-like and no request raises,
    the subject gets the first alternate that is neither the primary nor
    map-like by its name and resolves to a reusable asset whose URL is not
    map-like; it gets no image, and the counter is incremented, when there is
    no such alternate. *)
Lemma select_image_fallback (title : string) (n : nat) (u : option string)
    (filename : string) (fp url lic attrib : option string)
    (page_images : list string) :
  lead_image_from_enwiki title = Ok (u, Some filename) →
  filename ≠ EmptyString →
  commons_metadata_for_filename filename = Ok (fp, url, lic, attrib) →
  truthy url = true → truthy fp = true →
  is_map_like_image_name_or_url unquote (Some filename)
  || is_map_like_image_name_or_url unquote url = true →
  page_image_filenames_from_enwiki title = Ok page_images →
  (∀ c, c ∈ page_images → ¬ raises c) →
  (∃ before alt after i,
     page_images = before ++ alt :: after
     ∧ Forall (passed filename) before
     ∧ ¬ skipped filename alt ∧ resolves_to alt i
     ∧ select_image unquote lead_image_from_enwiki commons_metadata_for_filename
         page_image_filenames_from_enwiki title n = (i, n))
  ∨ (Forall (passed filename) page_images
     ∧ select_image unquote lead_image_from_enwiki commons_metadata_for_filename
         page_image_filenames_from_enwiki title n = (no_image, S n)).
Proof.
  intros Hlead Hne Hc Hu Hf Hmap Hpages Hnoraise.
  rewrite (select_image_map_like title n u filename fp url lic attrib) by done.
  rewrite Hpages.
  pose proof (scan_alternates_spec filename page_images) as Hscan.
  destruct (scan_alternates unquote commons_metadata_for_filename filename page_images)
    as [[i|]|e].
  - left. destruct Hscan as (before & alt & after & Hl & Hb & Hns & Hr).
    exists before, alt, after, i. done.
  - right. done.
  - exfalso. destruct Hscan as (before & alt & after & Hl & Hb & Hns & Hr).
    apply (Hnoraise alt); [|done]. rewrite Hl. set_solver.
Qed.

End ImageFallback.

(** A page whose lead image is a distribution map. Commons has the map and
    a photograph; the request for "Lion_cub.jpg" fails. *)
Definition lion_map_url : string :=
  "https://upload.wikimedia.org/wikipedia/commons/a/a1/Lion_distribution_map.png".

Definition lion_photo_url : string :=
  "https://upload.wikimedia.org/wikipedia/commons/7/73/Lion_waiting_in_Namibia.jpg".

Definition lion_lead (title : string)
  : result (option string * option string) :=
  Ok (Some lion_map_url, Some "Lion_distribution_map.png").

Definition lion_commons (filename : string)
  : result (option string * option string * option string * option string) :=
  if String.eqb filename "Lion_distribution_map.png" then
    Ok (Some "https://commons.wikimedia.org/wiki/File:Lion_distribution_map.png",
        Some lion_map_url, Some "CC BY-SA 3.0", Some "Tommyknocker / CC BY-SA 3.0")
  else if String.eqb filename "Lion_waiting_in_Namibia.jpg" then
    Ok (Some "https://commons.wikimedia.org/wiki/File:Lion_waiting_in_Namibia.jpg",
        Some lion_photo_url, Some "CC BY 2.0", Some "Kevin Pluck / CC BY 2.0")
  else Raised RequestException.

Definition lion_page_images (title : string) : result (list string) :=
  Ok ["Lion_distribution_map.png"; "Lion_range_map.png"; "Lion_waiting_in_Namibia.jpg"].

Definition lion_page_images_with_failure (title : string) : result (list string) :=
  Ok ["Lion_distribution_map.png"; "Lion_cub.jpg"; "Lion_waiting_in_Namibia.jpg"].

Definition lion_page_images_failing (title : string) : result (list string) :=
  Raised RequestException.

(** With a map-like lead image and an alternate that resolves, the
    alternate is selected. *)
Example alternate_accepted :
  build_mammals_csv.image_url
    (fst (build_mammals_csv.select_image unquote_ascii lion_lead lion_commons
            lion_page_images "Lion" 0))
  = Some lion_photo_url.
Proof. vm_compute. reflexivity. Qed.

(** C7, at a failing request. The lead image is map-like, and the page has
    a photograph that resolves. When the request for an alternate before it
    raises, or the request for the list of the page's images does, the
    subject keeps the map: no alternate is selected, the image is not
    cleared and the counter stays. *)
Theorem map_like_primary_kept_on_failure :
  build_mammals_csv.is_map_like_image_name_or_url unquote_ascii
    (Some "Lion_distribution_map.png") = true
  ∧ build_mammals_csv.select_image unquote_ascii lion_lead lion_commons
      lion_page_images_with_failure "Lion" 0
    = (build_mammals_csv.Image (Some lion_map_url)
         (Some "https://commons.wikimedia.org/wiki/File:Lion_distribution_map.png")
         (Some "CC BY-SA 3.0") (Some "Tommyknocker / CC BY-SA 3.0"), 0%nat)
  ∧ build_mammals_csv.select_image unquote_ascii lion_lead lion_commons
      lion_page_images_failing "Lion" 0
    = (build_mammals_csv.Image (Some lion_map_url)
         (Some "https://commons.wikimedia.org/wiki/File:Lion_distribution_map.png")
         (Some "CC BY-SA 3.0") (Some "Tommyknocker / CC BY-SA 3.0"), 0%nat).
Proof. repeat split; vm_compute; reflexivity. Qed.

(** ** Filling traits from the legacy file *)

Section Filling.

Import FillDataFromPantheria.

(** The converted value a column of the legacy row gives. *)
Definition converted_cell (pantheria_row : row) (source_col : string)
  : result (option string) :=
  convert_trait source_col (parse_pantheria_number (row_get pantheria_row source_col)).

(** The column gives a value: it is filled. *)
Definition filled (pantheria_row : row) (columns : string * string) : bool :=
  match converted_cell pantheria_row (fst columns) with
  | Ok (Some _) => true
  | _ => false
  end.

Definition filled_count (pantheria_row : row) : nat :=
  length (List.filter (filled pantheria_row) PANTHERIA_TO_TARGET).

(** The litter size of the legacy row reads as a NaN or an infinity, which
    [round] refuses. *)
Definition litter_not_finite (pantheria_row : row) : Prop :=
  ∃ v, parse_pantheria_number (row_get pantheria_row "15-1_LitterSize") = Some v
       ∧ (v = S754_nan ∨ ∃ s, v = S754_infinity s).

Lemma parse_pantheria_number_none (raw : option string) :
  parse_pantheria_number raw = None
  ↔ raw = None
    ∨ ∃ s, raw = Some s
           ∧ (PyStr.strip s = EmptyString
              ∨ Float.of_string (PyStr.strip s) = None
              ∨ ∃ v, Float.of_string (PyStr.strip s) = Some v
                     ∧ Float.leb v (Float.of_Z (-999)) = true).
Proof.
  unfold parse_pantheria_number. destruct raw as [s|]; [|by split; auto].
  destruct (PyStr.nonempty (PyStr.strip s)) eqn:Hne; cbn [negb].
  - apply nonempty_true in Hne.
    destruct (Float.of_string (PyStr.strip s)) as [v|] eqn:Hv.
    + change MISSING_SENTINEL with (Float.of_Z (-999)).
      destruct (Float.leb v (Float.of_Z (-999))) eqn:Hle.
      * split; [|done]. intros _. right. exists s. split; [done|].
        right. right. by exists v.
      * split; [done|].
        intros [?|(s' & [= <-] & [?|[?|(v' & Hv' & Hle')]])]; congruence.
    + split; [|done]. intros _. right. exists s. auto.
  - split; [|done]. intros _. right. exists s. split; [done|]. left.
    destruct (PyStr.strip s); [done|discriminate].
Qed.

Lemma convert_trait_absent (source_col : string) :
  convert_trait source_col None = Ok None.
Proof. done. Qed.

(** Only the litter size can raise, on a value that is not finite. *)
Lemma convert_trait_raises (source_col : string) (value : option spec_float) (e : exn) :
  convert_trait source_col value = Raised e →
  source_col = "15-1_LitterSize"
  ∧ ∃ v, value = Some v ∧ (v = S754_nan ∨ ∃ s, v = S754_infinity s).
Proof.
  unfold convert_trait. destruct value as [v|]; [|done].
  destruct (String.eqb source_col "5-1_AdultBodyMass_g");
    [by destruct (Float.ltb _ _)|].
  destruct (String.eqb source_col "9-1_GestationLen_d"); [done|].
  destruct (String.eqb source_col "15-1_LitterSize") eqn:E.
  - apply String.eqb_eq in E. intros H. split; [done|]. exists v. split; [done|].
    destruct v as [s|s| |s m ex]; cbn [Float.round] in H.
    + by destruct (Float.ltb _ _).
    + right. by exists s.
    + by left.
    + by destruct (Float.ltb _ _).
  - by destruct (String.eqb source_col "17-1_MaxLongevity_m").
Qed.

Lemma fill_step_raised (pantheria_row : row) (columns : list (string * string)) (e : exn) :
  fold_left (fill_step pantheria_row) columns (Raised e) = Raised e.
Proof. induction columns as [|c l IH]; [done|]. exact IH. Qed.

(** The loop over the columns counts the filled ones, touches no cell but
    those of the columns' targets, and raises only where a conversion
    does. *)
Lemma fill_step_ok (pantheria_row : row) (count : nat) (mammal_row : row)
    (src tgt : string) :
  fill_step pantheria_row (Ok (count, mammal_row)) (src, tgt) =
  match converted_cell pantheria_row src with
  | Raised e => Raised e
  | Ok (Some converted) => Ok (S count, <[tgt := Some converted]> mammal_row)
  | Ok None => Ok (count, <[tgt := row_get_default mammal_row tgt]> mammal_row)
  end.
Proof. reflexivity. Qed.

Lemma fill_fold (pantheria_row : row) (columns : list (string * string))
    (count : nat) (mammal_row : row) :
  match fold_left (fill_step pantheria_row) columns (Ok (count, mammal_row)) with
  | Ok (count', mammal_row') =>
      count' = (count + length (List.filter (filled pantheria_row) columns))%nat
      ∧ (∀ k, k ∉ columns.*2 → mammal_row' !! k = mammal_row !! k)
      ∧ dom mammal_row' = dom mammal_row ∪ list_to_set columns.*2
  | Raised e =>
      ∃ c, c ∈ columns ∧ converted_cell pantheria_row (fst c) = Raised e
  end.
Proof.
  revert count mammal_row. induction columns as [|[src tgt] l IH];
    intros count mammal_row.
  { simpl. split; [lia|]. split; [done|]. set_solver. }
  cbn [fold_left]. rewrite fill_step_ok.
  cbn [List.filter]. unfold filled at 1. cbn [fst].
  assert (∀ (v : option string) (row' : row) (k : string),
            k ∉ ((src, tgt) :: l).*2 →
            (∀ k, k ∉ l.*2 → row' !! k = <[tgt := v]> mammal_row !! k) →
            row' !! k = mammal_row !! k) as Hframe.
  { intros v row' k Hk Hrow. rewrite fmap_cons, not_elem_of_cons in Hk.
    destruct Hk as [Hne Hk]. rewrite Hrow by done. by rewrite lookup_insert_ne. }
  assert (∀ (v : option string) (row' : row),
            dom row' = dom (<[tgt := v]> mammal_row) ∪ list_to_set l.*2 →
            dom row' = dom mammal_row ∪ list_to_set ((src, tgt) :: l).*2) as Hdom.
  { intros v row' ->. rewrite dom_insert_L, fmap_cons. simpl. set_solver. }
  destruct (converted_cell pantheria_row src) as [[text|]|e] eqn:Hc.
  - specialize (IH (S count) (<[tgt := Some text]> mammal_row)).
    destruct (fold_left _ l _) as [[count' row']|e].
    + destruct IH as (-> & Hk & Hd). split; [simpl; lia|]. split; eauto.
    + destruct IH as (c & Hin & Hr). exists c. split; [by right|done].
  - specialize (IH count (<[tgt := row_get_default mammal_row tgt]> mammal_row)).
    destruct (fold_left _ l _) as [[count' row']|e].
    + destruct IH as (-> & Hk & Hd). split; [simpl; lia|]. split; eauto.
    + destruct IH as (c & Hin & Hr). exists c. split; [by right|done].
  - rewrite fill_step_raised. exists (src, tgt). split; [left|done].
Qed.

End Filling.
(** * Further properties of the scripts *)

(** ** The population group size column *)

Section Population.

Import AddPopulationGrpSizeFromPantheria.

Variables (pantheria_index : gmap string row) (target_column : string).








End Population.


(** ** The loop of [fill_and_filter_mammals] *)

Section FillAccounting.

Import FillDataFromPantheria.

Variable pantheria_index : gmap string row.

(** A record that is kept, and the row that is written for it. *)
Definition kept_from (r r' : row) : Prop :=
  ∃ pantheria_row,
    find_pantheria_row pantheria_index r = Some pantheria_row
    ∧ (2 ≤ filled_count pantheria_row)%nat
    ∧ fill_traits pantheria_row r = Ok (filled_count pantheria_row, r')
    ∧ ∀ k, k ∉ ["mass_kg"; "gestation_days"; "litter_size"; "lifespan_yr"] →
           r' !! k = r !! k.

Lemma find_pantheria_row_indexed (r found : row) :
  find_pantheria_row pantheria_index r = Some found →
  ∃ k, pantheria_index !! k = Some found.
Proof.
  unfold find_pantheria_row.
  destruct (pantheria_index !! normalize_name _) eqn:E; [intros [= <-]|]; eauto.
Qed.

Lemma fill_traits_spec (pantheria_row r : row) :
  match fill_traits pantheria_row r with
  | Ok (count, r') =>
      count = filled_count pantheria_row
      ∧ ∀ k, k ∉ ["mass_kg"; "gestation_days"; "litter_size"; "lifespan_yr"] →
             r' !! k = r !! k
  | Raised _ => litter_not_finite pantheria_row
  end.
Proof.
  pose proof (fill_fold pantheria_row PANTHERIA_TO_TARGET 0 r) as H.
  unfold fill_traits.
  destruct (fold_left _ PANTHERIA_TO_TARGET _) as [[count r']|e].
  - destruct H as (-> & Hframe & _). split; [done|exact Hframe].
  - destruct H as (c & _ & Hc). unfold converted_cell in Hc.
    apply convert_trait_raises in Hc as (Hsrc & v & Hv & Hnf).
    exists v. by rewrite <- Hsrc.
Qed.

Lemma mammal_step_raised (l : list row) (e : exn) :
  fold_left (mammal_step pantheria_index) l (Raised e) = Raised e.
Proof. induction l as [|r l IH]; [done|]. exact IH. Qed.

Lemma mammal_step_ok (kept_rows : list row) (st : stats) (r : row) :
  match mammal_step pantheria_index (Ok (kept_rows, st)) r with
  | Ok (kept_rows', st') =>
      total st' = S (total st)
      ∧ ((kept_rows' = kept_rows
          ∧ (dropped_no_match st' + dropped_too_sparse st'
             = dropped_no_match st + dropped_too_sparse st + 1)%nat)
         ∨ (∃ r', kept_rows' = kept_rows ++ [r'] ∧ kept_from r r'
                  ∧ dropped_no_match st' = dropped_no_match st
                  ∧ dropped_too_sparse st' = dropped_too_sparse st))
  | Raised _ =>
      ∃ k found, pantheria_index !! k = Some found ∧ litter_not_finite found
  end.
Proof.
  unfold mammal_step.
  destruct (find_pantheria_row pantheria_index r) as [found|] eqn:Hfind.
  - pose proof (fill_traits_spec found r) as Hfill.
    destruct (fill_traits found r) as [[count r']|e] eqn:Hft.
    + destruct Hfill as (-> & Hframe).
      destruct (filled_count found <? 2)%nat eqn:Hc.
      * split; [done|]. left. simpl. split; [done|lia].
      * apply Nat.ltb_ge in Hc. split; [done|]. right. exists r'.
        split; [done|]. split; [|done]. by exists found.
    + apply find_pantheria_row_indexed in Hfind as (k & Hk). eauto.
  - split; [done|]. left. simpl. split; [done|lia].
Qed.

Lemma mammal_fold (l : list row) (kept_rows : list row) (st : stats) :
  match fold_left (mammal_step pantheria_index) l (Ok (kept_rows, st)) with
  | Ok (kept_rows', st') =>
      ∃ sources new,
        sublist sources l ∧ kept_rows' = kept_rows ++ new
        ∧ Forall2 kept_from sources new
        ∧ total st' = (total st + length l)%nat
        ∧ (dropped_no_match st' + dropped_too_sparse st' + length new
           = dropped_no_match st + dropped_too_sparse st + length l)%nat
  | Raised _ =>
      ∃ k found, pantheria_index !! k = Some found ∧ litter_not_finite found
  end.
Proof.
  revert kept_rows st. induction l as [|r l IH]; intros kept_rows st.
  { simpl. exists [], []. rewrite app_nil_r. repeat split; try lia; constructor. }
  cbn [fold_left].
  pose proof (mammal_step_ok kept_rows st r) as Hstep.
  destruct (mammal_step pantheria_index (Ok (kept_rows, st)) r)
    as [[rows1 st1]|e]; [|by rewrite mammal_step_raised].
  specialize (IH rows1 st1).
  destruct (fold_left _ l _) as [[kept_rows' st']|e]; [|done].
  destruct IH as (sources & new & Hsub & -> & Hall & Ht & Hd).
  destruct Hstep as (Ht1 & [(-> & Hd1)|(r' & -> & Hkept & Hn & Hs)]).
  - exists sources, new. split; [by apply sublist_cons|].
    repeat split; try done; simpl; lia.
  - exists (r :: sources), (r' :: new). split; [by apply sublist_skip|].
    rewrite <- app_assoc. split; [done|]. split; [by constructor|].
    split; simpl; lia.
Qed.

End FillAccounting.

(** X2. [fill_and_filter_mammals] refuses a file without a header with a
    [ValueError]; otherwise it raises only when the litter size of an
    indexed row reads as a NaN or an infinity. When it returns, the header
    is the one it read; the rows kept are rows of the file in the order of
    the file, each matched in the index with two mapped traits or more and
    changed in the four trait columns at most; and every row read is counted
    once, as dropped for no match, as dropped for being too sparse, or as
    kept. *)
Theorem fill_and_filter_mammals_accounting (fieldnames : list string)
    (rows : list row) (pantheria_index : gmap string row) :
  match FillDataFromPantheria.fill_and_filter_mammals fieldnames rows pantheria_index with
  | Ok (fieldnames', kept_rows, st) =>
      fieldnames ≠ [] ∧ fieldnames' = fieldnames
      ∧ (∃ sources, sublist sources rows
                    ∧ Forall2 (kept_from pantheria_index) sources kept_rows)
      ∧ FillDataFromPantheria.total st = length rows
      ∧ FillDataFromPantheria.kept st = length kept_rows
      ∧ (FillDataFromPantheria.dropped_no_match st
         + FillDataFromPantheria.dropped_too_sparse st
         + FillDataFromPantheria.kept st
         = FillDataFromPantheria.total st)%nat
  | Raised e =>
      (fieldnames = [] ∧ e = ValueError)
      ∨ ∃ k found, pantheria_index !! k = Some found ∧ litter_not_finite found
  end.
Proof.
  unfold FillDataFromPantheria.fill_and_filter_mammals.
  destruct fieldnames as [|f fs]; [by left|].
  pose proof (mammal_fold pantheria_index rows []
                (FillDataFromPantheria.Stats 0 0 0 0)) as Hfold.
  destruct (fold_left _ rows _) as [[kept_rows st]|e]; [|by right].
  destruct Hfold as (sources & new & Hsub & -> & Hall & Ht & Hd). simpl in *.
  split; [done|]. split; [done|]. split; [by exists sources|].
  repeat split; lia.
Qed.

(** ** The loop of [add_sound_column] *)

Section SoundAccounting.

Import AddSoundFromWikipedia.

Variable unquote : string → string.
Variable urlparse_path : string → result string.
Variable list_page_file_titles : string → result (list string).
Variable get_imageinfo : api → string → result (list page).
Variables (column_name : string) (force_refresh : bool).








End SoundAccounting.


(** ** The caches of the sound look-up *)

Section SoundCaches.

Import AddSoundFromWikipedia.

Variable unquote : string → string.

Lemma resolve_in_cache (get_imageinfo : api → string → result (list page))
    (apis : list api) (title : string) (cache : gmap string string) :
  match resolve_in unquote get_imageinfo apis title cache with
  | (Ok u, cache') => cache' = <[title := u]> cache
  | (Raised _, cache') => cache' = cache
  end.
Proof.
  induction apis as [|a apis IH]; [done|]. simpl.
  destruct (get_imageinfo a title) as [pages|e]; [|done].
  by destruct (audio_url_of_pages unquote title pages).
Qed.

Lemma resolve_audio_file_url_cache
    (get_imageinfo : api → string → result (list page))
    (file_title : string) (cache : gmap string string) :
  match resolve_audio_file_url unquote get_imageinfo file_title cache with
  | (Ok u, cache') =>
      cache ⊆ cache'
      ∧ ∀ get_imageinfo',
          resolve_audio_file_url unquote get_imageinfo' file_title cache'
          = (Ok u, cache')
  | (Raised _, cache') => cache' = cache
  end.
Proof.
  unfold resolve_audio_file_url.
  destruct (negb (PyStr.nonempty (normalize_file_title unquote file_title))) eqn:Hne;
    [done|].
  destruct (cache !! normalize_file_title unquote file_title) as [u|] eqn:Hc.
  { split; [done|]. intros get'. by rewrite Hc. }
  pose proof (resolve_in_cache get_imageinfo [COMMONS_API; ENWIKI_API]
                (normalize_file_title unquote file_title) cache) as H.
  destruct (resolve_in _ _ _ _ _) as [[u|e] cache']; [|done].
  subst cache'. split; [by apply insert_subseteq|].
  intros get'. by rewrite lookup_insert_eq.
Qed.

End SoundCaches.

(** X4. A look-up of the sound of a page never changes an entry of a
    cache. An answer, a URL or the empty string of a page without a sound,
    is recorded for the page: asked again, with the caches it left, the
    look-up gives the same answer whatever the network and the scientific
    name are, and leaves the caches as they are. An exception is not
    recorded: it leaves both caches as they were. *)
Theorem find_sound_url_for_page_cached (unquote : string → string)
    (list_page_file_titles : string → result (list string))
    (get_imageinfo : AddSoundFromWikipedia.api → string
                     → result (list AddSoundFromWikipedia.page))
    (wiki_title : string) (scientific_name : option string)
    (page_cache file_url_cache : gmap string string) :
  match
    AddSoundFromWikipedia.find_sound_url_for_page unquote list_page_file_titles
      get_imageinfo wiki_title scientific_name page_cache file_url_cache
  with
  | (Ok sound_url, page_cache', file_url_cache') =>
      page_cache ⊆ page_cache' ∧ file_url_cache ⊆ file_url_cache'
      ∧ page_cache' !! wiki_title = Some sound_url
      ∧ ∀ unquote' list_page_file_titles' get_imageinfo' scientific_name',
          AddSoundFromWikipedia.find_sound_url_for_page unquote'
            list_page_file_titles' get_imageinfo' wiki_title scientific_name'
            page_cache' file_url_cache'
          = (Ok sound_url, page_cache', file_url_cache')
  | (Raised _, page_cache', file_url_cache') =>
      page_cache' = page_cache ∧ file_url_cache' = file_url_cache
  end.
Proof.
  unfold AddSoundFromWikipedia.find_sound_url_for_page at 1.
  destruct (page_cache !! wiki_title) as [u|] eqn:Hp.
  { repeat split; try done. intros.
    unfold AddSoundFromWikipedia.find_sound_url_for_page. by rewrite Hp. }
  assert (∀ u fc,
            ∀ unquote' list_page_file_titles' get_imageinfo' scientific_name',
              AddSoundFromWikipedia.find_sound_url_for_page unquote'
                list_page_file_titles' get_imageinfo' wiki_title scientific_name'
                (<[wiki_title := u]> page_cache) fc
              = (Ok u, <[wiki_title := u]> page_cache, fc)) as Hagain.
  { intros. unfold AddSoundFromWikipedia.find_sound_url_for_page.
    by rewrite lookup_insert_eq. }
  destruct (list_page_file_titles wiki_title) as [file_titles|e]; [|done].
  destruct (match scientific_name with Some _ => _ | None => _ end)
    as [audio_title|e]; [|done].
  destruct (negb (PyStr.nonempty audio_title)).
  { split; [by apply insert_subseteq|]. split; [done|].
    split; [by rewrite lookup_insert_eq|]. apply Hagain. }
  pose proof (resolve_audio_file_url_cache unquote get_imageinfo audio_title
                file_url_cache) as Hr.
  destruct (AddSoundFromWikipedia.resolve_audio_file_url _ _ _ _)
    as [[u|e] fc']; [|done].
  destruct Hr as [Hsub _].
  split; [by apply insert_subseteq|]. split; [done|].
  split; [by rewrite lookup_insert_eq|]. apply Hagain.
Qed.


(** ** The attempts of [_get_json] *)

Section GetJsonAttempts.

Context {json : Type}.
Variable empty_dict : json.
Variable get : nat → result (Requests.response json).

(** What an attempt comes to: [Ok None] for a throttled answer (status 429
    or 503), [Ok (Some j)] for the JSON [j] of an answer whose status is no
    error, and the exception that [s.get], [raise_for_status] or [json]
    raises. *)
Definition outcome (k : nat) : result (option json) :=
  match get k with
  | Raised e => Raised e
  | Ok r =>
      if (Requests.status_code r =? 429) || (Requests.status_code r =? 503)
      then Ok None
      else
        match Requests.raise_for_status r with
        | Raised e => Raised e
        | Ok _ =>
            match Requests.body r with
            | Raised e => Raised e
            | Ok j => Ok (Some j)
            end
        end
  end.

(** The attempts from [a] up to [k], not included, are throttled. *)
Definition throttled_from (a k : nat) : Prop :=
  ∀ i, (a ≤ i < k)%nat → outcome i = Ok None.

(** The same, or they raise an exception that is caught. *)
Definition retried_from (a k : nat) : Prop :=
  ∀ i, (a ≤ i < k)%nat →
       outcome i = Ok None
       ∨ ∃ e, outcome i = Raised e ∧ Requests.is_request_exception e = true.

Lemma throttled_raises (r : Requests.response json) :
  build_mammals_csv.throttled r = true →
  Requests.raise_for_status r = Raised RequestException.
Proof.
  unfold build_mammals_csv.throttled, Requests.raise_for_status.
  intros [H|H]%orb_prop; apply Z.eqb_eq in H; by rewrite H.
Qed.

Lemma throttled_from_step (a k : nat) :
  outcome a = Ok None → throttled_from (S a) k → throttled_from a k.
Proof.
  intros Ha H i Hi. destruct (decide (i = a)) as [->|Hne]; [done|].
  apply H. lia.
Qed.

Lemma build_get_json_from (remaining attempt : nat)
    (r0 : option (Requests.response json)) :
  (∀ r, r0 = Some r → build_mammals_csv.throttled r = true) →
  (remaining = O → r0 ≠ None) →
  match build_mammals_csv.get_json_from empty_dict get attempt remaining r0 with
  | Ok j =>
      ∃ k, (attempt ≤ k < attempt + remaining)%nat
           ∧ outcome k = Ok (Some j) ∧ throttled_from attempt k
  | Raised e =>
      (∃ k, (attempt ≤ k < attempt + remaining)%nat
            ∧ outcome k = Raised e ∧ throttled_from attempt k)
      ∨ (e = RequestException ∧ throttled_from attempt (attempt + remaining))
  end.
Proof.
  revert attempt r0. induction remaining as [|n IH]; intros a r0 Hr0 Hn.
  { simpl. destruct r0 as [r|]; [|by destruct Hn].
    rewrite (throttled_raises r) by auto. right. split; [done|].
    intros i Hi. lia. }
  cbn [build_mammals_csv.get_json_from].
  assert (throttled_from a a) as Hnone by (intros i Hi; lia).
  destruct (get a) as [r|e] eqn:Hget.
  - destruct (build_mammals_csv.throttled r) eqn:Hthr.
    + assert (outcome a = Ok None) as Ha.
      { unfold outcome. rewrite Hget. unfold build_mammals_csv.throttled in Hthr.
        by rewrite Hthr. }
      specialize (IH (S a) (Some r)).
      destruct (build_mammals_csv.get_json_from _ _ _ _ _) as [j|e].
      * destruct IH as (k & Hk & Hout & Hbefore); [by intros ? [= <-]|done|].
        exists k. split; [lia|]. split; [done|]. by apply throttled_from_step.
      * destruct IH as [(k & Hk & Hout & Hbefore)|(-> & Hall)];
          [by intros ? [= <-]|done| |].
        -- left. exists k. split; [lia|]. split; [done|].
           by apply throttled_from_step.
        -- right. split; [done|]. apply throttled_from_step; [done|].
           by replace (a + S n)%nat with (S a + n)%nat by lia.
    + assert (outcome a
              = match Requests.raise_for_status r with
                | Raised e => Raised e
                | Ok _ => match Requests.body r with
                          | Raised e => Raised e
                          | Ok j => Ok (Some j)
                          end
                end) as Ha.
      { unfold outcome. rewrite Hget. unfold build_mammals_csv.throttled in Hthr.
        by rewrite Hthr. }
      destruct (Requests.raise_for_status r) as [[]|e].
      * destruct (Requests.body r) as [j|e].
        -- exists a. split; [lia|]. done.
        -- left. exists a. split; [lia|]. done.
      * left. exists a. split; [lia|]. done.
  - left. exists a. split; [lia|]. split; [|done]. unfold outcome. by rewrite Hget.
Qed.

Lemma retried_from_step (a k : nat) :
  (outcome a = Ok None
   ∨ ∃ e, outcome a = Raised e ∧ Requests.is_request_exception e = true) →
  retried_from (S a) k → retried_from a k.
Proof.
  intros Ha H i Hi. destruct (decide (i = a)) as [->|Hne]; [done|].
  apply H. lia.
Qed.

Lemma attempt_once_outcome (k : nat) :
  AddSoundFromWikipedia.attempt_once get k = outcome k.
Proof. reflexivity. Qed.

Lemma sound_get_json_from (remaining attempt : nat) (last_exc : option exn) :
  match AddSoundFromWikipedia.get_json_from empty_dict get attempt remaining last_exc with
  | Ok j =>
      (∃ k, (attempt ≤ k < attempt + remaining)%nat
            ∧ outcome k = Ok (Some j) ∧ retried_from attempt k)
      ∨ (j = empty_dict ∧ last_exc = None
         ∧ throttled_from attempt (attempt + remaining))
  | Raised e =>
      (∃ k, (attempt ≤ k < attempt + remaining)%nat
            ∧ outcome k = Raised e ∧ retried_from attempt k
            ∧ (Requests.is_request_exception e = false
               ∨ throttled_from (S k) (attempt + remaining)))
      ∨ (last_exc = Some e ∧ throttled_from attempt (attempt + remaining))
  end.
Proof.
  revert attempt last_exc. induction remaining as [|n IH]; intros a last_exc.
  { simpl. destruct last_exc as [e|].
    - right. split; [done|]. intros i Hi. lia.
    - right. split; [done|]. split; [done|]. intros i Hi. lia. }
  cbn [AddSoundFromWikipedia.get_json_from]. rewrite attempt_once_outcome.
  assert (retried_from a a) as Hnone by (intros i Hi; lia).
  replace (a + S n)%nat with (S a + n)%nat by lia.
  destruct (outcome a) as [[j|]|e] eqn:Ha.
  - left. exists a. split; [lia|]. done.
  - specialize (IH (S a) last_exc).
    destruct (AddSoundFromWikipedia.get_json_from _ _ _ _ _) as [j|e].
    + destruct IH as [(k & Hk & Hout & Hbefore)|(-> & -> & Hall)].
      * left. exists k. split; [lia|]. split; [done|].
        apply retried_from_step; [by left|done].
      * right. split; [done|]. split; [done|]. by apply throttled_from_step.
    + destruct IH as [(k & Hk & Hout & Hbefore & Hlast)|(-> & Hall)].
      * left. exists k. split; [lia|]. split; [done|].
        split; [|done]. apply retried_from_step; [by left|done].
      * right. split; [done|]. by apply throttled_from_step.
  - destruct (Requests.is_request_exception e) eqn:He.
    + specialize (IH (S a) (Some e)).
      destruct (AddSoundFromWikipedia.get_json_from _ _ _ _ _) as [j|e'].
      * destruct IH as [(k & Hk & Hout & Hbefore)|(_ & [=] & _)].
        left. exists k. split; [lia|]. split; [done|].
        apply retried_from_step; [right; by exists e|done].
      * destruct IH as [(k & Hk & Hout & Hbefore & Hlast)|([= <-] & Hall)].
        -- left. exists k. split; [lia|]. split; [done|].
           split; [|done]. apply retried_from_step; [right; by exists e|done].
        -- left. exists a. split; [lia|]. split; [done|]. split; [done|].
           by right.
    + left. exists a. split; [lia|]. split; [done|]. split; [done|]. by left.
Qed.

End GetJsonAttempts.

(** X6. [_get_json] of [build_mammals_csv.py] makes six attempts at most
    and stops at the first one that is not throttled: it returns the JSON of
    that attempt, or raises what that attempt raises, with no further
    attempt. After six throttled attempts it raises the HTTP error of the
    last answer: the empty dict that ends the function is never returned. *)
Theorem build_get_json_first_answer {json : Type} (empty_dict : json)
    (get : nat → result (Requests.response json)) :
  match build_mammals_csv._get_json empty_dict get with
  | Ok j =>
      ∃ k, (k < 6)%nat ∧ outcome get k = Ok (Some j) ∧ throttled_from get 0 k
  | Raised e =>
      (∃ k, (k < 6)%nat ∧ outcome get k = Raised e ∧ throttled_from get 0 k)
      ∨ (e = RequestException ∧ throttled_from get 0 6)
  end.
Proof.
  pose proof (build_get_json_from empty_dict get 6 0 None) as H.
  unfold build_mammals_csv._get_json.
  destruct (build_mammals_csv.get_json_from _ _ _ _ _) as [j|e].
  - destruct H as (k & Hk & H); [done|done|]. exists k. split; [lia|done].
  - destruct H as [(k & Hk & H)|H]; [done|done| |by right].
    left. exists k. split; [lia|done].
Qed.

(** X7. [_get_json] of [AddSoundFromWikipedia.py] makes six attempts at
    most and tries again after a throttled attempt and after one that raised
    a [RequestException]. It returns the JSON of the first attempt that
    answers, or the empty dict when all six attempts were throttled. It
    raises an exception that is no [RequestException] at once, and otherwise
    the last [RequestException] raised, when no attempt answered and one
    raised. *)
Theorem sound_get_json_retries {json : Type} (empty_dict : json)
    (get : nat → result (Requests.response json)) :
  match AddSoundFromWikipedia._get_json empty_dict get with
  | Ok j =>
      (∃ k, (k < 6)%nat ∧ outcome get k = Ok (Some j) ∧ retried_from get 0 k)
      ∨ (j = empty_dict ∧ throttled_from get 0 6)
  | Raised e =>
      ∃ k, (k < 6)%nat ∧ outcome get k = Raised e ∧ retried_from get 0 k
           ∧ (Requests.is_request_exception e = false
              ∨ throttled_from get (S k) 6)
  end.
Proof.
  pose proof (sound_get_json_from empty_dict get 6 0 None) as H.
  unfold AddSoundFromWikipedia._get_json.
  destruct (AddSoundFromWikipedia.get_json_from _ _ _ _ _) as [j|e].
  - destruct H as [(k & Hk & H)|(-> & _ & H)]; [|by right].
    left. exists k. split; [lia|done].
  - destruct H as [(k & Hk & H)|([=] & _)]. exists k. split; [lia|done].
Qed.

(** ** The rows that [build_csv] collects *)

Section BuildRows.

Import build_mammals_csv.

Variable unquote : string → string.
Variable casefold : string → string.
Variable quote : string → string → string.
Variable lead_image_from_enwiki :
  string → result (option string * option string).
Variable commons_metadata_for_filename :
  string → result (option string * option string * option string * option string).
Variable page_image_filenames_from_enwiki : string → result (list string).
Variable wikidata_entity : string → result entity.
Variable request_label : string → result (option string).
Variable pageviews_last_30d : string → result (option Z).
Variable count : Z.

(** The row of a candidate: identified by the candidate, with the traits
    of the entity that Wikidata gives for it, an image whose URL is not
    empty and a conservation status that is usable. *)
Definition row_of (cand : Candidate) (r : csv_row) : Prop :=
  wikidata_id r = qid cand ∧ common_name r = label cand
  ∧ wikipedia_title r = enwiki_title cand
  ∧ source_url r = wikipedia_url quote (enwiki_title cand)
  ∧ has_image (row_image r) = true
  ∧ is_usable_conservation_status casefold (conservation_status r) = true
  ∧ ∃ ent, wikidata_entity (qid cand) = Ok ent
           ∧ scientific_name r = best_scientific_name ent
           ∧ mass_kg r = best_mass_kg ent
           ∧ lifespan_yr r = best_lifespan_yr ent
           ∧ gestation_days r = best_gestation_days ent
           ∧ litter_size r = best_litter_size ent
           ∧ max_speed_mph r = best_speed_mph ent.

Local Abbreviation step :=
  (candidate_step unquote casefold quote lead_image_from_enwiki
     commons_metadata_for_filename page_image_filenames_from_enwiki
     wikidata_entity request_label pageviews_last_30d count).

(** A turn of the loop adds no row, or the row of its candidate, which was
    not seen before, while there are fewer rows than [count]. *)
Lemma candidate_step_rows (st : build_state) (cand : Candidate) :
  seen st ⊆ seen (step st cand)
  ∧ (rows (step st cand) = rows st
     ∨ ∃ r, rows (step st cand) = rows st ++ [r] ∧ row_of cand r
            ∧ (qid cand ∉ seen st) ∧ qid cand ∈ seen (step st cand)
            ∧ (Z.of_nat (length (rows st)) < count)).
Proof.
  unfold candidate_step.
  destruct (count <=? Z.of_nat (length (rows st))) eqn:Hcount; [by split; [|left]|].
  apply Z.leb_gt in Hcount.
  case_bool_decide as Hseen; [by split; [|left]|].
  destruct (wikidata_entity (qid cand)) as [ent|e] eqn:Hent;
    [|split; [set_solver|by left]].
  destruct (best_conservation_status request_label ent (label_cache st))
    as [status cache'].
  destruct (select_image _ _ _ _ _ _) as [img skipped'].
  destruct (negb (has_image img)) eqn:Himg; [split; [set_solver|by left]|].
  destruct (negb (is_usable_conservation_status casefold status)) eqn:Hst;
    [split; [set_solver|by left]|].
  apply negb_false_iff in Himg, Hst.
  split; [simpl; set_solver|]. right. eexists. split; [done|].
  split; [|split; [done|split; [simpl; set_solver|done]]].
  repeat split; try done. exists ent. done.
Qed.

Lemma candidate_fold (pool : list Candidate) (st : build_state) :
  let st' := fold_left step pool st in
  seen st ⊆ seen st'
  ∧ ∃ sources new,
      sublist sources pool ∧ rows st' = rows st ++ new
      ∧ Forall2 row_of sources new
      ∧ (∀ r, r ∈ new → wikidata_id r ∉ seen st)
      ∧ NoDup (wikidata_id <$> new)
      ∧ (new = [] ∨ Z.of_nat (length (rows st')) <= count).
Proof.
  revert st. induction pool as [|cand pool IH]; intros st.
  { simpl. split; [done|]. exists [], []. rewrite app_nil_r.
    split; [constructor|]. split; [done|]. split; [constructor|].
    split; [intros r Hr; by apply elem_of_nil in Hr|].
    split; [constructor|by left]. }
  cbn [fold_left]. cbv zeta.
  destruct (candidate_step_rows st cand) as (Hseen & Hrows).
  destruct (IH (step st cand)) as (Hseen' & sources & new & Hsub & Hr & Hall & Hnew & Hnd & Hlen).
  split; [set_solver|].
  destruct Hrows as [Hsame|(r & Hadd & Hrow & Hfresh & Hin & Hlt)].
  - exists sources, new. split; [by apply sublist_cons|].
    split; [by rewrite Hr, Hsame|]. split; [done|].
    split; [intros r Hr'; specialize (Hnew r Hr'); set_solver|]. done.
  - exists (cand :: sources), (r :: new). split; [by apply sublist_skip|].
    split; [by rewrite Hr, Hadd, <- app_assoc|]. split; [by constructor|].
    assert (wikidata_id r = qid cand) as Hid by apply Hrow.
    split; [|split].
    + intros r' [->|Hr']%elem_of_cons; [by rewrite Hid|].
      specialize (Hnew r' Hr'). set_solver.
    + rewrite fmap_cons. apply NoDup_cons. split; [|done].
      intros (r' & Heq & Hr')%list_elem_of_fmap.
      apply (Hnew r' Hr'). by rewrite <- Heq, Hid.
    + right. destruct Hlen as [->|Hlen]; [|done].
      rewrite Hr, Hadd, app_nil_r, length_app. simpl. lia.
Qed.

End BuildRows.

(** X8. The loop of [build_csv] collects [count] rows at most, and none
    when [count] is not positive. No subject has two rows. The rows are the
    rows of candidates of the pool, in the order of the pool; each has the
    identifier, the label and the title of its candidate, the traits of the
    entity that Wikidata gave for it, an image whose URL is not empty and a
    conservation status that is usable. *)
Theorem build_rows_invariants (unquote casefold : string → string)
    (quote : string → string → string)
    (lead_image_from_enwiki : string → result (option string * option string))
    (commons_metadata_for_filename :
       string → result (option string * option string * option string * option string))
    (page_image_filenames_from_enwiki : string → result (list string))
    (wikidata_entity : string → result build_mammals_csv.entity)
    (request_label : string → result (option string))
    (pageviews_last_30d : string → result (option Z))
    (count : Z) (pool : list build_mammals_csv.Candidate) :
  let st :=
    build_mammals_csv.build_rows unquote casefold quote lead_image_from_enwiki
      commons_metadata_for_filename page_image_filenames_from_enwiki
      wikidata_entity request_label pageviews_last_30d count pool in
  Z.of_nat (length (build_mammals_csv.rows st)) <= Z.max 0 count
  ∧ NoDup (build_mammals_csv.wikidata_id <$> build_mammals_csv.rows st)
  ∧ ∃ sources,
      sublist sources pool
      ∧ Forall2 (row_of casefold quote wikidata_entity) sources
          (build_mammals_csv.rows st).
Proof.
  intros st. subst st. unfold build_mammals_csv.build_rows.
  destruct (candidate_fold unquote casefold quote lead_image_from_enwiki
              commons_metadata_for_filename page_image_filenames_from_enwiki
              wikidata_entity request_label pageviews_last_30d count pool
              (build_mammals_csv.BuildState ∅ [] ∅ 0 0 0))
    as (_ & sources & new & Hsub & Hr & Hall & _ & Hnd & Hlen).
  simpl in Hr. rewrite Hr.
  split; [destruct Hlen as [->|Hlen]; [simpl; lia|rewrite Hr in Hlen; lia]|].
  split; [done|]. by exists sources.
Qed.

(** ** Stripped strings *)

Section StripFacts.

Import PyStr.

Lemma lstrip_first s :
  from_option isspace false (first_char (lstrip s)) = false.
Proof.
  induction s as [|c s IH]; [done|]. simpl.
  destruct (isspace c) eqn:Hc; [done|]. simpl. exact Hc.
Qed.

Lemma rstrip_cons c s :
  rstrip (String c s) =
  match rstrip s with
  | EmptyString => if isspace c then EmptyString else String c EmptyString
  | r => String c r
  end.
Proof. reflexivity. Qed.

Lemma rstrip_last s :
  from_option isspace false (last_char (rstrip s)) = false.
Proof.
  induction s as [|c s IH]; [done|]. rewrite rstrip_cons.
  destruct (rstrip s) as [|b r].
  - destruct (isspace c) eqn:Hc; [done|]. simpl. exact Hc.
  - exact IH.
Qed.

Lemma rstrip_first s :
  from_option isspace false (first_char s) = false →
  from_option isspace false (first_char (rstrip s)) = false.
Proof.
  destruct s as [|c s]; [done|]. rewrite rstrip_cons. simpl. intros Hc.
  destruct (rstrip s); [by rewrite Hc|done].
Qed.

(** Stripping a stripped string changes nothing. *)
Lemma strip_strip s : strip (strip s) = strip s.
Proof.
  unfold strip.
  rewrite (lstrip_id (rstrip (lstrip s))) by apply rstrip_first, lstrip_first.
  apply rstrip_id, rstrip_last.
Qed.

Lemma append_assoc (s t u : string) : (s +:+ t) +:+ u = s +:+ t +:+ u.
Proof.
  induction s as [|c s IH]; [done|].
  change ((String c s +:+ t) +:+ u) with (String c ((s +:+ t) +:+ u)).
  change (String c s +:+ t +:+ u) with (String c (s +:+ t +:+ u)).
  by rewrite IH.
Qed.

Lemma endswith_unfold p s :
  endswith p s =
  if String.eqb s p then true
  else match s with
       | EmptyString => false
       | String _ s' => endswith p s'
       end.
Proof. by destruct s. Qed.

Lemma endswith_refl p : endswith p p = true.
Proof. by rewrite endswith_unfold, String.eqb_refl. Qed.

(** A string ends with what was appended to it. *)
Lemma endswith_app s p : endswith p (s +:+ p) = true.
Proof.
  induction s as [|c s IH]; [apply endswith_refl|].
  change (String c s +:+ p) with (String c (s +:+ p)).
  rewrite endswith_unfold, IH. by destruct (String.eqb _ _).
Qed.

Lemma contains_cons (a c : ascii) (s : string) :
  contains (String a EmptyString) (String c s)
  = Ascii.eqb a c || contains (String a EmptyString) s.
Proof. simpl. by destruct (Ascii.eqb a c). Qed.

(** A character that was replaced by another one is not in the string. *)
Lemma replace_char_absent (a b : ascii) (s : string) :
  a ≠ b → contains (String a EmptyString) (replace_char a b s) = false.
Proof.
  intros Hab. induction s as [|c s IH]; [done|].
  cbn [replace_char]. rewrite contains_cons, IH, orb_false_r.
  destruct (Ascii.eqb c a) eqn:Hc.
  - by apply Ascii.eqb_neq.
  - rewrite Ascii.eqb_sym. exact Hc.
Qed.

End StripFacts.

(** ** Names, items and labels *)

Section Extraction.

Import build_mammals_csv.

(** X9. Every string that [extract_string_claims] returns is the stripped
    text of a best-ranked statement of the property, is not empty and is
    left as it is by another strip. [best_scientific_name] gives the first
    of them for the taxon name, and nothing exactly when every best-ranked
    statement of the taxon name has a blank text or no text at all. *)
Theorem extract_string_claims_stripped (e : entity) (prop : string) :
  Forall
    (fun s =>
       s ≠ EmptyString ∧ PyStr.strip s = s
       ∧ ∃ st text, st ∈ pick_best_statements (claims_get e prop)
                    ∧ value st = DvStr text ∧ s = PyStr.strip text)
    (extract_string_claims e prop)
  ∧ best_scientific_name e = head (extract_string_claims e "P225")
  ∧ (best_scientific_name e = None
     ↔ ∀ st text, st ∈ pick_best_statements (claims_get e "P225") →
                  value st = DvStr text → PyStr.strip text = EmptyString).
Proof.
  split; [|split; [done|]].
  - apply Forall_forall. intros s (st & Hst & Hs)%list_elem_of_omap.
    unfold string_claim_of in Hs.
    destruct (value st) as [| |text] eqn:Hv; [done|done|]. cbv zeta in Hs.
    destruct (PyStr.nonempty (PyStr.strip text)) eqn:Hne; [|done].
    injection Hs as <-. apply nonempty_true in Hne.
    split; [done|]. split; [apply strip_strip|]. by exists st, text.
  - unfold best_scientific_name, extract_string_claims.
    change P_TAXON_NAME with "P225". rewrite head_None. split.
    + intros Hnil st text Hst Hv.
      destruct (PyStr.strip text) as [|c s] eqn:Hs; [done|].
      assert (String c s ∈ omap string_claim_of
                (pick_best_statements (claims_get e "P225"))) as Hin.
      { apply list_elem_of_omap. exists st. split; [done|].
        unfold string_claim_of. by rewrite Hv, Hs. }
      rewrite Hnil in Hin. by apply elem_of_nil in Hin.
    + intros Hall.
      destruct (omap _ _) as [|s l] eqn:Ho; [done|]. exfalso.
      assert (s ∈ omap string_claim_of
                (pick_best_statements (claims_get e "P225"))) as Hin
        by (rewrite Ho; left).
      apply list_elem_of_omap in Hin as (st & Hst & Hs).
      unfold string_claim_of in Hs.
      destruct (value st) as [| |text] eqn:Hv; [done|done|].
      cbv zeta in Hs. by rewrite (Hall st text Hst Hv) in Hs.
Qed.

(** X10. Every item that [extract_item_claim_qids] returns is the [id],
    not empty, of the value of a best-ranked statement of the property; the
    items come in the order of their statements, one for a statement at
    most. *)
Theorem extract_item_claim_qids_items (e : entity) (prop : string) :
  Forall
    (fun q =>
       q ≠ EmptyString
       ∧ ∃ st amount unit, st ∈ pick_best_statements (claims_get e prop)
                           ∧ value st = DvDict amount unit (Some q))
    (extract_item_claim_qids e prop)
  ∧ (length (extract_item_claim_qids e prop)
     ≤ length (pick_best_statements (claims_get e prop)))%nat
  ∧ ∃ sts, sublist sts (pick_best_statements (claims_get e prop))
           ∧ Forall2 (fun st q => item_qid_of st = Some q) sts
               (extract_item_claim_qids e prop).
Proof.
  unfold extract_item_claim_qids.
  set (l := pick_best_statements (claims_get e prop)). clearbody l.
  split; [|split].
  - apply Forall_forall. intros q (st & Hst & Hq)%list_elem_of_omap.
    unfold item_qid_of in Hq.
    destruct (value st) as [|amount unit [id|]|text] eqn:Hv; try done.
    destruct (PyStr.nonempty id) eqn:Hne; [|done]. injection Hq as <-.
    apply nonempty_true in Hne. split; [done|]. by exists st, amount, unit.
  - induction l as [|st l IH]; [done|].
    change (omap item_qid_of (st :: l))
      with (match item_qid_of st with
            | Some q => q :: omap item_qid_of l
            | None => omap item_qid_of l
            end).
    destruct (item_qid_of st); simpl; lia.
  - induction l as [|st l (sts & Hsub & Hall)]; [by exists []; split; constructor|].
    change (omap item_qid_of (st :: l))
      with (match item_qid_of st with
            | Some q => q :: omap item_qid_of l
            | None => omap item_qid_of l
            end).
    destruct (item_qid_of st) as [q|] eqn:Hq.
    + exists (st :: sts). split; [by apply sublist_skip|by constructor].
    + exists sts. split; [by apply sublist_cons|done].
Qed.

Variable request_label : string → result (option string).

Lemma wikidata_label_cache (q : string) (cache : gmap string (option string)) :
  let '(found, cache') := wikidata_label request_label q cache in
  cache ⊆ cache' ∧ cache' !! q = Some found.
Proof.
  unfold wikidata_label. destruct (cache !! q) as [l|] eqn:Hq; [done|].
  destruct (request_label q) as [l|e];
    (split; [by apply insert_subseteq|by rewrite lookup_insert_eq]).
Qed.

Lemma normalize_conservation_status_stripped (text : string) :
  PyStr.strip (normalize_conservation_status text)
  = normalize_conservation_status text.
Proof.
  unfold normalize_conservation_status. cbv zeta.
  destruct (PyStr.endswith _ _); apply strip_strip.
Qed.

Lemma first_labelled_spec (qids : list string)
    (cache : gmap string (option string)) :
  let '(status, cache') := first_labelled request_label qids cache in
  cache ⊆ cache'
  ∧ match status with
    | Some s =>
        ∃ before q after text,
          qids = before ++ q :: after
          ∧ cache' !! q = Some (Some text) ∧ text ≠ EmptyString
          ∧ s = normalize_conservation_status text
          ∧ ∀ q', q' ∈ before → ∃ l, cache' !! q' = Some l ∧ truthy l = false
    | None => ∀ q, q ∈ qids → ∃ l, cache' !! q = Some l ∧ truthy l = false
    end.
Proof.
  revert cache. induction qids as [|q qids IH]; intros cache.
  { simpl. split; [done|]. intros q Hq. by apply elem_of_nil in Hq. }
  cbn [first_labelled].
  pose proof (wikidata_label_cache q cache) as Hl.
  destruct (wikidata_label request_label q cache) as [found cache1].
  destruct Hl as [Hsub Hq].
  destruct (truthy found) eqn:Ht.
  - split; [done|]. exists [], q, qids, (or_empty found).
    split; [done|]. destruct found as [text|]; [|done]. simpl in *.
    apply nonempty_true in Ht. repeat split; try done.
    intros q' Hq'. by apply elem_of_nil in Hq'.
  - specialize (IH cache1).
    destruct (first_labelled request_label qids cache1) as [status cache'].
    destruct IH as [Hsub' IH].
    assert (cache' !! q = Some found) as Hq'
      by (eapply lookup_weaken; [exact Hq|done]).
    split; [by etrans|].
    destruct status as [s|].
    + destruct IH as (before & q0 & after & text & -> & Hc & Hne & -> & Hb).
      exists (q :: before), q0, after, text. repeat split; try done.
      intros q' [->|Hin]%elem_of_cons; [by exists found|by apply Hb].
    + intros q' [->|Hin]%elem_of_cons; [by exists found|by apply IH].
Qed.

End Extraction.

(** X11. [wikidata_label] asks for the label of an item once: the label,
    or [None] for a request that failed, is recorded, and a later call for
    the item gives it back whatever the network, with the cache unchanged;
    no call changes an entry of the cache. [best_conservation_status] gives
    the label of the first item of the conservation status that has a label
    that is not empty, without a final " status" and stripped; it gives
    nothing when no item has such a label. *)
Theorem best_conservation_status_label
    (request_label : string → result (option string))
    (e : build_mammals_csv.entity) (q : string)
    (label_cache : gmap string (option string)) :
  (let '(found, cache') :=
     build_mammals_csv.wikidata_label request_label q label_cache in
   label_cache ⊆ cache' ∧ cache' !! q = Some found
   ∧ ∀ request_label',
       build_mammals_csv.wikidata_label request_label' q cache' = (found, cache'))
  ∧ (let '(status, cache') :=
       build_mammals_csv.best_conservation_status request_label e label_cache in
     label_cache ⊆ cache'
     ∧ match status with
       | Some s =>
           PyStr.strip s = s
           ∧ ∃ before item after text,
               build_mammals_csv.extract_item_claim_qids e "P141"
               = before ++ item :: after
               ∧ cache' !! item = Some (Some text) ∧ text ≠ EmptyString
               ∧ s = build_mammals_csv.normalize_conservation_status text
               ∧ ∀ q', q' ∈ before →
                       ∃ l, cache' !! q' = Some l ∧ truthy l = false
       | None =>
           ∀ q', q' ∈ build_mammals_csv.extract_item_claim_qids e "P141" →
                 ∃ l, cache' !! q' = Some l ∧ truthy l = false
       end).
Proof.
  split.
  - pose proof (wikidata_label_cache request_label q label_cache) as H.
    destruct (build_mammals_csv.wikidata_label request_label q label_cache)
      as [found cache'].
    destruct H as [Hsub Hq]. split; [done|]. split; [done|].
    intros request_label'. unfold build_mammals_csv.wikidata_label. by rewrite Hq.
  - unfold build_mammals_csv.best_conservation_status.
    change build_mammals_csv.P_CONSERVATION_STATUS with "P141".
    pose proof (first_labelled_spec request_label
                  (build_mammals_csv.extract_item_claim_qids e "P141") label_cache)
      as H.
    destruct (build_mammals_csv.first_labelled _ _ _) as [status cache'].
    destruct H as [Hsub H]. split; [done|].
    destruct status as [s|]; [|done].
    destruct H as (before & item & after & text & H1 & H2 & H3 & -> & H4).
    split; [apply normalize_conservation_status_stripped|].
    by exists before, item, after, text.
Qed.

(** ** Images: names, attribution and selection *)

Section Media.

Import build_mammals_csv.

(** X12. [commons_metadata_for_filename] gives an attribution exactly
    when the file has a licence name that is not empty, and the attribution
    ends with that name: it is the artist, or else the credit, followed by
    " / " and the licence, and the licence alone when there is neither. *)
Theorem attribution_needs_licence (artist credit license_short : option string) :
  match attribution artist credit license_short with
  | None => truthy license_short = false
  | Some text =>
      truthy license_short = true
      ∧ PyStr.endswith (or_empty license_short) text = true
      ∧ text = (if truthy artist then or_empty artist +:+ " / " else
                if truthy credit then or_empty credit +:+ " / " else EmptyString)
               +:+ or_empty license_short
  end.
Proof.
  unfold attribution.
  destruct (truthy license_short) eqn:Hl; rewrite ?andb_false_r; [|done].
  rewrite !andb_true_r.
  assert (∀ s, PyStr.endswith (or_empty license_short)
                 (s +:+ " / " +:+ or_empty license_short) = true) as Hends.
  { intros s. rewrite <- append_assoc. apply endswith_app. }
  destruct (truthy artist);
    [split; [done|]; split; [apply Hends|symmetry; apply append_assoc]|].
  destruct (truthy credit);
    [split; [done|]; split; [apply Hends|symmetry; apply append_assoc]|].
  destruct license_short as [l|]; [|done]. simpl.
  split; [done|]. split; [apply endswith_refl|done].
Qed.

(** X13. Every name that [page_image_filenames_from_enwiki] takes from
    the images of a page is not empty, has one of the supported image
    extensions and holds no space; the names come in the order of the images,
    one for an image at most. *)
Theorem page_image_names_supported (titles : list (option string)) :
  Forall
    (fun name =>
       name ≠ EmptyString ∧ has_supported_image_extension name = true
       ∧ PyStr.contains " " name = false)
    (page_image_names titles)
  ∧ ∃ sources, sublist sources titles
               ∧ Forall2 (fun raw name => image_name_of raw = Some name) sources
                   (page_image_names titles).
Proof.
  unfold page_image_names. split.
  - apply Forall_forall. intros name (raw & _ & Hn)%list_elem_of_omap.
    unfold image_name_of in Hn. destruct raw as [raw|]; [|done]. cbv zeta in Hn.
    set (stripped := PyStr.strip _) in Hn.
    destruct (PyStr.nonempty (PyStr.replace_char " " "_" stripped)) eqn:Hne;
      [|done].
    destruct (has_supported_image_extension _) eqn:Hext; [|done].
    injection Hn as <-. apply nonempty_true in Hne.
    split; [done|]. split; [done|]. by apply replace_char_absent.
  - induction titles as [|raw l (sources & Hsub & Hall)];
      [by exists []; split; constructor|].
    change (omap image_name_of (raw :: l))
      with (match image_name_of raw with
            | Some name => name :: omap image_name_of l
            | None => omap image_name_of l
            end).
    destruct (image_name_of raw) as [name|] eqn:Hn.
    + exists (raw :: sources). split; [by apply sublist_skip|by constructor].
    + exists sources. split; [by apply sublist_cons|done].
Qed.

Lemma index_of_app (x : string) (pre rest : list string) :
  x ∉ pre → index_of x (pre ++ x :: rest) = Some (length pre).
Proof.
  induction pre as [|p pre IH]; intros Hx.
  - simpl. by rewrite String.eqb_refl.
  - apply not_elem_of_cons in Hx as [Hne Hx]. simpl.
    destruct (String.eqb p x) eqn:E; [by apply String.eqb_eq in E; subst|].
    by rewrite IH.
Qed.

Lemma index_of_none (x : string) (parts : list string) :
  x ∉ parts → index_of x parts = None.
Proof.
  induction parts as [|p l IH]; [done|]. intros [Hne Hx]%not_elem_of_cons. simpl.
  destruct (String.eqb p x) eqn:E; [by apply String.eqb_eq in E; subst|].
  by rewrite IH.
Qed.

(** The segment that names the file: the third after the first "thumb",
    the last one when there is no "thumb" or no third segment after it. *)
Lemma raw_name_of_thumb (pre post : list string) (a b name : string) :
  "thumb" ∉ pre →
  raw_name_of (pre ++ "thumb" :: a :: b :: name :: post) = name.
Proof.
  intros Hpre. unfold raw_name_of. rewrite index_of_app by done.
  rewrite length_app. simpl length.
  destruct (_ <? _)%nat eqn:E; [|apply Nat.ltb_ge in E; lia].
  rewrite List.app_nth2 by lia.
  by replace (length pre + 3 - length pre)%nat with 3%nat by lia.
Qed.

Lemma raw_name_of_plain (parts : list string) :
  "thumb" ∉ parts → raw_name_of parts = List.last parts EmptyString.
Proof. intros H. unfold raw_name_of. by rewrite index_of_none. Qed.

End Media.

Section FilenameOfUrl.

Import build_mammals_csv.

Variable unquote : string → string.
Variable urlparse_path : string → result string.

(** The file name that a segment of a path stands for: unquoted, without
    a "File:" prefix, and nothing when it unquotes to the empty string. *)
Definition named (segment : string) : option string :=
  let name := unquote segment in
  if PyStr.nonempty name
  then Some (if PyStr.startswith "file:" (PyStr.lower name) then PyStr.drop 5 name
             else name)
  else None.

Lemma filename_from_image_url_parts (url path : string) :
  url ≠ EmptyString → urlparse_path url = Ok path →
  filename_from_image_url unquote urlparse_path (Some url) =
  match PyStr.runs (fun c => Ascii.eqb c "/") path with
  | [] => Ok None
  | _ => Ok (named (raw_name_of (PyStr.runs (fun c => Ascii.eqb c "/") path)))
  end.
Proof.
  intros Hurl Hpath. unfold filename_from_image_url, named.
  apply nonempty_true in Hurl. unfold truthy. simpl or_empty.
  rewrite Hurl, Hpath. cbn [negb].
  destruct path as [|c path]; [done|]. cbn [PyStr.nonempty negb].
  destruct (PyStr.runs _ (String c path)) as [|p parts] eqn:E; [done|].
  cbv zeta. destruct (PyStr.nonempty (unquote _)); [|done]. cbn [negb].
  by destruct (PyStr.startswith _ _).
Qed.

End FilenameOfUrl.

(** The path of a URL of the upload server, for an example. *)
Definition upload_path (url : string) : result string :=
  Ok (PyStr.drop 28 url).

(** X14. For the URL of a thumbnail, whose path has the segment "thumb",
    [filename_from_image_url] gives the name of the original file, the third
    segment after the first "thumb", and not the name of the sized copy that
    ends the path; for any other path it gives the last segment. A path
    without a segment gives nothing. *)
Theorem filename_from_image_url_thumbnail (unquote : string → string)
    (urlparse_path : string → result string) (url path : string) :
  url ≠ EmptyString → urlparse_path url = Ok path →
  let parts := PyStr.runs (fun c => Ascii.eqb c "/") path in
  let filename :=
    build_mammals_csv.filename_from_image_url unquote urlparse_path (Some url) in
  (∀ pre a b name post,
     parts = pre ++ "thumb" :: a :: b :: name :: post → "thumb" ∉ pre →
     filename = Ok (named unquote name))
  ∧ (parts ≠ [] → "thumb" ∉ parts →
     filename = Ok (named unquote (List.last parts EmptyString)))
  ∧ (parts = [] → filename = Ok None).
Proof.
  intros Hurl Hpath parts filename. subst filename.
  rewrite (filename_from_image_url_parts unquote urlparse_path url path) by done.
  change (PyStr.runs (fun c => Ascii.eqb c "/") path) with parts.
  clearbody parts. split; [|split].
  - intros pre a b name post Hparts Hpre.
    destruct parts as [|p l]; [by destruct pre|].
    by rewrite Hparts, raw_name_of_thumb.
  - intros Hne Hthumb. destruct parts as [|p l]; [done|].
    by rewrite raw_name_of_plain.
  - by intros ->.
Qed.

Lemma filename_from_image_url_thumbnail_witness :
  build_mammals_csv.filename_from_image_url unquote_ascii upload_path
    (Some "https://upload.wikimedia.org/wikipedia/commons/thumb/7/73/Lion_waiting_in_Namibia.jpg/250px-Lion_waiting_in_Namibia.jpg")
  = Ok (Some "Lion_waiting_in_Namibia.jpg").
Proof.
  apply (proj1 (filename_from_image_url_thumbnail unquote_ascii upload_path
                  "https://upload.wikimedia.org/wikipedia/commons/thumb/7/73/Lion_waiting_in_Namibia.jpg/250px-Lion_waiting_in_Namibia.jpg"
                  "/wikipedia/commons/thumb/7/73/Lion_waiting_in_Namibia.jpg/250px-Lion_waiting_in_Namibia.jpg"
                  ltac:(discriminate) ltac:(vm_compute; reflexivity))
           ["wikipedia"; "commons"] "7" "73" "Lion_waiting_in_Namibia.jpg"
           ["250px-Lion_waiting_in_Namibia.jpg"]).
  - vm_compute. reflexivity.
  - not_in_list.
Defined.


(** ** Names as keys *)

Section NameKeys.

Import PyStr.

Lemma isspace_lower_char c : isspace (lower_char c) = isspace c.
Proof. by destruct c as [[] [] [] [] [] [] [] []]. Qed.

Lemma lower_lstrip s : lower (lstrip s) = lstrip (lower s).
Proof.
  induction s as [|c s IH]; [done|]. simpl. rewrite isspace_lower_char.
  by destruct (isspace c).
Qed.

Lemma lower_rstrip s : lower (rstrip s) = rstrip (lower s).
Proof.
  induction s as [|c s IH]; [done|].
  change (lower (String c s)) with (String (lower_char c) (lower s)).
  rewrite !rstrip_cons, <- IH, isspace_lower_char.
  destruct (rstrip s) as [|b r]; [by destruct (isspace c)|done].
Qed.

Lemma runs_lstrip s : runs isspace (lstrip s) = runs isspace s.
Proof.
  induction s as [|c s IH]; [done|]. cbn [lstrip].
  destruct (isspace c) eqn:Hc; [|done]. by rewrite runs_delim.
Qed.

Lemma rstrip_head s b r : rstrip s = String b r → ∃ s', s = String b s'.
Proof.
  destruct s as [|c s]; [done|]. rewrite rstrip_cons.
  destruct (rstrip s); [destruct (isspace c)|]; intros [= <- _]; by exists s.
Qed.

Lemma runs_rstrip s : runs isspace (rstrip s) = runs isspace s.
Proof.
  induction s as [|c s IH]; [done|]. rewrite rstrip_cons.
  destruct (isspace c) eqn:Hc.
  - rewrite (runs_delim isspace c s) by done.
    destruct (rstrip s) as [|b r]; [done|]. by rewrite runs_delim.
  - rewrite (runs_start isspace c s) by done.
    destruct (rstrip s) as [|b r] eqn:Hr.
    + simpl in IH. destruct s as [|c' s']; [by simpl; rewrite Hc|].
      rewrite <- IH. simpl. rewrite Hc. by destruct (isspace c').
    + destruct (rstrip_head _ _ _ Hr) as (s' & ->).
      rewrite runs_start by done. by rewrite IH.
Qed.

(** The words of a stripped, lowered string are the words of the lowered
    string. *)
Lemma split_lower_strip s : split (lower (strip s)) = split (lower s).
Proof.
  unfold split, strip.
  by rewrite lower_rstrip, lower_lstrip, runs_rstrip, runs_lstrip.
Qed.

Lemma lower_lower s : lower (lower s) = lower s.
Proof. apply lower_id, lower_lowered. Qed.

End NameKeys.

(** X16. [normalize_name] gives the words of the value, in lower case,
    joined by single spaces, in both scripts; a missing value gives the empty
    string. Two names have the same key exactly when they have the same
    words up to case: the case of the letters and the white space around and
    between the words do not matter. *)
Theorem normalize_name_words (s t : string) :
  FillDataFromPantheria.normalize_name (Some s)
  = PyStr.join " " (PyStr.split (PyStr.lower s))
  ∧ AddPopulationGrpSizeFromPantheria.normalize_name (Some s)
    = PyStr.join " " (PyStr.split (PyStr.lower s))
  ∧ FillDataFromPantheria.normalize_name None = EmptyString
  ∧ FillDataFromPantheria.normalize_name (Some (PyStr.lower s))
    = FillDataFromPantheria.normalize_name (Some s)
  ∧ (FillDataFromPantheria.normalize_name (Some s)
     = FillDataFromPantheria.normalize_name (Some t)
     ↔ PyStr.split (PyStr.lower s) = PyStr.split (PyStr.lower t)).
Proof.
  assert (∀ x, FillDataFromPantheria.normalize_name (Some x)
               = PyStr.join " " (PyStr.split (PyStr.lower x))) as Hwords.
  { intros x. unfold FillDataFromPantheria.normalize_name. simpl or_empty.
    by rewrite split_lower_strip. }
  split; [apply Hwords|]. split; [apply Hwords|]. split; [done|].
  split; [by rewrite !Hwords, lower_lower|].
  rewrite !Hwords. split; [|by intros ->].
  intros Heq. apply (f_equal (PyStr.runs PyStr.isspace)) in Heq.
  by rewrite !(runs_join PyStr.isspace " ") in Heq by (done || apply runs_words).
Qed.

Section Binomial.

Import FillDataFromPantheria.

Lemma split_binomial (p0 p1 : string) :
  word PyStr.isspace p0 → word PyStr.isspace p1 →
  PyStr.split (p0 +:+ " " +:+ p1) = [p0; p1].
Proof.
  intros H0 H1.
  apply (runs_join PyStr.isspace " " [p0; p1]); [done|].
  constructor; [done|]. constructor; [done|]. constructor.
Qed.

Lemma to_binomial_words (s : string) :
  PyStr.split (to_binomial s) = take 2 (PyStr.split s).
Proof.
  unfold to_binomial.
  pose proof (runs_words PyStr.isspace s) as Hw. fold (PyStr.split s) in Hw.
  destruct (PyStr.split s) as [|p0 [|p1 rest]] eqn:Hs; [by rewrite Hs..|].
  apply Forall_cons in Hw as [H0 Hw]. apply Forall_cons in Hw as [H1 _].
  by rewrite split_binomial.
Qed.

End Binomial.

(** X17. The binomial reduction keeps the first two words of a name:
    its words are the first two words of the name, so that reducing twice is
    reducing once. The reduction of a normalised name is a normalised name
    itself: the key of the second look-up is a key that the index can
    hold. *)
Theorem to_binomial_idempotent (s : string) (x : option string) :
  PyStr.split (FillDataFromPantheria.to_binomial s) = take 2 (PyStr.split s)
  ∧ FillDataFromPantheria.to_binomial (FillDataFromPantheria.to_binomial s)
    = FillDataFromPantheria.to_binomial s
  ∧ AddPopulationGrpSizeFromPantheria.to_binomial
      (AddPopulationGrpSizeFromPantheria.to_binomial s)
    = AddPopulationGrpSizeFromPantheria.to_binomial s
  ∧ FillDataFromPantheria.normalize_name
      (Some (FillDataFromPantheria.to_binomial
               (FillDataFromPantheria.normalize_name x)))
    = FillDataFromPantheria.to_binomial (FillDataFromPantheria.normalize_name x).
Proof.
  assert (∀ u, FillDataFromPantheria.to_binomial (FillDataFromPantheria.to_binomial u)
               = FillDataFromPantheria.to_binomial u) as Hidem.
  { intros u. unfold FillDataFromPantheria.to_binomial at 1.
    rewrite to_binomial_words. unfold FillDataFromPantheria.to_binomial.
    by destruct (PyStr.split u) as [|p0 [|p1 rest]] eqn:Hs; rewrite ?Hs. }
  split; [apply to_binomial_words|]. split; [apply Hidem|]. split; [apply Hidem|].
  set (n := FillDataFromPantheria.normalize_name x).
  unfold FillDataFromPantheria.to_binomial.
  destruct (PyStr.split n) as [|p0 [|p1 rest]] eqn:Hs;
    [apply join_split_lower_strip_idem..|].
  assert (Forall (word PyStr.isspace) [p0; p1]
          ∧ Forall (fun w => all_chars lowered w = true) [p0; p1]) as [Hw Hl].
  { subst n. unfold FillDataFromPantheria.normalize_name in Hs.
    unfold PyStr.split in Hs.
    rewrite (runs_join PyStr.isspace " ") in Hs by (done || apply runs_words).
    pose proof (runs_words PyStr.isspace
                  (PyStr.lower (PyStr.strip (or_empty x)))) as Hw.
    pose proof (runs_all_chars lowered PyStr.isspace
                  (PyStr.lower (PyStr.strip (or_empty x)))
                  (lower_lowered _)) as Hl.
    rewrite Hs in Hw, Hl.
    apply Forall_cons in Hw as [H0 Hw]. apply Forall_cons in Hw as [H1 _].
    apply Forall_cons in Hl as [L0 Hl]. apply Forall_cons in Hl as [L1 _].
    split; (constructor; [done|]; constructor; [done|]; constructor). }
  cbv beta iota.
  unfold FillDataFromPantheria.normalize_name. simpl or_empty.
  change (p0 +:+ " " +:+ p1) with (PyStr.join " " [p0; p1]).
  rewrite strip_join by done.
  rewrite lower_id by (by apply all_chars_join).
  unfold PyStr.split. by rewrite (runs_join PyStr.isspace " ").
Qed.

(** X18. In the index that [load_pantheria_index] builds, in both
    scripts, every key is the normalised name of the row it holds, is not
    empty and is left as it is by [normalize_name]; the row is a row of the
    file; and every row of the file whose normalised name is not empty finds
    a row under its key. *)
Theorem load_pantheria_index_keys (rows : list row) :
  AddPopulationGrpSizeFromPantheria.load_pantheria_index rows
  = FillDataFromPantheria.load_pantheria_index rows
  ∧ (∀ k r, FillDataFromPantheria.load_pantheria_index rows !! k = Some r →
            k ≠ EmptyString ∧ r ∈ rows ∧ index_key r = k
            ∧ FillDataFromPantheria.normalize_name (Some k) = k)
  ∧ (∀ r, r ∈ rows → index_key r ≠ EmptyString →
          is_Some (FillDataFromPantheria.load_pantheria_index rows !! index_key r)).
Proof.
  split; [done|]. split.
  - intros k r Hk. unfold FillDataFromPantheria.load_pantheria_index in Hk.
    rewrite fold_index_add_lookup, lookup_empty in Hk.
    destruct (decide (k = EmptyString)) as [|Hne]; [done|].
    unfold first_with_key in Hk. apply head_Some_elem_of in Hk.
    apply list_elem_of_filter in Hk as [Hkey Hin].
    split; [done|]. split; [done|]. split; [done|].
    rewrite <- Hkey. apply join_split_lower_strip_idem.
  - intros r Hin Hne. unfold FillDataFromPantheria.load_pantheria_index.
    rewrite fold_index_add_lookup, lookup_empty.
    rewrite decide_False by done. unfold first_with_key.
    destruct (filter _ rows) as [|r' l] eqn:Hf; [|by eexists].
    assert (r ∈ filter (fun r0 => index_key r0 = index_key r) rows) as H
      by (by apply list_elem_of_filter).
    rewrite Hf in H. by apply elem_of_nil in H.
Qed.

(** ** The title under which a file is cached *)

Section FileTitle.

Import PyStr AddSoundFromWikipedia.

Lemma all_chars_drop P n s : all_chars P s = true → all_chars P (drop n s) = true.
Proof.
  revert s. induction n as [|n IH]; intros s; [done|].
  destruct s as [|c s]; [done|]. intros [_ Hs]%andb_prop. by apply IH.
Qed.

Lemma all_chars_lstrip P s : all_chars P s = true → all_chars P (lstrip s) = true.
Proof.
  induction s as [|c s IH]; [done|]. intros H. simpl.
  destruct (isspace c); [|done]. apply andb_prop in H as [_ H]. by apply IH.
Qed.

Lemma all_chars_rstrip P s : all_chars P s = true → all_chars P (rstrip s) = true.
Proof.
  induction s as [|c s IH]; [done|]. intros [Hc Hs]%andb_prop.
  rewrite rstrip_cons. specialize (IH Hs).
  destruct (rstrip s) as [|b r].
  - destruct (isspace c); [done|]. simpl. by rewrite Hc.
  - change (all_chars P (String c (String b r)))
      with (P c && all_chars P (String b r)).
    by rewrite Hc, IH.
Qed.

Lemma all_chars_replace (a b : ascii) s :
  a ≠ b → all_chars (fun c => negb (Ascii.eqb c a)) (replace_char a b s) = true.
Proof.
  intros Hab. induction s as [|c s IH]; [done|]. cbn [replace_char all_chars].
  rewrite IH, andb_true_r. destruct (Ascii.eqb c a) eqn:Hc; [|by rewrite Hc].
  apply negb_true_iff, Ascii.eqb_neq. congruence.
Qed.

Lemma replace_char_id (a b : ascii) s :
  all_chars (fun c => negb (Ascii.eqb c a)) s = true → replace_char a b s = s.
Proof.
  induction s as [|c s IH]; [done|]. intros [Hc Hs]%andb_prop.
  cbn [replace_char]. apply negb_true_iff in Hc. by rewrite Hc, IH.
Qed.

Variable unquote : string → string.

(** A title that is normalised has no underscore and is stripped. *)
Lemma normalize_title_clean (value : option string) :
  all_chars (fun c => negb (Ascii.eqb c "_")) (normalize_title unquote value) = true
  ∧ strip (normalize_title unquote value) = normalize_title unquote value.
Proof.
  unfold normalize_title. destruct (negb (nonempty _)); [done|]. cbv zeta.
  split; [|apply strip_strip].
  apply all_chars_rstrip, all_chars_lstrip.
  destruct (startswith _ _); [apply all_chars_drop|];
    by apply all_chars_replace.
Qed.

Lemma strip_file_prefix (r : string) :
  r ≠ EmptyString → strip r = r → strip ("File:" +:+ r) = "File:" +:+ r.
Proof.
  intros Hne Hr. unfold strip. rewrite lstrip_id by done.
  apply rstrip_id. rewrite last_char_app.
  destruct r as [|c r']; [done|].
  destruct (last_char_cons c r') as (d & Hd). rewrite Hd.
  pose proof (rstrip_last (lstrip (String c r'))) as Hl.
  unfold strip in Hr. rewrite Hr, Hd in Hl. exact Hl.
Qed.

Hypothesis unquote_plain : plain_unquote unquote.

Lemma normalize_file_title_again (file_title : string) :
  contains "%" (normalize_file_title unquote file_title) = false →
  normalize_file_title unquote (normalize_file_title unquote file_title)
  = normalize_file_title unquote file_title.
Proof.
  unfold normalize_file_title at 1 3 4.
  destruct (normalize_title_clean (Some file_title)) as [Hunder Hstrip].
  set (r := normalize_title unquote (Some file_title)) in *.
  destruct (nonempty r) eqn:Hne; cbn [negb].
  - intros Hpct. apply nonempty_true in Hne.
    assert (normalize_title unquote (Some ("File:" +:+ r)) = r) as Hr.
    { unfold normalize_title. simpl or_empty.
      rewrite strip_file_prefix by done. rewrite unquote_plain by done.
      change (nonempty ("File:" +:+ r)) with true. cbn [negb]. cbv zeta.
      rewrite (replace_char_id "_" " " ("File:" +:+ r)) by exact Hunder.
      change (startswith "file:" (lower ("File:" +:+ r))) with true.
      change (drop 5 ("File:" +:+ r)) with r. exact Hstrip. }
    unfold normalize_file_title. rewrite Hr.
    apply nonempty_true in Hne. by rewrite Hne.
  - intros _. unfold normalize_file_title, normalize_title. simpl or_empty.
    change (strip EmptyString) with EmptyString.
    by rewrite unquote_plain.
Qed.

End FileTitle.

(** X19. The title under which [resolve_audio_file_url] caches a file
    is canonical: it is empty or starts with "File:", it has no underscore,
    and normalising it again changes nothing, for an [unquote] that leaves a
    text without a percent sign as it is and a normalised title without a
    percent sign. *)
Theorem normalize_file_title_canonical (unquote : string → string)
    (file_title : string) :
  plain_unquote unquote →
  PyStr.contains "%" (AddSoundFromWikipedia.normalize_file_title unquote file_title)
  = false →
  (AddSoundFromWikipedia.normalize_file_title unquote file_title = EmptyString
   ∨ PyStr.startswith "File:"
       (AddSoundFromWikipedia.normalize_file_title unquote file_title) = true)
  ∧ PyStr.contains "_"
      (AddSoundFromWikipedia.normalize_file_title unquote file_title) = false
  ∧ AddSoundFromWikipedia.normalize_file_title unquote
      (AddSoundFromWikipedia.normalize_file_title unquote file_title)
    = AddSoundFromWikipedia.normalize_file_title unquote file_title.
Proof.
  intros Hplain Hpct.
  split; [|split; [|by apply normalize_file_title_again]].
  - unfold AddSoundFromWikipedia.normalize_file_title.
    destruct (negb _); [by left|by right].
  - unfold AddSoundFromWikipedia.normalize_file_title.
    destruct (negb _); [done|].
    destruct (normalize_title_clean unquote (Some file_title)) as [Hunder _].
    set (r := AddSoundFromWikipedia.normalize_title unquote (Some file_title)) in *.
    clearbody r.
    change (PyStr.contains "_" ("File:" +:+ r)) with (PyStr.contains "_" r).
    induction r as [|c r IH]; [done|].
    apply andb_prop in Hunder as [Hc Hr].
    rewrite contains_cons, IH by done.
    apply negb_true_iff in Hc. by rewrite Ascii.eqb_sym, Hc.
Qed.

Lemma normalize_file_title_canonical_witness :
  AddSoundFromWikipedia.normalize_file_title unquote_ascii
    (AddSoundFromWikipedia.normalize_file_title unquote_ascii
       " file:Lion_roar%2Eogg ")
  = AddSoundFromWikipedia.normalize_file_title unquote_ascii
      " file:Lion_roar%2Eogg ".
Proof.
  apply (normalize_file_title_canonical unquote_ascii " file:Lion_roar%2Eogg ").
  - apply unquote_ascii_plain.
  - vm_compute. reflexivity.
Defined.

(** ** Sparse records *)

Section SparseRecords.

Import FillDataFromPantheria.

(** X20. A field of the legacy row gives no number when it is missing or
    blank, when [float] does not read it, or when it reads as -999.0 or
    less; no number gives no converted value. A record that has a row in
    the index is kept exactly when two or more of the four mapped columns
    give a converted value, the litter size of the row not reading as a NaN
    or an infinity; the kept row differs from the record in the target
    columns only. *)
Theorem sparse_record_rule (index : gmap string row)
    (mammal_row pantheria_row : row) (kept_rows : list row) (st : stats)
    (raw : option string) (source_col : string) :
  (parse_pantheria_number raw = None
   ↔ raw = None
     ∨ ∃ s, raw = Some s
            ∧ (PyStr.strip s = EmptyString
               ∨ Float.of_string (PyStr.strip s) = None
               ∨ ∃ v, Float.of_string (PyStr.strip s) = Some v
                      ∧ Float.leb v (Float.of_Z (-999)) = true))
  ∧ convert_trait source_col None = Ok None
  ∧ (find_pantheria_row index mammal_row = Some pantheria_row →
     ¬ litter_not_finite pantheria_row →
     ∃ filled_row st',
       fill_traits pantheria_row mammal_row
       = Ok (filled_count pantheria_row, filled_row)
       ∧ mammal_step index (Ok (kept_rows, st)) mammal_row
         = Ok (if decide (2 ≤ filled_count pantheria_row)%nat
               then kept_rows ++ [filled_row] else kept_rows, st')
       ∧ ∀ k, k ∉ ["mass_kg"; "gestation_days"; "litter_size"; "lifespan_yr"] →
              filled_row !! k = mammal_row !! k).
Proof.
  split; [apply parse_pantheria_number_none|]. split; [done|].
  intros Hfind Hfinite.
  pose proof (fill_fold pantheria_row PANTHERIA_TO_TARGET 0 mammal_row) as Hfold.
  fold (fill_traits pantheria_row mammal_row) in Hfold.
  destruct (fill_traits pantheria_row mammal_row) as [[count filled_row]|e] eqn:Hfill.
  - destruct Hfold as (Hcount & Hframe & _). rewrite Nat.add_0_l in Hcount.
    fold (filled_count pantheria_row) in Hcount. subst count.
    unfold mammal_step. rewrite Hfind, Hfill.
    destruct (filled_count pantheria_row <? 2)%nat eqn:Hlt.
    + apply Nat.ltb_lt in Hlt. exists filled_row. eexists.
      rewrite decide_False by lia. eauto.
    + apply Nat.ltb_ge in Hlt. exists filled_row. eexists.
      rewrite decide_True by lia. eauto.
  - exfalso. destruct Hfold as (c & Hin & Hraise).
    apply convert_trait_raises in Hraise as (Hcol & v & Hv & Hnf).
    apply Hfinite. exists v. by rewrite <- Hcol.
Qed.

End SparseRecords.

(** A legacy row with two measurements, one with a single measurement, and
    the index of both. *)
Definition two_traits_row : row :=
  <["MSW05_Binomial" := Some "Panthera leo"]>
  (<["5-1_AdultBodyMass_g" := Some "158623.93"]>
  (<["9-1_GestationLen_d" := Some "108.72"]>
  (<["15-1_LitterSize" := Some "-999"]>
  (<["17-1_MaxLongevity_m" := Some "-999.00"]> ∅)))).

Definition one_trait_row : row :=
  <["MSW05_Binomial" := Some "Panthera onca"]>
  (<["5-1_AdultBodyMass_g" := Some "83943.27"]>
  (<["9-1_GestationLen_d" := Some ""]>
  (<["15-1_LitterSize" := Some "n/a"]>
  (<["17-1_MaxLongevity_m" := Some "-999"]> ∅)))).

Definition cats_index : gmap string row :=
  FillDataFromPantheria.load_pantheria_index [two_traits_row; one_trait_row].

Definition lion_record : row :=
  <["scientific_name" := Some "Panthera leo"]> (<["common_name" := Some "Lion"]> ∅).

Definition jaguar_record : row :=
  <["scientific_name" := Some "Panthera onca"]> (<["common_name" := Some "Jaguar"]> ∅).

Lemma sparse_record_rule_witness :
  (∃ filled_row st',
     FillDataFromPantheria.mammal_step cats_index
       (Ok ([], FillDataFromPantheria.Stats 0 0 0 0)) lion_record
     = Ok ([filled_row], st')
     ∧ filled_row !! "common_name" = Some (Some "Lion"))
  ∧ (∃ st',
       FillDataFromPantheria.mammal_step cats_index
         (Ok ([], FillDataFromPantheria.Stats 0 0 0 0)) jaguar_record
       = Ok ([], st')).
Proof.
  assert (FillDataFromPantheria.parse_pantheria_number
            (row_get two_traits_row "15-1_LitterSize") = None) as Hlion
    by (vm_compute; reflexivity).
  assert (FillDataFromPantheria.parse_pantheria_number
            (row_get one_trait_row "15-1_LitterSize") = None) as Hjaguar
    by (vm_compute; reflexivity).
  split.
  - destruct (sparse_record_rule cats_index lion_record two_traits_row []
                (FillDataFromPantheria.Stats 0 0 0 0) None "")
      as (_ & _ & H).
    destruct H as (filled_row & st' & _ & Hstep & Hframe).
    + vm_cast_no_check (@eq_refl (option row) (Some two_traits_row)).
    + intros (v & Hv & _). rewrite Hlion in Hv. discriminate Hv.
    + exists filled_row, st'. split.
      * rewrite Hstep.
        replace (filled_count two_traits_row) with 2%nat by (vm_compute; reflexivity).
        reflexivity.
      * rewrite Hframe by not_in_list. vm_compute. reflexivity.
  - destruct (sparse_record_rule cats_index jaguar_record one_trait_row []
                (FillDataFromPantheria.Stats 0 0 0 0) None "")
      as (_ & _ & H).
    destruct H as (filled_row & st' & _ & Hstep & _).
    + vm_cast_no_check (@eq_refl (option row) (Some one_trait_row)).
    + intros (v & Hv & _). rewrite Hjaguar in Hv. discriminate Hv.
    + exists st'. rewrite Hstep.
      replace (filled_count one_trait_row) with 1%nat by (vm_compute; reflexivity).
      reflexivity.
Defined.

(** ** The text of a number *)

Section FormatNumber.

Import PyStr.

Lemma rstrip_char_cons a c s :
  rstrip_char a (String c s) =
  match rstrip_char a s with
  | EmptyString => if Ascii.eqb c a then EmptyString else String c EmptyString
  | r => String c r
  end.
Proof. reflexivity. Qed.

(** What [rstrip_char] removes from the right of a string that is
    appended to another one. *)
Lemma rstrip_char_app a s t :
  rstrip_char a (s +:+ t) =
  match rstrip_char a t with
  | EmptyString => rstrip_char a s
  | r => s +:+ r
  end.
Proof.
  induction s as [|c s IH].
  { change (EmptyString +:+ t) with t. by destruct (rstrip_char a t). }
  change (String c s +:+ t) with (String c (s +:+ t)).
  rewrite !rstrip_char_cons, IH.
  destruct (rstrip_char a t) as [|b r]; [done|].
  change (String c s +:+ String b r) with (String c (s +:+ String b r)).
  destruct (s +:+ String b r) eqn:E; [by destruct s|done].
Qed.

Lemma rstrip_char_id a s :
  last_char s ≠ Some a → rstrip_char a s = s.
Proof.
  induction s as [|c s IH]; [done|]. rewrite rstrip_char_cons.
  destruct s as [|b s'].
  - simpl. intros Hc. destruct (Ascii.eqb c a) eqn:E; [|done].
    apply Ascii.eqb_eq in E. congruence.
  - change (last_char (String c (String b s'))) with (last_char (String b s')).
    intros H. by rewrite IH.
Qed.

(** The string is what is left of it and a run of the character. *)
Lemma rstrip_char_zeros s :
  ∃ k, s = rstrip_char "0" s +:+ Float.zeros k
       ∧ last_char (rstrip_char "0" s) ≠ Some "0"%char.
Proof.
  induction s as [|c s (k & Hs & Hl)]; [by exists O|].
  rewrite rstrip_char_cons.
  destruct (rstrip_char "0" s) as [|b r] eqn:Hr.
  - destruct (Ascii.eqb c "0") eqn:E.
    + apply Ascii.eqb_eq in E as ->. exists (S k). split; [|done].
      simpl in Hs. by rewrite Hs at 1.
    + exists k. split; [simpl in *; by rewrite Hs at 1|].
      simpl. intros [= ->]. by rewrite Ascii.eqb_refl in E.
  - exists k. split; [|done].
    change (String c (String b r) +:+ Float.zeros k)
      with (String c (String b r +:+ Float.zeros k)).
    by rewrite <- Hs.
Qed.

Lemma all_chars_app_l P s t : all_chars P (s +:+ t) = true → all_chars P s = true.
Proof. rewrite all_chars_app. by intros [? ?]%andb_prop. Qed.

Lemma contains_char_app a s t :
  contains (String a EmptyString) (s +:+ String a t) = true.
Proof.
  induction s as [|c s IH].
  - change (EmptyString +:+ String a t) with (String a t).
    by rewrite contains_cons, Ascii.eqb_refl.
  - change (String c s +:+ String a t) with (String c (s +:+ String a t)).
    by rewrite contains_cons, IH, orb_true_r.
Qed.

Lemma contains_char_none a s :
  all_chars (fun c => negb (Ascii.eqb c a)) s = true →
  contains (String a EmptyString) s = false.
Proof.
  induction s as [|c s IH]; [done|]. intros [Hc Hs]%andb_prop.
  rewrite contains_cons, IH by done.
  apply negb_true_iff in Hc. by rewrite Ascii.eqb_sym, Hc.
Qed.

Lemma all_chars_impl (P Q : ascii → bool) s :
  (∀ c, P c = true → Q c = true) → all_chars P s = true → all_chars Q s = true.
Proof.
  intros HPQ. induction s as [|c s IH]; [done|]. intros [Hc Hs]%andb_prop.
  simpl. by rewrite HPQ, IH.
Qed.

Lemma digit_not_point c : is_digit c = true → negb (Ascii.eqb c ".") = true.
Proof. by destruct c as [[] [] [] [] [] [] [] []]. Qed.

Lemma string_of_uint_digits (d : Decimal.uint) :
  all_chars is_digit (NilEmpty.string_of_uint d) = true.
Proof. induction d; simpl; by rewrite ?IHd. Qed.

(** [str(n)] is a run of digits, and not an empty one. *)
Lemma str_of_N_digits n :
  all_chars is_digit (str_of_N n) = true ∧ str_of_N n ≠ EmptyString.
Proof.
  unfold str_of_N, NilZero.string_of_uint.
  destruct (N.to_uint n) eqn:E; try (split; [apply string_of_uint_digits|done]).
  done.
Qed.

Lemma zeros_digits k : all_chars is_digit (Float.zeros k) = true.
Proof. induction k as [|k IH]; [done|]. simpl. exact IH. Qed.

(** The text of a number that has a point: a sign, digits, the point and
    digits. *)
Lemma point_digits_shape (sg : bool) n d :
  let text := (if sg then "-" else "") +:+ Float.point_digits n d in
  match d with
  | O =>
      all_chars (fun c => negb (Ascii.eqb c ".")) text = true
  | S _ =>
      ∃ whole frac,
        text = whole +:+ "." +:+ frac
        ∧ whole ≠ EmptyString
        ∧ all_chars (fun c => negb (Ascii.eqb c ".")) whole = true
        ∧ (∃ c, last_char whole = Some c ∧ is_digit c = true)
        ∧ all_chars is_digit frac = true
  end.
Proof.
  intros text. subst text.
  assert (∀ m, all_chars (fun c => negb (Ascii.eqb c "."))
                 ((if sg then "-" else "") +:+ str_of_N m) = true) as Hnp.
  { intros m. rewrite all_chars_app.
    rewrite (all_chars_impl is_digit _ (str_of_N m) digit_not_point)
      by apply str_of_N_digits.
    by destruct sg. }
  destruct d as [|d]; [apply Hnp|].
  unfold Float.point_digits.
  set (ip := str_of_N (n / 10 ^ N.of_nat (S d))).
  set (fp := str_of_N (n mod 10 ^ N.of_nat (S d))).
  exists ((if sg then "-" else "") +:+ ip),
         (Float.zeros (S d - String.length fp) +:+ fp).
  split; [by rewrite append_assoc|].
  destruct (str_of_N_digits (n / 10 ^ N.of_nat (S d))) as [Hip Hne].
  fold ip in Hip, Hne.
  split; [by destruct sg, ip|]. split; [apply Hnp|]. split.
  - rewrite last_char_app. destruct ip as [|c ip']; [done|].
    destruct (last_char_cons c ip') as (l & Hl). rewrite Hl. exists l.
    split; [done|]. by apply (all_chars_last is_digit (String c ip')).
  - rewrite all_chars_app, zeros_digits. apply str_of_N_digits.
Qed.

(** Removing the zeros that end the fraction, and the point when no digit
    of the fraction is left. *)
Lemma trim_fraction (whole frac : string) :
  (∃ c, last_char whole = Some c ∧ is_digit c = true) →
  all_chars is_digit frac = true →
  ∃ kept k,
    frac = kept +:+ Float.zeros k
    ∧ all_chars is_digit kept = true
    ∧ last_char kept ≠ Some "0"%char
    ∧ rstrip_char "." (rstrip_char "0" (whole +:+ "." +:+ frac))
      = if nonempty kept then whole +:+ "." +:+ kept else whole.
Proof.
  intros (l & Hl & Hdl) Hfrac.
  destruct (rstrip_char_zeros frac) as (k & Hk & Hlast).
  set (kept := rstrip_char "0" frac) in *.
  exists kept, k. split; [done|].
  assert (all_chars is_digit kept = true) as Hkept
    by (rewrite Hk in Hfrac; by apply all_chars_app_l in Hfrac).
  split; [done|]. split; [done|].
  assert (rstrip_char "0" (whole +:+ "." +:+ frac) = whole +:+ "." +:+ kept) as ->.
  { rewrite rstrip_char_app.
    change ("." +:+ frac) with (String "." frac). rewrite rstrip_char_cons.
    fold kept. by destruct kept. }
  assert (last_char whole ≠ Some "."%char) as Hw.
  { rewrite Hl. intros [= ->]. done. }
  destruct kept as [|c kept'] eqn:E; cbn [nonempty].
  - rewrite rstrip_char_app. simpl. by apply rstrip_char_id.
  - apply rstrip_char_id. rewrite !last_char_app.
    destruct (last_char_cons c kept') as (d & Hd). rewrite Hd.
    intros [= ->].
    by pose proof (all_chars_last is_digit _ _ Hkept Hd).
Qed.

End FormatNumber.

(** X21. [format_number] of [FillDataFromPantheria.py] changes the
    fixed-point text of the value only behind its point: it removes the
    zeros that end the fraction, and the point too when no digit of the
    fraction is left. The sign and the digits before the point stay; a text
    without a point ("nan", "inf", or a text of no decimals) is left as it
    is. *)
Theorem format_number_trims (value : spec_float) (decimals : nat) :
  let text := Float.format_fixed value decimals in
  (PyStr.contains "." text = false
   ∧ FillDataFromPantheria.format_number value decimals = text)
  ∨ ∃ whole kept k,
      text = whole +:+ "." +:+ kept +:+ Float.zeros k
      ∧ whole ≠ EmptyString ∧ PyStr.contains "." whole = false
      ∧ all_chars PyStr.is_digit kept = true
      ∧ PyStr.last_char kept ≠ Some "0"%char
      ∧ FillDataFromPantheria.format_number value decimals
        = if PyStr.nonempty kept then whole +:+ "." +:+ kept else whole.
Proof.
  intros text. unfold FillDataFromPantheria.format_number. fold text.
  assert (∀ (sg : bool) (n : N),
            text = (if sg then "-" else "") +:+ Float.point_digits n decimals →
            (PyStr.contains "." text = false
             ∧ (if PyStr.contains "." text
                then PyStr.rstrip_char "." (PyStr.rstrip_char "0" text)
                else text) = text)
            ∨ ∃ whole kept k,
                text = whole +:+ "." +:+ kept +:+ Float.zeros k
                ∧ whole ≠ EmptyString ∧ PyStr.contains "." whole = false
                ∧ all_chars PyStr.is_digit kept = true
                ∧ PyStr.last_char kept ≠ Some "0"%char
                ∧ (if PyStr.contains "." text
                   then PyStr.rstrip_char "." (PyStr.rstrip_char "0" text)
                   else text)
                  = if PyStr.nonempty kept then whole +:+ "." +:+ kept else whole)
    as Hshape.
  { intros sg n Htext. pose proof (point_digits_shape sg n decimals) as H.
    cbv zeta in H. rewrite <- Htext in H. destruct decimals as [|d].
    - left. apply contains_char_none in H. by rewrite H.
    - right. destruct H as (whole & frac & Ht & Hne & Hnp & Hlast & Hfrac).
      destruct (trim_fraction whole frac Hlast Hfrac)
        as (kept & k & Hk & Hkept & Hl & Htrim).
      exists whole, kept, k. split; [by rewrite Ht, Hk|].
      split; [done|]. split; [by apply contains_char_none|].
      split; [done|]. split; [done|].
      rewrite Ht at 1. change ("." +:+ frac) with (String "." frac).
      rewrite contains_char_app. by rewrite Ht. }
  destruct value as [s|s| |s m e]; subst text; cbn [Float.format_fixed] in *.
  - by apply (Hshape s 0%N).
  - left. by destruct s.
  - by left.
  - by apply (Hshape s (Z.to_N (Float.scaled_round m e decimals))).
Qed.

(** ** The last segment of a URI *)

Section LastSegment.

Import PyStr.

Lemma after_last_cons a c s :
  after_last a (String c s) =
  if contains (String a EmptyString) s then after_last a s
  else if Ascii.eqb c a then s else String c s.
Proof. reflexivity. Qed.

Lemma after_last_clean a s :
  contains (String a EmptyString) (after_last a s) = false.
Proof.
  induction s as [|c s IH]; [done|]. rewrite after_last_cons.
  destruct (contains (String a EmptyString) s) eqn:Hs; [done|].
  destruct (Ascii.eqb c a) eqn:Hc; [done|].
  by rewrite contains_cons, Hs, Ascii.eqb_sym, Hc.
Qed.

Lemma after_last_whole a s :
  contains (String a EmptyString) s = false → after_last a s = s.
Proof.
  destruct s as [|c s]; [done|]. rewrite contains_cons, after_last_cons.
  intros [Hc Hs]%orb_false_iff. by rewrite Hs, Ascii.eqb_sym, Hc.
Qed.

Lemma after_last_suffix a s :
  contains (String a EmptyString) s = true →
  ∃ p, s = p +:+ String a (after_last a s).
Proof.
  induction s as [|c s IH]; [done|]. rewrite contains_cons, after_last_cons.
  destruct (contains (String a EmptyString) s) eqn:Hs.
  - intros _. destruct (IH eq_refl) as (p & Hp). exists (String c p).
    change (String c p +:+ ?x) with (String c (p +:+ x)). by rewrite <- Hp.
  - rewrite orb_false_r. intros Hc. exists EmptyString.
    rewrite Ascii.eqb_sym in Hc. rewrite Hc.
    apply Ascii.eqb_eq in Hc as ->. done.
Qed.

End LastSegment.

(** X22. [qid_from_uri] gives what follows the last "/" of a URI, the
    URI itself when it has none: the result has no "/", and the URI is the
    result after a prefix that ends with "/". [unit_qid_from_uri] gives no
    unit exactly for the empty string and for "1", and that last segment for
    any other URI. *)
Theorem uri_last_segment (uri : string) :
  let q := build_mammals_csv.qid_from_uri uri in
  PyStr.contains "/" q = false
  ∧ (PyStr.contains "/" uri = false → q = uri)
  ∧ (PyStr.contains "/" uri = true → ∃ p, uri = p +:+ "/" +:+ q)
  ∧ (build_mammals_csv.unit_qid_from_uri uri = None
     ↔ uri = EmptyString ∨ uri = "1")
  ∧ (uri ≠ EmptyString → uri ≠ "1" →
     build_mammals_csv.unit_qid_from_uri uri = Some q).
Proof.
  intros q. subst q. unfold build_mammals_csv.qid_from_uri.
  split; [apply after_last_clean|]. split; [apply after_last_whole|].
  split; [apply after_last_suffix|].
  unfold build_mammals_csv.unit_qid_from_uri.
  destruct (decide (uri = EmptyString)) as [->|Hne].
  { split; [split; auto|]. intros H. by destruct H. }
  destruct (decide (uri = "1")) as [->|Hone].
  { split; [split; auto|]. intros _ H. by destruct H. }
  assert (negb (PyStr.nonempty uri) || String.eqb uri "1" = false) as ->.
  { apply orb_false_iff. split.
    - apply negb_false_iff. by apply nonempty_true.
    - by apply String.eqb_neq. }
  split; [|done]. split; [done|]. by intros [?|?].
Qed.

(** ** Map-like names *)

(** X23. A name or a URL is map-like exactly when it is not empty and one
    of the words of its unquoted, lower-cased text, the longest runs of
    lower-case letters and digits, is one of the seven keywords: a keyword
    counts as a whole word only. With an [unquote] that leaves a text without
    a percent sign as it is, "Lion_distribution_map.png" is map-like, and
    "Roadmap_of_Kenya.jpg" and "Arearange.png" are not; a missing value is
    not. *)
Theorem map_like_whole_words (unquote : string → string) (value : option string) :
  (build_mammals_csv.is_map_like_image_name_or_url unquote value = true
   ↔ ∃ v, value = Some v ∧ v ≠ EmptyString
          ∧ ∃ token,
              token ∈ PyStr.runs (fun c => negb (PyStr.is_lower_alnum c))
                        (PyStr.lower (unquote v))
              ∧ token ∈ ["area"; "distribution"; "locator"; "location"; "map";
                         "range"; "territory"])
  ∧ build_mammals_csv.is_map_like_image_name_or_url unquote None = false
  ∧ (plain_unquote unquote →
     build_mammals_csv.is_map_like_image_name_or_url unquote
       (Some "Lion_distribution_map.png") = true
     ∧ build_mammals_csv.is_map_like_image_name_or_url unquote
         (Some "Roadmap_of_Kenya.jpg") = false
     ∧ build_mammals_csv.is_map_like_image_name_or_url unquote
         (Some "Arearange.png") = false).
Proof.
  split; [|split; [done|]].
  - destruct value as [v|].
    + rewrite is_map_like_spec. split.
      * intros (Hne & token & H1 & H2). exists v.
        split; [done|]. split; [done|]. by exists token.
      * intros (v' & [= <-] & Hne & token & H1 & H2).
        split; [done|]. by exists token.
    + split; [done|]. by intros (v & [=] & _).
  - intros Hplain.
    assert (∀ v, PyStr.contains "%" v = false →
                 build_mammals_csv.is_map_like_image_name_or_url unquote (Some v)
                 = build_mammals_csv.is_map_like_image_name_or_url (fun x => x) (Some v))
      as Hsame.
    { intros v Hv. unfold build_mammals_csv.is_map_like_image_name_or_url.
      by rewrite Hplain. }
    rewrite !Hsame by (vm_compute; reflexivity).
    repeat split; vm_compute; reflexivity.
Qed.

(** ** The text of a population size *)

(** X24. [format_number] of [AddPopulationGrpSizeFromPantheria.py] gives
    the text that [convert_trait] of [FillDataFromPantheria.py] gives for a
    litter size, and raises where it raises: the integer nearest to the value
    when the value is within 1e-9 of it, and otherwise the text of two
    decimals without the zeros that end it. *)
Theorem population_format_number_as_litter (value : spec_float) :
  FillDataFromPantheria.convert_trait "15-1_LitterSize" (Some value)
  = match AddPopulationGrpSizeFromPantheria.format_number value with
    | Ok text => Ok (Some text)
    | Raised e => Raised e
    end.
Proof.
  unfold FillDataFromPantheria.convert_trait,
    AddPopulationGrpSizeFromPantheria.format_number.
  change (String.eqb "15-1_LitterSize" "5-1_AdultBodyMass_g") with false.
  change (String.eqb "15-1_LitterSize" "9-1_GestationLen_d") with false.
  change (String.eqb "15-1_LitterSize" "15-1_LitterSize") with true.
  cbv iota.
  destruct (Float.round value) as [r|e] eqn:Hr; [|done].
  destruct (Float.ltb _ _); [done|].
  do 2 f_equal. unfold FillDataFromPantheria.format_number.
  assert (PyStr.contains "." (Float.format_fixed value 2) = true) as ->; [|done].
  assert (∀ (sg : bool) (n : N),
            PyStr.contains "."
              ((if sg then "-" else "") +:+ Float.point_digits n 2) = true) as H.
  { intros sg n. destruct (point_digits_shape sg n 2) as (whole & frac & -> & _).
    change ("." +:+ frac) with (String "." frac). apply contains_char_app. }
  destruct value as [s|s| |s m e]; [apply H|done|done|apply H].
Qed.
